(** * Offline sync service (QR-Attendance/offline-sync-service.js)

    A shallow embedding of [OfflineSyncService]: the record merger
    ([mergeData]), the local persistence layer over [localStorage]
    ([getPendingSyncQueue], [getFromLocalStorage], [saveToLocalStorage],
    [markAsSynced], [addToPendingQueue], [removeFromPendingQueue],
    [getPendingSyncCount], [clearPendingSync]), the write dispatcher
    ([executeWithOfflineSupport]), the queue drain ([syncPendingData]), the
    consistency check ([reconcileLocalData]) and the connectivity monitor
    (the handlers installed by the constructor and [checkOnlineStatus]);
    and of one caller, [getStudents] of [FirebaseDatabaseService].

    Conventions of the embedding.
    - A JavaScript value that went through JSON is a [json] tree; [None] of
      type [option json] is [undefined].  Numbers are modelled at the
      integer values a JavaScript number holds exactly, below 2^53 in
      absolute value (the service stores millisecond stamps and counters);
      there the string conversion is the decimal expansion.
    - An object is a finite map from property names to values, so object
      spread is a map union and a property write is an insert.
    - A [localStorage] cell holds a text; the code only ever asks whether
      the text is empty and what [JSON.parse] makes of it, and that is what
      a [text] records.
    - Exceptions are explicit: a computation yields [Ok v] or [Thrown e],
      and keeps the state it reached when it throws.
    - An [async] method runs to its end in one step; a remote call is
      represented by the way it settles within the deadline.  What other
      tasks of the page do while a method awaits is left out, except for
      the drain: [syncPendingDataAmong] is the drain with other tasks
      acting on the page at each of its waits.
    - The clock and the random source are read from the world and do not
      move while a method runs.
    - The calls to [localStorage] succeed; console output is not
      modelled. *)

From stdpp Require Import base option list strings gmap pretty.

Set Warnings "-register-all,-clear-no-such-hyp".

(** ** JavaScript values *)

Inductive json : Type :=
  | JNull
  | JBool (b : bool)
  | JNum (n : Z)
  | JStr (s : string)
  | JArr (l : list json)
  | JObj (o : gmap string json).

(** A record is a JavaScript object. *)
Abbreviation Record := (gmap string json).

(** Truthiness of a value, as in [if (x)], [x && y] and [!x]. *)
Definition truthy (v : option json) : bool :=
  match v with
  | None => false
  | Some JNull => false
  | Some (JBool b) => b
  | Some (JNum n) => negb (n =? 0)%Z
  | Some (JStr s) => negb (String.eqb s "")
  | Some (JArr _) => true
  | Some (JObj _) => true
  end.

(** [a === b].  Arrays and objects compare by reference; every comparison
    of the service has a freshly parsed value on one side, so two composite
    values are never the same reference. *)
Definition strictEq (a b : option json) : bool :=
  match a, b with
  | None, None => true
  | Some JNull, Some JNull => true
  | Some (JBool x), Some (JBool y) => Bool.eqb x y
  | Some (JNum x), Some (JNum y) => (x =? y)%Z
  | Some (JStr x), Some (JStr y) => String.eqb x y
  | _, _ => false
  end.

(** String conversion of a value inside a template literal.  A number
    prints as its decimal expansion, which is what JavaScript prints for
    the integers of the embedding (it switches to the exponent form at
    10^21 only, far above them). *)
Fixpoint toStr (v : json) : string :=
  match v with
  | JNull => "null"
  | JBool true => "true"
  | JBool false => "false"
  | JNum n => pretty n
  | JStr s => s
  | JArr l =>
      String.concat ","
        (map (fun e => match e with JNull => "" | _ => toStr e end) l)
  | JObj _ => "[object Object]"
  end.

Definition template (v : option json) : string :=
  match v with
  | None => "undefined"
  | Some x => toStr x
  end.

(** ** RecordMerger: [mergeData] *)

(** The inner helper [getKey]; [None] is JavaScript's [null]. *)
Definition getKey (uniqueKey : string) (item : Record) : option string :=
  if String.eqb uniqueKey "id" then
    if truthy (item !! "studentId")
    then Some ("student_" +:+ template (item !! "studentId"))
    else if truthy (item !! "id")
    then Some ("id_" +:+ template (item !! "id"))
    else None
  else if String.eqb uniqueKey "studentId" then
    if truthy (item !! "studentId")
    then Some ("student_" +:+ template (item !! "studentId"))
    else None
  else
    Some (template (item !! "studentId") +:+ "_" +:+
          template (item !! "date") +:+ "_" +:+
          template (item !! "event")).

(** [key && !seenKeys.has(key)]: a key passes when it is neither [null]
    nor the empty string and has not been seen. *)
Definition fresh (key : option string) (seenKeys : gset string) : bool :=
  match key with
  | None => false
  | Some k => negb (String.eqb k "") && negb (bool_decide (k ∈ seenKeys))
  end.

(** The body shared by the two [forEach] loops; the state is the pair of
    [merged] and [seenKeys]. *)
Definition visit (uniqueKey : string)
    (st : list Record * gset string) (item : Record)
  : list Record * gset string :=
  let key := getKey uniqueKey item in
  if fresh key st.2
  then (st.1 ++ [item], from_option (fun k => {[ k ]} ∪ st.2) st.2 key)
  else st.

Definition mergeData (localData firebaseData : list Record)
    (uniqueKey : string) : list Record :=
  let afterLocal := foldl (visit uniqueKey) ([], ∅) localData in
  (foldl (visit uniqueKey) afterLocal firebaseData).1.

(** The records of a list that carry a given key, and the first of them. *)
Definition withKey (uniqueKey k : string) (l : list Record) : list Record :=
  filter (fun r => getKey uniqueKey r = Some k) l.

Definition firstWithKey (uniqueKey k : string) (l : list Record)
  : option Record :=
  head (withKey uniqueKey k l).

(** Within a list, the key determines the record. *)
Definition keyDetermines (uniqueKey : string) (l : list Record) : Prop :=
  ∀ x y, x ∈ l → y ∈ l →
    getKey uniqueKey x = getKey uniqueKey y → getKey uniqueKey x ≠ None → x = y.


(** ** Exceptions, effects and the state of the page *)

Inductive exn : Type :=
  | TypeError
  | SyntaxError
  | TimeoutError (operationName : string) (ms : nat)
  | RemoteError (message : string).

Inductive result (A : Type) : Type :=
  | Ok (a : A)
  | Thrown (e : exn).
Arguments Ok {A} a.
Arguments Thrown {A} e.

Definition rbind {A B : Type} (r : result A) (f : A → result B) : result B :=
  match r with
  | Ok a => f a
  | Thrown e => Thrown e
  end.

Notation "'letR' x := r 'in' k" := (rbind r (fun x => k))
  (at level 10, x name, r at level 100, k at level 200).

(** The text of a [localStorage] cell: the empty string, a text that
    [JSON.parse] rejects, or a text that parses to [v] (and that
    [JSON.stringify v] writes). *)
Inductive text : Type :=
  | Empty
  | Garbage
  | Json (v : json).

(** What a timer set by the service will run. *)
Inductive timerTask : Type :=
  | SyncAndReconcile
  | RefreshAttendanceTable.

(** The calls the service makes on its surroundings, in the order made. *)
Inductive effect : Type :=
  | GetItem (key : string)
  | SetItem (key : string) (value : text)
  | RemoveItem (key : string)
  | StatusChanged (online : bool)
  | StatusRefreshed
  | Toast (message type : string)
  | Timer (ms : nat) (task : timerTask)
  | Remote (operationName : string).

(** How a remote call handed to [executeWithOfflineSupport] settles within
    the deadline: resolved, rejected, or not settled at all. *)
Inductive settle : Type :=
  | Resolved (v : option json)
  | Rejected (e : exn)
  | Pending.

(** How Firestore serves one operation of a drain: the case body reaches
    [operation.synced = true] in time, it fails and is caught inside the
    case, or the deadline passes first ([late] tells whether the abandoned
    body still marks the operation before the drain filters its queue). *)
Inductive answer : Type :=
  | Acked
  | Refused
  | TimedOut (late : bool).

(** The fields of the service object and the globals of the page it
    reads.  [firestore] lists the answers Firestore will give to the next
    drain attempts. *)
Record World : Type := mkWorld {
  isOnline : bool;
  syncInProgress : bool;
  navigatorOnLine : bool;
  localStorage : gmap string text;
  firebaseDB : bool;
  firebaseDb : bool;
  showToast : bool;
  updateOfflineStatus : bool;
  updateAttendanceTable : bool;
  dateNow : Z;
  isoNow : string;
  random : string;
  firestore : list answer
}.

Definition setIsOnline (b : bool) (w : World) : World :=
  mkWorld b (syncInProgress w) (navigatorOnLine w) (localStorage w)
    (firebaseDB w) (firebaseDb w) (showToast w) (updateOfflineStatus w)
    (updateAttendanceTable w) (dateNow w) (isoNow w) (random w) (firestore w).

Definition setSyncInProgress (b : bool) (w : World) : World :=
  mkWorld (isOnline w) b (navigatorOnLine w) (localStorage w)
    (firebaseDB w) (firebaseDb w) (showToast w) (updateOfflineStatus w)
    (updateAttendanceTable w) (dateNow w) (isoNow w) (random w) (firestore w).

Definition setLocalStorage (s : gmap string text) (w : World) : World :=
  mkWorld (isOnline w) (syncInProgress w) (navigatorOnLine w) s
    (firebaseDB w) (firebaseDb w) (showToast w) (updateOfflineStatus w)
    (updateAttendanceTable w) (dateNow w) (isoNow w) (random w) (firestore w).

Definition setFirestore (a : list answer) (w : World) : World :=
  mkWorld (isOnline w) (syncInProgress w) (navigatorOnLine w) (localStorage w)
    (firebaseDB w) (firebaseDb w) (showToast w) (updateOfflineStatus w)
    (updateAttendanceTable w) (dateNow w) (isoNow w) (random w) a.

(** A computation of the service: from a world to its outcome, the world
    it leaves and the effects it made, in order. *)
Definition M (A : Type) : Type := World → result A * World * list effect.

Definition ret {A : Type} (a : A) : M A := fun w => (Ok a, w, []).

Definition bind {A B : Type} (m : M A) (f : A → M B) : M B :=
  fun w =>
    match m w with
    | (Ok a, w1, t1) => let '(r, w2, t2) := f a w1 in (r, w2, t1 ++ t2)
    | (Thrown e, w1, t1) => (Thrown e, w1, t1)
    end.

(** [try { body } catch (e) { handler e }] *)
Definition tryCatch {A : Type} (body : M A) (handler : exn → M A) : M A :=
  fun w =>
    match body w with
    | (Ok a, w1, t1) => (Ok a, w1, t1)
    | (Thrown e, w1, t1) =>
        let '(r, w2, t2) := handler e w1 in (r, w2, t1 ++ t2)
    end.

Definition liftR {A : Type} (r : result A) : M A := fun w => (r, w, []).
Definition gets {A : Type} (f : World → A) : M A := fun w => (Ok (f w), w, []).
Definition modify (f : World → World) : M unit := fun w => (Ok tt, f w, []).
Definition emit (e : effect) : M unit := fun w => (Ok tt, w, [e]).

Notation "'letM' x := m 'in' k" := (bind m (fun x => k))
  (at level 10, x name, m at level 100, k at level 200).
Notation "'doM' m 'then' k" := (bind m (fun _ => k))
  (at level 10, m at level 100, k at level 200).

(** The three components of a run. *)
Definition outcome {A : Type} (run : result A * World * list effect)
  : result A := run.1.1.
Definition final {A : Type} (run : result A * World * list effect)
  : World := run.1.2.
Definition effects {A : Type} (run : result A * World * list effect)
  : list effect := run.2.

(** ** JavaScript helpers *)

(** [v.name] for a value that may be [null]. *)
Definition prop (v : json) (name : string) : result (option json) :=
  match v with
  | JNull => Thrown TypeError
  | JObj o => Ok (o !! name)
  | _ => Ok None
  end.

(** The own properties a spread [{...v}] copies.  Only objects reach the
    spreads of the service. *)
Definition ownProps (v : json) : Record :=
  match v with
  | JObj o => o
  | _ => ∅
  end.

(** [{ ...o, name: v }] followed by JSON: a property set to [undefined]
    is not stored. *)
Definition withProp (name : string) (v : option json) (o : Record) : Record :=
  match v with
  | Some x => <[name := x]> o
  | None => delete name o
  end.

(** An array method called on a value: anything but an array has none. *)
Definition asArray (v : json) : result (list json) :=
  match v with
  | JArr l => Ok l
  | _ => Thrown TypeError
  end.

Fixpoint someR {A : Type} (p : A → result bool) (l : list A) : result bool :=
  match l with
  | [] => Ok false
  | x :: l' => letR b := p x in if b then Ok true else someR p l'
  end.

Fixpoint findIndexR {A : Type} (p : A → result bool) (l : list A)
  : result (option nat) :=
  match l with
  | [] => Ok None
  | x :: l' =>
      letR b := p x in
      if b then Ok (Some 0)
      else letR i := findIndexR p l' in Ok (S <$> i)
  end.

Fixpoint filterR {A : Type} (p : A → result bool) (l : list A)
  : result (list A) :=
  match l with
  | [] => Ok []
  | x :: l' =>
      letR b := p x in
      letR r := filterR p l' in
      Ok (if b then x :: r else r)
  end.

Fixpoint mapR {A B : Type} (f : A → result B) (l : list A) : result (list B) :=
  match l with
  | [] => Ok []
  | x :: l' => letR y := f x in letR r := mapR f l' in Ok (y :: r)
  end.

(** [haystack.includes(needle)] on strings. *)
Fixpoint includes (haystack needle : string) : bool :=
  String.prefix needle haystack ||
  match haystack with
  | EmptyString => false
  | String _ rest => includes rest needle
  end.

(** ** Local persistence *)

Definition pendingSyncKey : string := "pendingSyncQueue".
Definition localStoragePrefix : string := "offline_".
Definition TIMEOUT_MS : nat := 5000.

Definition getItem (key : string) : M (option text) :=
  fun w => (Ok (localStorage w !! key), w, [GetItem key]).

Definition setItem (key : string) (value : text) : M unit :=
  fun w => (Ok tt, setLocalStorage (<[key := value]> (localStorage w)) w,
            [SetItem key value]).

Definition removeItem (key : string) : M unit :=
  fun w => (Ok tt, setLocalStorage (delete key (localStorage w)) w,
            [RemoveItem key]).

Definition JSON_parse (t : text) : result json :=
  match t with
  | Json v => Ok v
  | Empty => Thrown SyntaxError
  | Garbage => Thrown SyntaxError
  end.

(** Truthiness of what [getItem] returned: [null] and the empty string are
    falsy. *)
Definition present (cell : option text) : bool :=
  match cell with
  | None => false
  | Some Empty => false
  | Some Garbage => true
  | Some (Json _) => true
  end.

(** [JSON.parse(cell)] on what [getItem] returned; [null], which
    [getItem] gives for an absent key, is read as the text [null]. *)
Definition parse (cell : option text) : M json :=
  liftR (JSON_parse (default (Json JNull) cell)).

(** [cell ? JSON.parse(cell) : []] *)
Definition parseOrEmpty (cell : option text) : M json :=
  if present cell then parse cell else ret (JArr []).

Definition getPendingSyncQueue : M json :=
  tryCatch
    (letM queue := getItem pendingSyncKey in
     parseOrEmpty queue)
    (fun _ => ret (JArr [])).

Definition getFromLocalStorage (collection : string) : M json :=
  tryCatch
    (let key := localStoragePrefix +:+ collection in
     letM data := getItem key in
     letM data :=
       (if negb (present data) then
          if String.eqb collection "attendance" then getItem "attendanceRecords"
          else if String.eqb collection "students" then getItem "barcodeStudents"
          else ret data
        else ret data) in
     parseOrEmpty data)
    (fun _ => ret (JArr [])).

(** The operation kinds [saveToLocalStorage] is called with. *)
Inductive opKind : Type :=
  | Add
  | Update
  | Delete.

(** The test shared by the [some], [findIndex] and [filter] callbacks of
    [saveToLocalStorage]: does the stored [item] stand for the same entity
    as [data]?  ([filter] keeps the items for which it is false.) *)
Definition sameEntity (data : Record) (item : json) : result bool :=
  letR bothId :=
    (if truthy (data !! "id")
     then letR iid := prop item "id" in Ok (truthy iid)
     else Ok false) in
  if bothId then
    letR iid := prop item "id" in Ok (strictEq iid (data !! "id"))
  else
    letR bothStudent :=
      (if truthy (data !! "studentId")
       then letR isid := prop item "studentId" in Ok (truthy isid)
       else Ok false) in
    if bothStudent then
      letR isid := prop item "studentId" in
      letR idate := prop item "date" in
      letR ievent := prop item "event" in
      if truthy (data !! "date") && truthy (data !! "event")
         && truthy idate && truthy ievent
      then Ok (strictEq isid (data !! "studentId")
               && strictEq idate (data !! "date")
               && strictEq ievent (data !! "event"))
      else Ok (strictEq isid (data !! "studentId"))
    else Ok false.

(** [{ ...data, _synced: data._synced !== undefined ? data._synced : false }] *)
Definition newItem (data : Record) : Record :=
  withProp "_synced"
    (Some (default (JBool false) (data !! "_synced"))) data.

(** [{ ...items[index], ...data, _synced: isSynced }] *)
Definition mergedItem (item : json) (data : Record) : Record :=
  let isSynced :=
    match data !! "_synced" with
    | Some v => Some v
    | None => ownProps item !! "_synced"
    end in
  withProp "_synced" isSynced (data ∪ ownProps item).

(** The new contents of the collection, from the parsed ones. *)
Definition applyOperation (operation : opKind) (data : Record) (items : json)
  : result json :=
  letR l := asArray items in
  match operation with
  | Add =>
      letR isDuplicate := someR (sameEntity data) l in
      if negb isDuplicate then Ok (JArr (l ++ [JObj (newItem data)]))
      else
        letR index := findIndexR (sameEntity data) l in
        match index with
        | Some i =>
            Ok (JArr (alter (fun item => JObj (mergedItem item data)) i l))
        | None => Ok (JArr l)
        end
  | Update =>
      letR index := findIndexR (sameEntity data) l in
      match index with
      | Some i =>
          Ok (JArr (alter (fun item => JObj (mergedItem item data)) i l))
      | None => Ok (JArr (l ++ [JObj (newItem data)]))
      end
  | Delete =>
      letR kept :=
        filterR (fun item => letR b := sameEntity data item in Ok (negb b)) l in
      Ok (JArr kept)
  end.

Definition saveToLocalStorage (collection : string) (data : Record)
    (operation : opKind) : M unit :=
  let key := localStoragePrefix +:+ collection in
  tryCatch
    (letM existing := getItem key in
     letM items :=
       (if present existing
        then tryCatch (parse existing) (fun _ => ret (JArr []))
        else ret (JArr [])) in
     letM items := liftR (applyOperation operation data items) in
     doM setItem key (Json items) then
     if String.eqb collection "attendance"
     then setItem "attendanceRecords" (Json items)
     else if String.eqb collection "students"
     then setItem "barcodeStudents" (Json items)
     else ret tt)
    (fun _ =>
       tryCatch
         (doM removeItem key then
          setItem key (Json (JArr [JObj data])))
         (fun _ => ret tt)).

(** The callback of [items.map] in [markAsSynced]. *)
Definition markItem (criteria : Record) (item : json) : result (json * bool) :=
  letR byId :=
    (if truthy (criteria !! "id")
     then letR iid := prop item "id" in Ok (truthy iid)
     else Ok false) in
  letR matched :=
    (if byId then
       letR iid := prop item "id" in Ok (strictEq iid (criteria !! "id"))
     else if truthy (criteria !! "studentId") then
       letR isid := prop item "studentId" in
       letR idate := prop item "date" in
       letR ievent := prop item "event" in
       if truthy (criteria !! "date") && truthy (criteria !! "event")
       then Ok (strictEq isid (criteria !! "studentId")
                && strictEq idate (criteria !! "date")
                && strictEq ievent (criteria !! "event"))
       else Ok (strictEq isid (criteria !! "studentId"))
     else Ok false) in
  if matched
  then Ok (JObj (<["_synced" := JBool true]> (ownProps item)), true)
  else Ok (item, false).

Definition markAsSynced (collection : string) (criteria : Record) : M unit :=
  let key := localStoragePrefix +:+ collection in
  tryCatch
    (letM existing := getItem key in
     if negb (present existing) then ret tt
     else
       letM items := parse existing in
       letM l := liftR (asArray items) in
       letM marked := liftR (mapR (markItem criteria) l) in
       if existsb snd marked
       then setItem key (Json (JArr (fst <$> marked)))
       else ret tt)
    (fun _ => ret tt).

(** ** Pending queue *)

(** [{ type: operationType, data: data, collection: collectionName }] *)
Definition pendingOperation (operationType : string) (data : Record)
    (collectionName : option string) : Record :=
  {[ "type" := JStr operationType;
     "data" := JObj data;
     "collection" := from_option JStr JNull collectionName ]}.

(** The operation once [addToPendingQueue] has given it its [syncId],
    [timestamp] and [synced] flag. *)
Definition stamped (now : Z) (rnd iso : string) (operation : Record) : Record :=
  <["synced" := JBool false]>
    (<["timestamp" := JStr iso]>
       (<["syncId" := JStr ("sync_" +:+ pretty now +:+ "_" +:+ rnd)]>
          operation)).

Definition addToPendingQueue (operation : Record) : M unit :=
  tryCatch
    (letM queue := getPendingSyncQueue in
     letM now := gets dateNow in
     letM rnd := gets random in
     letM iso := gets isoNow in
     let operation := stamped now rnd iso operation in
     letM l := liftR (asArray queue) in
     setItem pendingSyncKey (Json (JArr (l ++ [JObj operation]))))
    (fun _ => ret tt).

(** ** The write dispatcher *)

(** Helper to race a promise against a timeout. *)
Definition resultWithTimeout (promise : settle) (ms : nat)
    (operationName : string) : result (option json) :=
  match promise with
  | Resolved v => Ok v
  | Rejected e => Thrown e
  | Pending => Thrown (TimeoutError operationName ms)
  end.

(** The Local Storage action derived from the operation's name. *)
Definition lsOperation (operationType : string) : opKind :=
  if includes operationType "update" || includes operationType "Update"
  then Update
  else if includes operationType "delete" || includes operationType "Delete"
  then Delete
  else Add.

(** [if (collectionName)]: the name is neither [null] nor empty. *)
Definition named (collectionName : option string) : option string :=
  match collectionName with
  | Some c => if String.eqb c "" then None else Some c
  | None => None
  end.

(** [collectionName ? this.getFromLocalStorage(collectionName) : null] *)
Definition localResult (collectionName : option string)
  : M (option json) :=
  match named collectionName with
  | Some c => letM items := getFromLocalStorage c in ret (Some items)
  | None => ret (Some JNull)
  end.

(** Calling the remote operation and waiting for it to settle or for the
    deadline. *)
Definition invoke (firebaseOperation : World → settle * World) : M settle :=
  fun w => let '(s, w') := firebaseOperation w in (Ok s, w', []).

Definition executeWithOfflineSupport (operationType : string)
    (firebaseOperation : World → settle * World) (data : Record)
    (collectionName : option string) : M (option json) :=
  letM isActuallyOnline := gets isOnline in
  let lsOp := lsOperation operationType in
  doM (match named collectionName with
       | Some c => saveToLocalStorage c data lsOp
       | None => ret tt
       end) then
  letM haveFirebase := gets firebaseDB in
  if isActuallyOnline && haveFirebase then
    tryCatch
      (doM emit (Remote operationType) then
       letM promise := invoke firebaseOperation in
       letM result :=
         liftR (resultWithTimeout promise TIMEOUT_MS operationType) in
       doM (match named collectionName with
            | Some c => markAsSynced c data
            | None => ret tt
            end) then
       ret result)
      (fun _ =>
         doM addToPendingQueue
               (pendingOperation operationType data collectionName) then
         localResult collectionName)
  else
    doM addToPendingQueue
          (pendingOperation operationType data collectionName) then
    localResult collectionName.

(** ** Notifications *)

Definition showSyncStatus (message type : string) : M unit :=
  letM toast := gets showToast in
  if toast then emit (Toast message type) else ret tt.

Definition triggerStatusUpdate : M unit :=
  letM online := gets isOnline in
  doM emit (StatusChanged online) then
  letM ui := gets updateOfflineStatus in
  if ui then emit StatusRefreshed else ret tt.

(** ** The drain: [syncPendingData] *)

(** The operation types the [switch] of the drain has a case for. *)
Definition knownOperations : list string :=
  [ "addAttendanceRecord"; "updateAttendanceRecord"; "addStudent";
    "updateStudent"; "deleteStudent"; "createEvent"; "setCurrentEvent";
    "deleteEvent"; "deleteAttendanceRecordsByEvent" ].

(** Every case but [createEvent] reads a property of [operation.data]
    before it reaches Firestore. *)
Definition readsData (name : string) : bool := negb (String.eqb name "createEvent").

Definition dataMissing (operation : json) : bool :=
  match ownProps operation !! "data" with
  | None => true
  | Some JNull => true
  | Some _ => false
  end.

(** [operation.synced = true] *)
Definition markSynced (operation : json) : json :=
  JObj (<["synced" := JBool true]> (ownProps operation)).

Definition nextAnswer : M answer :=
  fun w =>
    match firestore w with
    | a :: rest => (Ok a, setFirestore rest w, [])
    | [] => (Ok (TimedOut false), w, [])
    end.

(** The promise of a case body, as the race of [resultWithTimeout] sees
    it. *)
Definition bodySettles (a : answer) : settle :=
  match a with
  | Acked => Resolved None
  | Refused => Resolved None
  | TimedOut _ => Pending
  end.

Definition marksSynced (a : answer) : bool :=
  match a with
  | Acked => true
  | Refused => false
  | TimedOut late => late
  end.

(** One turn of the loop for an operation that is not synced yet: the
    operation as the turn leaves it, and what the turn adds to
    [syncedCount] and [failedCount].  A case is rendered by the remote
    work it starts and the answer of Firestore to it.  That is the whole
    of the cases that talk to Firestore themselves; the cases that call
    [FirebaseDatabaseService] instead, or mark the operation without any
    remote work, are the ones [indirect] singles out below, and the
    statements about a pass are made for queues without them. *)
Definition attempt (operation : json) : M (json * nat * nat) :=
  letM type := liftR (prop operation "type") in
  match type with
  | Some (JStr name) =>
      if bool_decide (name ∈ knownOperations) then
        letM db := gets firebaseDb in
        if negb db then ret (operation, 0, 0)
        else if readsData name && dataMissing operation
        then ret (operation, 0, 0)
        else
          doM emit (Remote name) then
          letM a := nextAnswer in
          let after := if marksSynced a then markSynced operation else operation in
          let synced := if marksSynced a then 1 else 0 in
          tryCatch
            (letM _ := liftR (resultWithTimeout (bodySettles a) TIMEOUT_MS name) in
             ret (after, synced, 0))
            (fun _ => ret (after, synced, 1))
      else ret (operation, 0, 0)
  | _ => ret (operation, 0, 0)
  end.

(** [for (const operation of queue)] *)
Fixpoint drainLoop (queue : list json) : M (list json * nat * nat) :=
  match queue with
  | [] => ret ([], 0, 0)
  | operation :: rest =>
      letM synced := liftR (prop operation "synced") in
      letM this :=
        (if truthy synced then ret (operation, 0, 0) else attempt operation) in
      letM others := drainLoop rest in
      ret (this.1.1 :: others.1.1, this.1.2 + others.1.2, this.2 + others.2)
  end.

(** [queue.length === 0] *)
Definition lengthIsZero (queue : json) : result bool :=
  match queue with
  | JNull => Thrown TypeError
  | JArr l => Ok (bool_decide (length l = 0))
  | JStr s => Ok (String.eqb s "")
  | JObj o => Ok (strictEq (o !! "length") (Some (JNum 0)))
  | JBool _ => Ok false
  | JNum _ => Ok false
  end.

(** [op => !op.synced], on the operations the loop went through. *)
Definition unsynced (operation : json) : bool :=
  negb (truthy (ownProps operation !! "synced")).

Definition syncPendingData : M unit :=
  letM busy := gets syncInProgress in
  if busy then ret tt
  else
    letM online := gets isOnline in
    if negb online then ret tt
    else
      doM modify (setSyncInProgress true) then
      letM queue := getPendingSyncQueue in
      letM empty := liftR (lengthIsZero queue) in
      if empty then modify (setSyncInProgress false)
      else
        letM firebase := gets (fun w => firebaseDB w && firebaseDb w) in
        if negb firebase then modify (setSyncInProgress false)
        else
          (* a queue that is no array cannot be iterated and filtered *)
          letM l := liftR (asArray queue) in
          letM drained := drainLoop l in
          let syncedCount := drained.1.2 in
          let remainingQueue := List.filter unsynced drained.1.1 in
          doM setItem pendingSyncKey (Json (JArr remainingQueue)) then
          doM (if (0 <? syncedCount)%nat
               then showSyncStatus
                      ("Synced " +:+ pretty syncedCount +:+ " item(s) successfully")
                      "success"
               else ret tt) then
          doM modify (setSyncInProgress false) then
          letM table := gets updateAttendanceTable in
          if (0 <? syncedCount)%nat && table
          then emit (Timer 500 RefreshAttendanceTable)
          else ret tt.

(** ** The drain among other tasks *)

(** [syncPendingData] is an [async] method: it runs without interruption
    up to the [await] of the turn of the first operation that is not
    synced, from one such [await] to the next, and from the last one to
    its end.  At each of them other tasks of the page run (the rest of the
    task that made the request, a timer, an event handler, a call of the
    dispatcher, another drain request).  [tasks] lists what they do to the
    page, one entry per stored operation in the order of the queue: an
    entry acts at the [await] of the turn of its operation, after the case
    body has started its remote work if it has any, and a missing entry is
    a wait during which nothing else happens.  The effects of a run are
    those of the drain itself. *)
Definition attemptAmong (task : World → World) (operation : json)
  : M (json * nat * nat) :=
  letM type := liftR (prop operation "type") in
  match type with
  | Some (JStr name) =>
      if bool_decide (name ∈ knownOperations) then
        letM db := gets firebaseDb in
        if negb db then doM modify task then ret (operation, 0, 0)
        else if readsData name && dataMissing operation
        then doM modify task then ret (operation, 0, 0)
        else
          doM emit (Remote name) then
          doM modify task then
          letM a := nextAnswer in
          let after := if marksSynced a then markSynced operation else operation in
          let synced := if marksSynced a then 1 else 0 in
          tryCatch
            (letM _ := liftR (resultWithTimeout (bodySettles a) TIMEOUT_MS name) in
             ret (after, synced, 0))
            (fun _ => ret (after, synced, 1))
      else doM modify task then ret (operation, 0, 0)
  | _ => doM modify task then ret (operation, 0, 0)
  end.

Fixpoint drainLoopAmong (tasks : list (World → World)) (queue : list json)
  : M (list json * nat * nat) :=
  match queue with
  | [] => ret ([], 0, 0)
  | operation :: rest =>
      letM synced := liftR (prop operation "synced") in
      letM this :=
        (if truthy synced then ret (operation, 0, 0)
         else attemptAmong (hd id tasks) operation) in
      letM others := drainLoopAmong (tl tasks) rest in
      ret (this.1.1 :: others.1.1, this.1.2 + others.1.2, this.2 + others.2)
  end.

Definition syncPendingDataAmong (tasks : list (World → World)) : M unit :=
  letM busy := gets syncInProgress in
  if busy then ret tt
  else
    letM online := gets isOnline in
    if negb online then ret tt
    else
      doM modify (setSyncInProgress true) then
      letM queue := getPendingSyncQueue in
      letM empty := liftR (lengthIsZero queue) in
      if empty then modify (setSyncInProgress false)
      else
        letM firebase := gets (fun w => firebaseDB w && firebaseDb w) in
        if negb firebase then modify (setSyncInProgress false)
        else
          letM l := liftR (asArray queue) in
          letM drained := drainLoopAmong tasks l in
          let syncedCount := drained.1.2 in
          let remainingQueue := List.filter unsynced drained.1.1 in
          doM setItem pendingSyncKey (Json (JArr remainingQueue)) then
          doM (if (0 <? syncedCount)%nat
               then showSyncStatus
                      ("Synced " +:+ pretty syncedCount +:+ " item(s) successfully")
                      "success"
               else ret tt) then
          doM modify (setSyncInProgress false) then
          letM table := gets updateAttendanceTable in
          if (0 <? syncedCount)%nat && table
          then emit (Timer 500 RefreshAttendanceTable)
          else ret tt.


(** ** Connectivity monitor *)

Definition handleOnline : M unit :=
  doM modify (setIsOnline true) then
  doM triggerStatusUpdate then
  doM emit (Timer 2000 SyncAndReconcile) then
  showSyncStatus "Connection restored. Syncing data..." "info".

Definition handleOffline : M unit :=
  doM modify (setIsOnline false) then
  doM triggerStatusUpdate then
  showSyncStatus "Offline mode. Data will sync when connection is restored."
    "warning".

(** A call of an [async] method that is not awaited: a failure inside
    rejects a promise that nobody observes. *)
Definition spawn (m : M unit) : M unit := tryCatch m (fun _ => ret tt).

(** A signal of the platform to the monitor. *)
Inductive signal : Type :=
  | OnlineEvent
  | OfflineEvent
  | IntervalTick
  | VisibilityChange (hidden : bool)
  | WindowFocus
  | StatusCheck.

Section Monitor.

(** The platform's conversion of a string to a number, compared with zero;
    it is only consulted for a queue cell that holds an object with a
    [length] property of its own. *)
Variable stringIsPositive : string → bool.

(** [x > 0] *)
Definition greaterThanZero (x : option json) : bool :=
  match x with
  | None => false
  | Some JNull => false
  | Some (JBool b) => b
  | Some (JNum n) => (0 <? n)%Z
  | Some (JStr s) => stringIsPositive s
  | Some (JArr l) => stringIsPositive (toStr (JArr l))
  | Some (JObj _) => false
  end.

(** [pendingQueue.length > 0] *)
Definition lengthIsPositive (queue : json) : result bool :=
  match queue with
  | JNull => Thrown TypeError
  | JArr l => Ok (0 <? length l)%nat
  | JStr s => Ok (0 <? String.length s)%nat
  | JObj o => Ok (greaterThanZero (o !! "length"))
  | JBool _ => Ok false
  | JNum _ => Ok false
  end.

(** The check the timer, visibility and focus handlers share. *)
Definition syncIfPending : M unit :=
  letM pendingQueue := getPendingSyncQueue in
  letM some := liftR (lengthIsPositive pendingQueue) in
  if some then spawn syncPendingData else ret tt.

Definition onOnline : M unit :=
  doM modify (setIsOnline true) then
  doM triggerStatusUpdate then
  handleOnline.

Definition onOffline : M unit :=
  doM modify (setIsOnline false) then
  doM triggerStatusUpdate then
  handleOffline.

Definition onInterval : M unit :=
  letM wasOnline := gets isOnline in
  letM now := gets navigatorOnLine in
  doM modify (setIsOnline now) then
  doM (if negb (Bool.eqb wasOnline now)
       then doM triggerStatusUpdate then
            if now then handleOnline else handleOffline
       else ret tt) then
  letM online := gets isOnline in
  letM busy := gets syncInProgress in
  if online && negb busy then syncIfPending else ret tt.

Definition onVisibilityChange (hidden : bool) : M unit :=
  letM online := gets isOnline in
  if negb hidden && online then syncIfPending else ret tt.

Definition onFocus : M unit :=
  letM online := gets isOnline in
  if online then syncIfPending else ret tt.

Definition checkOnlineStatus : M bool :=
  letM wasOnline := gets isOnline in
  letM now := gets navigatorOnLine in
  doM modify (setIsOnline now) then
  doM (if negb (Bool.eqb wasOnline now) then triggerStatusUpdate else ret tt) then
  gets isOnline.

Definition deliver (s : signal) : M unit :=
  match s with
  | OnlineEvent => onOnline
  | OfflineEvent => onOffline
  | IntervalTick => onInterval
  | VisibilityChange hidden => onVisibilityChange hidden
  | WindowFocus => onFocus
  | StatusCheck => doM checkOnlineStatus then ret tt
  end.

(** The connectivity a signal reports, if it reports one. *)
Definition reported (s : signal) (w : World) : option bool :=
  match s with
  | OnlineEvent => Some true
  | OfflineEvent => Some false
  | IntervalTick => Some (navigatorOnLine w)
  | StatusCheck => Some (navigatorOnLine w)
  | VisibilityChange _ => None
  | WindowFocus => None
  end.

End Monitor.

(** The effects that touch [localStorage], and the remote calls. *)
Definition storageEffect (e : effect) : bool :=
  match e with
  | GetItem _ => true
  | SetItem _ _ => true
  | RemoveItem _ => true
  | _ => false
  end.

Definition isRemote (e : effect) : bool :=
  match e with
  | Remote _ => true
  | _ => false
  end.

(** A notification of a status change among the effects. *)
Definition isStatusChanged (e : effect) : bool :=
  match e with
  | StatusChanged _ => true
  | _ => false
  end.

(** ** Sample data *)

(** Two local records of one student, under different names. *)
Definition anaS1 : Record :=
  {[ "studentId" := JStr "S1"; "studentName" := JStr "Ana" ]}.
Definition benS1 : Record :=
  {[ "studentId" := JStr "S1"; "studentName" := JStr "Ben" ]}.
Definition caroS2 : Record :=
  {[ "studentId" := JStr "S2"; "studentName" := JStr "Caro" ]}.

(** A page that has just loaded, offline, with nothing stored. *)
Definition blankWorld : World :=
  mkWorld false false false ∅ false false false false false 0 "" "" [].

(** ** Vocabulary of the statements *)

(** What a cell is read as: its parsed value, or the empty list when the
    key is absent, the text is empty or it does not parse. *)
Definition cellValue (cell : option text) : json :=
  match cell with
  | Some (Json v) => v
  | _ => JArr []
  end.

(** The legacy key [getFromLocalStorage] falls back to for a collection. *)
Definition legacyKey (collection : string) : option string :=
  if String.eqb collection "attendance" then Some "attendanceRecords"
  else if String.eqb collection "students" then Some "barcodeStudents"
  else None.

(** The cell [getFromLocalStorage] ends up reading. *)
Definition effectiveCell (collection : string) (s : gmap string text)
  : option text :=
  let primary := s !! (localStoragePrefix +:+ collection) in
  if present primary then primary
  else match legacyKey collection with
       | Some k => s !! k
       | None => primary
       end.

(** [sameEntity] on an item that is not [null], where it cannot throw. *)
Definition matches (data : Record) (item : json) : bool :=
  let o := ownProps item in
  if truthy (data !! "id") && truthy (o !! "id")
  then strictEq (o !! "id") (data !! "id")
  else if truthy (data !! "studentId") && truthy (o !! "studentId")
  then
    if truthy (data !! "date") && truthy (data !! "event")
       && truthy (o !! "date") && truthy (o !! "event")
    then strictEq (o !! "studentId") (data !! "studentId")
         && strictEq (o !! "date") (data !! "date")
         && strictEq (o !! "event") (data !! "event")
    else strictEq (o !! "studentId") (data !! "studentId")
  else false.

(** The record carries an identity [saveToLocalStorage] looks at. *)
Definition keyed (data : Record) : bool :=
  truthy (data !! "id") || truthy (data !! "studentId").

(** A value that [===] compares by content. *)
Definition primitive (v : option json) : bool :=
  match v with
  | Some (JArr _) => false
  | Some (JObj _) => false
  | _ => true
  end.

(** The four properties [saveToLocalStorage] identifies a record by. *)
Definition keyFields : list string := ["id"; "studentId"; "date"; "event"].

Definition scalarKeys (data : Record) : Prop :=
  ∀ k, k ∈ keyFields → primitive (data !! k) = true.

Definition sameKeyFields (r r' : Record) : Prop :=
  ∀ k, k ∈ keyFields → r !! k = r' !! k.

(** The legacy cell [saveToLocalStorage] keeps in step with a collection. *)
Definition withLegacy (collection : string) (items : json)
    (s : gmap string text) : gmap string text :=
  match legacyKey collection with
  | Some k => <[k := Json items]> s
  | None => s
  end.

(** The cells [saveToLocalStorage] leaves: the new contents under the
    collection's key and its legacy key, or, when computing them threw,
    the single record under a cleared key. *)
Definition savedCells (collection : string) (data : Record)
    (operation : opKind) (s : gmap string text) : gmap string text :=
  let key := localStoragePrefix +:+ collection in
  match applyOperation operation data (cellValue (s !! key)) with
  | Ok items => withLegacy collection items (<[key := Json items]> s)
  | Thrown _ => <[key := Json (JArr [JObj data])]> (delete key s)
  end.

(** The cells [addToPendingQueue] leaves: the stamped operation at the end
    of the stored queue, or nothing new when the queue cell holds JSON that
    is no array. *)
Definition queuedCells (operation : Record) (w : World) : gmap string text :=
  match cellValue (localStorage w !! pendingSyncKey) with
  | JArr l =>
      <[pendingSyncKey :=
          Json (JArr (l ++ [JObj (stamped (dateNow w) (random w) (isoNow w)
                                     operation)]))]> (localStorage w)
  | _ => localStorage w
  end.

(** The local write the dispatcher starts with. *)
Definition localWrite (operationType : string) (data : Record)
    (collectionName : option string) : M unit :=
  match named collectionName with
  | Some c => saveToLocalStorage c data (lsOperation operationType)
  | None => ret tt
  end.

(** What the dispatcher does after the local write when it does not reach
    the remote store, or when the remote call failed: it queues the
    operation and reads the collection back. *)
Definition deferral (operationType : string) (data : Record)
    (collectionName : option string) : M (option json) :=
  doM addToPendingQueue
        (pendingOperation operationType data collectionName) then
  localResult collectionName.

(** The number of stored items that [data] matches. *)
Definition matching (data : Record) (l : list json) : nat :=
  length (List.filter (matches data) l).

(** The items of a collection as they are stored. *)
Definition storedItems (collection : string) (w : World) : list json :=
  match cellValue (localStorage w !! (localStoragePrefix +:+ collection)) with
  | JArr l => l
  | _ => []
  end.

(** The world after a run of calls of the dispatcher, one per record. *)
Definition retries (operationType : string)
    (firebaseOperation : World → settle * World) (collection : string)
    (records : list Record) (w : World) : World :=
  foldl (fun w r =>
           final (executeWithOfflineSupport operationType firebaseOperation
                    r (Some collection) w))
        w records.

(** A remote operation that never settles. *)
Definition neverSettles (w : World) : settle * World := (Pending, w).

(** Two records of student S1 that came with different document ids. *)
Definition docA : Record := {[ "id" := JStr "a"; "studentId" := JStr "S1" ]}.
Definition docB : Record := {[ "id" := JStr "b"; "studentId" := JStr "S1" ]}.

(** A page that is online with Firebase loaded and nothing stored. *)
Definition onlineWorld : World :=
  mkWorld true false true ∅ true true false false false 0 "" "" [].

(** A remote operation that resolves with a value at once. *)
Definition resolvesWith (v : option json) (w : World) : settle * World :=
  (Resolved v, w).

(** The record [setCurrentEvent] hands to the dispatcher. *)
Definition currentEvent : Record := {[ "eventName" := JStr "Orientation" ]}.

(** A later scan of the same student. *)
Definition anaS1Again : Record :=
  {[ "studentId" := JStr "S1"; "studentName" := JStr "Ana Maria" ]}.

(** The operations of the stored queue, as the service reads them. *)
Definition pendingOps (w : World) : list json :=
  match cellValue (localStorage w !! pendingSyncKey) with
  | JArr l => l
  | _ => []
  end.

(** The texts written to the queue cell among some effects. *)
Definition queueWrites (tr : list effect) : list text :=
  omap (fun e => match e with
                 | SetItem k v => if String.eqb k pendingSyncKey
                                  then Some v else None
                 | _ => None
                 end) tr.

(** What one turn of the drain loop may do to an operation: nothing, or
    mark an operation that was not synced. *)
Definition turned (operation after : json) : Prop :=
  after = operation ∨ (unsynced operation = true ∧ after = markSynced operation).

(** Two queued operations and a world that is online with both stored. *)
Definition queuedAna : json :=
  JObj {[ "type" := JStr "addStudent"; "data" := JObj anaS1;
          "collection" := JStr "students"; "syncId" := JStr "sync_1_a";
          "timestamp" := JStr "2024-01-01T00:00:00.000Z";
          "synced" := JBool false ]}.

Definition queuedCaro : json :=
  JObj {[ "type" := JStr "addStudent"; "data" := JObj caroS2;
          "collection" := JStr "students"; "syncId" := JStr "sync_2_b";
          "timestamp" := JStr "2024-01-01T00:00:01.000Z";
          "synced" := JBool false ]}.

Definition drainingWorld : World :=
  mkWorld true false true
    {[ pendingSyncKey := Json (JArr [queuedAna; queuedCaro]) ]}
    true true false false false 0 "" "" [Acked; Refused].

(** What a completed drain makes known after its write: the toast and
    the timer that refreshes the table, when anything was synced. *)
Definition completionEffects (syncedCount : nat) (w : World) : list effect :=
  (if (0 <? syncedCount)%nat && showToast w
   then [Toast ("Synced " +:+ pretty syncedCount +:+ " item(s) successfully")
           "success"]
   else [])
  ++ (if (0 <? syncedCount)%nat && updateAttendanceTable w
      then [Timer 500 RefreshAttendanceTable]
      else []).

(** The verb an operation type begins with, as a kind of local write:
    [update...] and [delete...] are themselves, and every other verb
    ([add], [create], [set]) stores the record. *)
Definition verb (operationType : string) : opKind :=
  if String.prefix "update" operationType then Update
  else if String.prefix "delete" operationType then Delete
  else Add.

(** A write to a cell of [localStorage] other than the queue's. *)
Definition collectionWrite (e : effect) : bool :=
  match e with
  | SetItem k _ => negb (String.eqb k pendingSyncKey)
  | RemoveItem k => negb (String.eqb k pendingSyncKey)
  | _ => false
  end.

(** A queue cell holding JSON that is no list. *)
Definition brokenQueueWorld : World :=
  mkWorld false false false {[ pendingSyncKey := Json (JObj ∅) ]}
    false false false false false 0 "" "" [].

(** [operation.data.eventName], on an operation that has its data. *)
Definition eventNameOf (operation : json) : option json :=
  ownProps (default JNull (ownProps operation !! "data")) !! "eventName".

(** The operations a pass does not send to Firestore itself.  The cases
    [createEvent] and [setCurrentEvent], and [deleteEvent] when the data
    has no event name but a usable id, call [FirebaseDatabaseService],
    which writes the collections and goes through the dispatcher again;
    [deleteEvent] with neither a name nor a usable id starts no remote work
    and marks the operation.  Operations that are synced already, or that
    fail on their missing data before any of this, are not among them. *)
Definition indirect (operation : json) : bool :=
  unsynced operation
  && match ownProps operation !! "type" with
     | Some (JStr name) =>
         if String.eqb name "createEvent" then true
         else if String.eqb name "setCurrentEvent"
         then negb (dataMissing operation)
         else if String.eqb name "deleteEvent"
         then negb (dataMissing operation)
              && negb (truthy (eventNameOf operation))
         else false
     | _ => false
     end.

(** A queue whose operations a pass sends to Firestore itself. *)
Definition direct (queue : list json) : Prop :=
  Forall (fun operation => indirect operation = false) queue.



(** ** Further operations of the service *)

(** [v.name] where [v] itself may be [undefined]. *)
Definition propOf (v : option json) (name : string) : result (option json) :=
  match v with
  | None => Thrown TypeError
  | Some x => prop x name
  end.

(** Remove operation from pending sync queue. *)
Definition removeFromPendingQueue (syncId : string) : M unit :=
  tryCatch
    (letM queue := getPendingSyncQueue in
     letM l := liftR (asArray queue) in
     letM filtered :=
       liftR (filterR
                (fun op => letR sid := prop op "syncId" in
                           Ok (negb (strictEq sid (Some (JStr syncId)))))
                l) in
     setItem pendingSyncKey (Json (JArr filtered)))
    (fun _ => ret tt).

(** Get pending sync count. *)
Definition getPendingSyncCount : M nat :=
  letM queue := getPendingSyncQueue in
  letM l := liftR (asArray queue) in
  letM pending :=
    liftR (filterR
             (fun op => letR s := prop op "synced" in Ok (negb (truthy s)))
             l) in
  ret (length pending).

(** Clear all pending sync data. *)
Definition clearPendingSync : M unit := removeItem pendingSyncKey.

(** The callback of [pendingQueue.some] in [reconcileLocalData]. *)
Definition alreadyQueued (collection : string) (item : json) (op : json)
  : result bool :=
  letR oc := prop op "collection" in
  if negb (strictEq oc (Some (JStr collection))) then Ok false
  else
    letR iid := prop item "id" in
    letR bothId :=
      (if truthy iid
       then letR d := prop op "data" in
            letR did := propOf d "id" in Ok (truthy did)
       else Ok false) in
    if bothId then
      letR d := prop op "data" in
      letR did := propOf d "id" in Ok (strictEq iid did)
    else
      letR isid := prop item "studentId" in
      letR bothStudent :=
        (if truthy isid
         then letR d := prop op "data" in
              letR dsid := propOf d "studentId" in Ok (truthy dsid)
         else Ok false) in
      if bothStudent then
        letR d := prop op "data" in
        letR dsid := propOf d "studentId" in
        letR idate := prop item "date" in
        letR ievent := prop item "event" in
        if truthy idate && truthy ievent then
          letR ddate := propOf d "date" in
          letR devent := propOf d "event" in
          Ok (strictEq isid dsid && strictEq idate ddate
              && strictEq ievent devent)
        else Ok (strictEq isid dsid)
      else Ok false.

(** The operation type [reconcileLocalData] guesses for a collection. *)
Definition guessedType (collection : string) : string :=
  if String.eqb collection "attendance" then "addAttendanceRecord"
  else if String.eqb collection "students" then "addStudent"
  else "unknown".

(** The body of [unsyncedItems.forEach]: the number it adds to
    [addedCount]. *)
Definition requeue (pendingQueue : json) (collection : string) (item : json)
  : M nat :=
  letM queued :=
    liftR (letR q := asArray pendingQueue in
           someR (alreadyQueued collection item) q) in
  if negb queued then
    let type := guessedType collection in
    if negb (String.eqb type "unknown") then
      doM addToPendingQueue
            {[ "type" := JStr type; "data" := item;
               "collection" := JStr collection ]} then
      ret 1
    else ret 0
  else ret 0.

Fixpoint sumM {A : Type} (f : A → M nat) (l : list A) : M nat :=
  match l with
  | [] => ret 0
  | x :: l' => letM a := f x in letM b := sumM f l' in ret (a + b)
  end.

(** The body of [collections.forEach]. *)
Definition reconcileCollection (pendingQueue : json) (collection : string)
  : M nat :=
  letM items := getFromLocalStorage collection in
  letM l := liftR (asArray items) in
  letM unsyncedItems :=
    liftR (filterR
             (fun item => letR s := prop item "_synced" in
                          Ok (strictEq s (Some (JBool false))))
             l) in
  sumM (requeue pendingQueue collection) unsyncedItems.

(** Identify unsynced items and add them to the queue if not already
    there. *)
Definition reconcileLocalData : M unit :=
  letM pendingQueue := getPendingSyncQueue in
  letM addedCount :=
    sumM (reconcileCollection pendingQueue) ["attendance"; "students"] in
  if (0 <? addedCount)%nat then
    doM showSyncStatus
          ("Found " +:+ pretty addedCount +:+ " unsynced items, retrying...")
          "warning" then
    spawn syncPendingData
  else ret tt.

(** ** Vocabulary of the further statements *)

(** The index of the first element that passes a test. *)
Fixpoint firstIndex {A : Type} (p : A → bool) (l : list A) : option nat :=
  match l with
  | [] => None
  | x :: l' => if p x then Some 0 else S <$> firstIndex p l'
  end.

(** A stored list none of whose items is [null]. *)
Definition nullFree (l : list json) : Prop := Forall (fun x => x ≠ JNull) l.

(** The stored items that [data] does not match. *)
Definition others (data : Record) (l : list json) : list json :=
  List.filter (fun x => negb (matches data x)) l.

(** [markItem]'s test on an item that is not [null], where it cannot
    throw. *)
Definition marks (criteria : Record) (item : json) : bool :=
  let o := ownProps item in
  if truthy (criteria !! "id") && truthy (o !! "id")
  then strictEq (o !! "id") (criteria !! "id")
  else if truthy (criteria !! "studentId") then
    if truthy (criteria !! "date") && truthy (criteria !! "event")
    then strictEq (o !! "studentId") (criteria !! "studentId")
         && strictEq (o !! "date") (criteria !! "date")
         && strictEq (o !! "event") (criteria !! "event")
    else strictEq (o !! "studentId") (criteria !! "studentId")
  else false.

(** [{ ...item, _synced: true }] *)
Definition flagged (item : json) : json :=
  JObj (<["_synced" := JBool true]> (ownProps item)).

(** A stored list with the items the criteria mark flagged as synced. *)
Definition markedItems (criteria : Record) (l : list json) : list json :=
  (fun item => if marks criteria item then flagged item else item) <$> l.

(** The cells [markAsSynced] leaves. *)
Definition flaggedCells (collection : string) (criteria : Record)
    (s : gmap string text) : gmap string text :=
  let key := localStoragePrefix +:+ collection in
  match s !! key with
  | Some (Json (JArr l)) =>
      match mapR (markItem criteria) l with
      | Ok marked =>
          if existsb snd marked
          then <[key := Json (JArr (fst <$> marked))]> s
          else s
      | Thrown _ => s
      end
  | _ => s
  end.

(** [op.syncId === syncId] on an operation that is not [null]. *)
Definition hasSyncId (syncId : string) (operation : json) : bool :=
  strictEq (ownProps operation !! "syncId") (Some (JStr syncId)).

(** The [syncId] that [addToPendingQueue] stamps in a world. *)
Definition nextSyncId (w : World) : string :=
  "sync_" +:+ pretty (dateNow w) +:+ "_" +:+ random w.

(** The case of the drain's [switch] an operation reaches with its data
    in place, if any. *)
Definition attemptable (operation : json) : option string :=
  match ownProps operation !! "type" with
  | Some (JStr name) =>
      if bool_decide (name ∈ knownOperations)
         && negb (readsData name && dataMissing operation)
      then Some name else None
  | _ => None
  end.

(** The operations a pass sends to Firestore: those not yet synced that
    reach a case. *)
Definition eligible (operation : json) : option string :=
  if unsynced operation then attemptable operation else None.

(** The queue a pass writes back, from the answers of Firestore: an
    operation leaves the queue when it was synced already or its attempt
    marked it. *)
Fixpoint remaining (answers : list answer) (queue : list json) : list json :=
  match queue with
  | [] => []
  | operation :: rest =>
      match eligible operation with
      | Some _ =>
          (if marksSynced (hd (TimedOut false) answers) then [] else [operation])
          ++ remaining (tl answers) rest
      | None =>
          (if unsynced operation then [operation] else [])
          ++ remaining answers rest
      end
  end.

(** An operation no pass can get out of the queue: not synced, and of a
    type the [switch] has no case for or without the data its case reads. *)
Definition stuck (operation : json) : bool :=
  unsynced operation
  && match attemptable operation with Some _ => false | None => true end.

(** A computation that leaves the connectivity flag as it found it. *)
Definition keepsOnline {A : Type} (m : M A) : Prop :=
  ∀ w, isOnline (final (m w)) = isOnline w.

(** The effects by which the service reaches beyond its own notifications:
    storage calls, remote calls and timers. *)
Definition isTimer (e : effect) : bool :=
  match e with
  | Timer _ _ => true
  | _ => false
  end.

(** [alreadyQueued] on an operation that is not [null] and has its data,
    where it cannot throw. *)
Definition queuedFor (collection : string) (item op : json) : bool :=
  let i := ownProps item in
  let d := ownProps (default JNull (ownProps op !! "data")) in
  if negb (strictEq (ownProps op !! "collection") (Some (JStr collection)))
  then false
  else if truthy (i !! "id") && truthy (d !! "id")
  then strictEq (i !! "id") (d !! "id")
  else if truthy (i !! "studentId") && truthy (d !! "studentId")
  then
    if truthy (i !! "date") && truthy (i !! "event")
    then strictEq (i !! "studentId") (d !! "studentId")
         && strictEq (i !! "date") (d !! "date")
         && strictEq (i !! "event") (d !! "event")
    else strictEq (i !! "studentId") (d !! "studentId")
  else false.

(** A queue [reconcileLocalData] can scan: no [null] entry, and every
    operation has its data. *)
Definition scannable (queue : list json) : Prop :=
  Forall (fun op => op ≠ JNull ∧ dataMissing op = false) queue.

(** [item._synced === false] *)
Definition flaggedUnsynced (item : json) : bool :=
  strictEq (ownProps item !! "_synced") (Some (JBool false)).

(** The stored items of a collection that [reconcileLocalData] puts back
    into the queue: flagged as not synced and matched by no operation of
    the queue it read. *)
Definition orphans (queue : list json) (collection : string)
    (items : list json) : list json :=
  List.filter (fun item => negb (existsb (queuedFor collection item) queue))
    (List.filter flaggedUnsynced items).

(** The operation [reconcileLocalData] queues for an item. *)
Definition requeueOp (w : World) (collection : string) (item : json) : json :=
  JObj (stamped (dateNow w) (random w) (isoNow w)
          {[ "type" := JStr (guessedType collection); "data" := item;
             "collection" := JStr collection ]}).

(** What a collection reads as. *)
Definition readItems (collection : string) (w : World) : json :=
  cellValue (effectiveCell collection (localStorage w)).

(** A page that is online with one student stored as not synced, nothing
    queued, and a Firestore that acknowledges. *)
Definition unsyncedWorld : World :=
  setFirestore [Acked]
    (setLocalStorage
       {[ "offline_students" := Json (JArr [JObj (newItem anaS1)]) ]}
       onlineWorld).

(** A page that is online with one operation queued, and one student
    stored as not synced that no queued operation is for. *)
Definition backlogWorld : World :=
  setFirestore [Acked; Acked]
    (setLocalStorage
       {[ pendingSyncKey := Json (JArr [queuedCaro]);
          "offline_students" := Json (JArr [JObj (newItem anaS1)]) ]}
       onlineWorld).

(** A page that is online with one student in the stored roster. *)
Definition dinaS3 : Record :=
  {[ "studentId" := JStr "S3"; "studentName" := JStr "Dina" ]}.

Definition rosterWorld : World :=
  setLocalStorage {[ "offline_students" := Json (JArr [JObj dinaS3]) ]}
    onlineWorld.

(** ** FirebaseDatabaseService: [getStudents] *)

(** What the Firestore query [collection(...).get()] settles with: the
    documents of the collection, each an id and its data, or a rejection.
    A query that never settles leaves the call waiting for ever, since no
    deadline guards it; such runs have no outcome to speak of and are not
    represented. *)
Inductive snapshot : Type :=
  | Docs (docs : list (string * Record))
  | QueryFailed (e : exn).

(** [{ id: doc.id, ...doc.data() }]: the fields of the data win. *)
Definition docRecord (doc : string * Record) : Record :=
  doc.2 ∪ {[ "id" := JStr doc.1 ]}.

(** [await window.firebaseDb.collection(...).get()] *)
Definition runQuery (query : World → snapshot * World)
  : M (list (string * Record)) :=
  fun w =>
    let '(s, w') := query w in
    match s with
    | Docs docs => (Ok docs, w', [])
    | QueryFailed e => (Thrown e, w', [])
    end.

Fixpoint forEachM {A : Type} (f : A → M unit) (l : list A) : M unit :=
  match l with
  | [] => ret tt
  | x :: l' => doM f x then forEachM f l'
  end.

(** The body of [firebaseStudents.forEach]; [localStudentIds.has] compares
    like [===] on the values JSON holds. *)
Definition keepLocally (localStudentIds : list (option json))
    (fbStudent : Record) : M unit :=
  if negb (existsb (fun i => strictEq i (fbStudent !! "studentId"))
             localStudentIds)
  then saveToLocalStorage "students" fbStudent Add
  else ret tt.

(** The service [window.offlineSync] is the one modelled here and is
    present.  [mergeData] receives the local items as they were parsed;
    once [students.map] has gone through them none is [null], and under
    the key ["studentId"] an item that is no object has no key and is
    dropped, so the merge is the one on the items' own properties. *)
Definition getStudents (query : World → snapshot * World) : M json :=
  tryCatch
    (letM students := getFromLocalStorage "students" in
     letM online := gets isOnline in
     letM db := gets firebaseDb in
     if online && db then
       tryCatch
         (doM emit (Remote "getStudents") then
          letM querySnapshot := runQuery query in
          let firebaseStudents := docRecord <$> querySnapshot in
          letM l := liftR (asArray students) in
          letM localStudentIds :=
            liftR (mapR (fun s => prop s "studentId") l) in
          doM forEachM (keepLocally localStudentIds) firebaseStudents then
          ret (JArr (JObj <$> mergeData (ownProps <$> l) firebaseStudents
                                "studentId")))
         (fun _ => ret students)
     else ret students)
    (fun _ => getFromLocalStorage "students").

(** Records none of which is matched by the item stored for an earlier
    one. *)
Fixpoint apart (rs : list Record) : Prop :=
  match rs with
  | [] => True
  | r :: rs' =>
      Forall (fun r' => matches r' (JObj (newItem r)) = false) rs' ∧ apart rs'
  end.

(** Documents as Firestore hands them out: ids that are not empty and
    differ, and data without an [id] or a [_synced] field of its own. *)
Definition plainDocs (docs : list (string * Record)) : Prop :=
  NoDup (fst <$> docs)
  ∧ Forall (fun doc => doc.1 ≠ "" ∧ doc.2 !! "id" = None
                       ∧ doc.2 !! "_synced" = None) docs.

(** * Properties *)

(** ** The record merger *)

Section MergeFacts.
Variable uniqueKey : string.

Local Abbreviation key := (getKey uniqueKey).
Local Abbreviation step := (visit uniqueKey).

Lemma append_nonempty (a b : string) : b ≠ "" → a +:+ b ≠ "".
Proof. intros Hb. destruct a; simpl; [done | discriminate]. Qed.

Lemma getKey_nonempty (r : Record) (k : string) : key r = Some k → k ≠ "".
Proof.
  unfold getKey. intros H.
  repeat match type of H with
         | (if ?c then _ else _) = _ => destruct c
         end; simplify_eq; try discriminate.
  by apply append_nonempty.
Qed.

Lemma fresh_true (r : Record) (seen : gset string) :
  fresh (key r) seen = true ↔ ∃ k, key r = Some k ∧ k ∉ seen.
Proof.
  unfold fresh. destruct (key r) as [k|] eqn:Hk.
  - rewrite andb_true_iff, !negb_true_iff, bool_decide_eq_false.
    split.
    + intros [_ Hs]. eauto.
    + intros (k' & [= <-] & Hs). split; [|done].
      apply String.eqb_neq. by eapply getKey_nonempty.
  - split; [done | by intros (? & ? & _)].
Qed.

Lemma fresh_false (r : Record) (seen : gset string) (k : string) :
  key r = Some k → fresh (key r) seen = false → k ∈ seen.
Proof.
  intros Hk Hf. destruct (decide (k ∈ seen)) as [|Hn]; [done|].
  assert (fresh (key r) seen = true) as Ht by (apply fresh_true; eauto).
  congruence.
Qed.

Lemma withKey_app (k : string) (l1 l2 : list Record) :
  withKey uniqueKey k (l1 ++ l2)
  = withKey uniqueKey k l1 ++ withKey uniqueKey k l2.
Proof. apply filter_app. Qed.

Lemma withKey_cons_eq (k : string) (x : Record) (l : list Record) :
  key x = Some k → withKey uniqueKey k (x :: l) = x :: withKey uniqueKey k l.
Proof. intros H. unfold withKey. by rewrite filter_cons_True. Qed.

Lemma withKey_cons_ne (k : string) (x : Record) (l : list Record) :
  key x ≠ Some k → withKey uniqueKey k (x :: l) = withKey uniqueKey k l.
Proof. intros H. unfold withKey. by rewrite filter_cons_False. Qed.

Lemma elem_of_withKey (k : string) (x : Record) (l : list Record) :
  x ∈ withKey uniqueKey k l ↔ key x = Some k ∧ x ∈ l.
Proof. unfold withKey. by rewrite list_elem_of_filter. Qed.

(** What one loop does to the records under a key [k] and to [seenKeys]:
    it appends the first record of the list carrying [k], unless [k] had
    been seen. *)
Lemma loop_withKey (k : string) (l : list Record) :
  ∀ merged seen,
    withKey uniqueKey k (foldl step (merged, seen) l).1
    = withKey uniqueKey k merged
      ++ (if decide (k ∈ seen) then []
          else option_list (firstWithKey uniqueKey k l)).
Proof.
  unfold firstWithKey.
  induction l as [|x l IH]; intros merged seen; simpl.
  { case_decide; by rewrite app_nil_r. }
  unfold visit at 2; simpl.
  destruct (fresh (key x) seen) eqn:Hf.
  - apply fresh_true in Hf as (k' & Hk' & Hs). rewrite Hk'. simpl.
    rewrite IH, withKey_app. destruct (decide (k = k')) as [->|Hne].
    + rewrite !withKey_cons_eq by done. simpl.
      rewrite decide_True by set_solver.
      rewrite decide_False by done.
      unfold withKey at 3. simpl. by rewrite app_nil_r.
    + rewrite !withKey_cons_ne by congruence.
      unfold withKey at 2. simpl. rewrite app_nil_r.
      destruct (decide (k ∈ seen)).
      * by rewrite decide_True by set_solver.
      * by rewrite decide_False by set_solver.
  - rewrite IH. destruct (decide (key x = Some k)) as [Hk|Hk].
    + by rewrite !decide_True by (by eapply fresh_false).
    + by rewrite withKey_cons_ne by done.
Qed.

Lemma loop_seen (k : string) (l : list Record) :
  ∀ merged seen,
    k ∈ (foldl step (merged, seen) l).2
    ↔ k ∈ seen ∨ is_Some (firstWithKey uniqueKey k l).
Proof.
  unfold firstWithKey.
  induction l as [|x l IH]; intros merged seen; simpl.
  { split; [by left | intros [|[? [=]]]; done]. }
  unfold visit at 2; simpl.
  destruct (fresh (key x) seen) eqn:Hf.
  - apply fresh_true in Hf as (k' & Hk' & Hs). rewrite Hk'. simpl.
    rewrite IH. destruct (decide (k = k')) as [->|Hne].
    + rewrite withKey_cons_eq by done. simpl. split; [|set_solver].
      intros _. right. by eexists.
    + rewrite withKey_cons_ne by congruence. set_solver.
  - rewrite IH. destruct (decide (key x = Some k)) as [Hk|Hk].
    + rewrite withKey_cons_eq by done. simpl.
      pose proof (fresh_false _ _ _ Hk Hf). split; [|by left].
      intros _. by left.
    + by rewrite withKey_cons_ne by done.
Qed.

Lemma loop_keyed (l : list Record) :
  ∀ merged seen,
    Forall (fun r => is_Some (key r)) merged →
    Forall (fun r => is_Some (key r)) (foldl step (merged, seen) l).1.
Proof.
  induction l as [|x l IH]; intros merged seen Hm; simpl; [done|].
  unfold visit at 2; simpl.
  destruct (fresh (key x) seen) eqn:Hf; [|by apply IH].
  apply IH. apply Forall_app. split; [done|].
  apply fresh_true in Hf as (k & Hk & _). constructor; [by eexists | done].
Qed.

(** The records of the result under a key: the first local record with
    that key if there is one, otherwise the first remote one. *)
Lemma mergeData_withKey (localData firebaseData : list Record) (k : string) :
  withKey uniqueKey k (mergeData localData firebaseData uniqueKey)
  = match firstWithKey uniqueKey k localData with
    | Some x => [x]
    | None => option_list (firstWithKey uniqueKey k firebaseData)
    end.
Proof.
  unfold mergeData. simpl.
  destruct (foldl step ([], ∅) localData) as [m1 s1] eqn:H1.
  rewrite loop_withKey.
  pose proof (loop_withKey k localData [] ∅) as Hm. rewrite H1 in Hm.
  pose proof (loop_seen k localData [] ∅) as Hs. rewrite H1 in Hs.
  simpl in Hm, Hs. rewrite decide_False in Hm by set_solver.
  rewrite Hm. destruct (firstWithKey uniqueKey k localData) as [x|] eqn:Hx.
  - simpl. rewrite decide_True; [done|]. apply Hs. right. by eexists.
  - simpl. rewrite decide_False; [done|].
    intros [?|[? [=]]]%Hs. set_solver.
Qed.

Lemma mergeData_keyed (localData firebaseData : list Record) :
  Forall (fun r => is_Some (key r))
    (mergeData localData firebaseData uniqueKey).
Proof.
  unfold mergeData. simpl.
  pose proof (loop_keyed localData [] ∅ (Forall_nil_2 _)) as H1.
  destruct (foldl step ([], ∅) localData) as [m1 s1].
  by apply loop_keyed.
Qed.

Lemma withKey_short_NoDup (l : list Record) :
  (∀ k, length (withKey uniqueKey k l) ≤ 1) →
  Forall (fun r => is_Some (key r)) l →
  NoDup (key <$> l).
Proof.
  induction l as [|x l IH]; intros Hlen Hk; [constructor|].
  apply Forall_cons in Hk as [[k Hx] Hk]. simpl. constructor.
  - intros (y & Hy & Hin)%list_elem_of_fmap.
    specialize (Hlen k). rewrite withKey_cons_eq in Hlen by done.
    assert (y ∈ withKey uniqueKey k l) as Hy'
      by (apply elem_of_withKey; split; congruence).
    destruct (withKey uniqueKey k l); [by apply not_elem_of_nil in Hy'|].
    simpl in Hlen. lia.
  - apply IH; [|done]. intros k'. specialize (Hlen k').
    destruct (decide (key x = Some k')) as [He|He].
    + rewrite withKey_cons_eq in Hlen by done. simpl in Hlen. lia.
    + by rewrite withKey_cons_ne in Hlen by done.
Qed.

Lemma mergeData_NoDup_keys (localData firebaseData : list Record) :
  NoDup (key <$> mergeData localData firebaseData uniqueKey).
Proof.
  apply withKey_short_NoDup; [|apply mergeData_keyed].
  intros k. rewrite mergeData_withKey.
  destruct (firstWithKey uniqueKey k localData); simpl; [lia|].
  destruct (firstWithKey uniqueKey k firebaseData); simpl; lia.
Qed.

End MergeFacts.

Lemma firstWithKey_Some (uniqueKey k : string) (l : list Record) (x : Record) :
  firstWithKey uniqueKey k l = Some x → getKey uniqueKey x = Some k ∧ x ∈ l.
Proof.
  unfold firstWithKey. intros H. apply elem_of_withKey.
  destruct (withKey uniqueKey k l); simplify_eq/=. apply list_elem_of_here.
Qed.

Lemma firstWithKey_is_Some (uniqueKey k : string) (l : list Record) :
  is_Some (firstWithKey uniqueKey k l)
  ↔ ∃ x, x ∈ l ∧ getKey uniqueKey x = Some k.
Proof.
  split.
  - intros [x Hx]. apply firstWithKey_Some in Hx as [? ?]. eauto.
  - intros (x & Hin & Hk). unfold firstWithKey.
    assert (x ∈ withKey uniqueKey k l) as Hx by by apply elem_of_withKey.
    destruct (withKey uniqueKey k l); [by apply not_elem_of_nil in Hx|].
    by eexists.
Qed.

Lemma firstWithKey_None (uniqueKey k : string) (l : list Record) :
  firstWithKey uniqueKey k l = None
  ↔ ∀ x, x ∈ l → getKey uniqueKey x ≠ Some k.
Proof.
  rewrite eq_None_not_Some, firstWithKey_is_Some. naive_solver.
Qed.

Lemma mergeData_elem (uniqueKey : string) (L R : list Record) (x : Record) :
  x ∈ mergeData L R uniqueKey
  ↔ ∃ k, getKey uniqueKey x = Some k
         ∧ match firstWithKey uniqueKey k L with
           | Some y => x = y
           | None => firstWithKey uniqueKey k R = Some x
           end.
Proof.
  split.
  - intros Hin.
    pose proof (mergeData_keyed uniqueKey L R) as Hk.
    rewrite Forall_forall in Hk. destruct (Hk x Hin) as [k Hx].
    exists k. split; [done|].
    assert (x ∈ withKey uniqueKey k (mergeData L R uniqueKey)) as Hw
      by by apply elem_of_withKey.
    rewrite mergeData_withKey in Hw.
    destruct (firstWithKey uniqueKey k L); [set_solver|].
    destruct (firstWithKey uniqueKey k R); set_solver.
  - intros (k & Hx & Hm).
    cut (x ∈ withKey uniqueKey k (mergeData L R uniqueKey)).
    { rewrite elem_of_withKey. tauto. }
    rewrite mergeData_withKey.
    destruct (firstWithKey uniqueKey k L); [set_solver|].
    rewrite Hm. set_solver.
Qed.

Lemma mergeData_key_elem (uniqueKey : string) (L R : list Record)
    (ok : option string) :
  ok ∈ (getKey uniqueKey <$> mergeData L R uniqueKey)
  ↔ ∃ k x, ok = Some k ∧ x ∈ L ++ R ∧ getKey uniqueKey x = Some k.
Proof.
  rewrite list_elem_of_fmap. split.
  - intros (x & -> & (k & Hk & Hm)%mergeData_elem). exists k.
    destruct (firstWithKey uniqueKey k L) as [y|] eqn:HL.
    + subst y. apply firstWithKey_Some in HL as [? ?].
      exists x. rewrite elem_of_app. eauto.
    + apply firstWithKey_Some in Hm as [? ?].
      exists x. rewrite elem_of_app. eauto.
  - intros (k & x & -> & Hin & Hk).
    destruct (firstWithKey uniqueKey k L) as [y|] eqn:HL.
    + exists y. pose proof (firstWithKey_Some _ _ _ _ HL) as [? ?].
      split; [done|]. apply mergeData_elem. exists k. by rewrite HL.
    + assert (is_Some (firstWithKey uniqueKey k R)) as [z Hz].
      { apply firstWithKey_is_Some. exists x. split; [|done].
        apply elem_of_app in Hin as [Hin|Hin]; [|done].
        rewrite firstWithKey_None in HL. by destruct (HL x Hin). }
      exists z. pose proof (firstWithKey_Some _ _ _ _ Hz) as [? ?].
      split; [done|]. apply mergeData_elem. exists k. by rewrite HL.
Qed.

Lemma firstWithKey_perm (uniqueKey k : string) (l l' : list Record) :
  keyDetermines uniqueKey l → l ≡ₚ l' →
  firstWithKey uniqueKey k l = firstWithKey uniqueKey k l'.
Proof.
  intros Hdet Hperm.
  destruct (firstWithKey uniqueKey k l) as [x|] eqn:Hx,
           (firstWithKey uniqueKey k l') as [y|] eqn:Hy; [| | |done].
  - apply firstWithKey_Some in Hx as [Hkx Hinx].
    apply firstWithKey_Some in Hy as [Hky Hiny].
    f_equal. apply Hdet; [done| by rewrite Hperm | congruence | congruence].
  - apply firstWithKey_Some in Hx as [Hkx Hinx].
    rewrite firstWithKey_None in Hy. destruct (Hy x); [by rewrite <- Hperm|done].
  - apply firstWithKey_Some in Hy as [Hky Hiny].
    rewrite firstWithKey_None in Hx. destruct (Hx y); [by rewrite Hperm|done].
Qed.

(** ** Claims about the merger *)

(** C1.  [mergeData] never yields two records with the same key; every key
    carried by a local or a remote record is carried by exactly one record
    of the result; and when the key occurs locally, the record kept is the
    local one (the first local record with that key). *)
Theorem mergeData_unique_local_wins (L R : list Record) (uniqueKey : string) :
  NoDup (getKey uniqueKey <$> mergeData L R uniqueKey)
  ∧ (∀ r k, r ∈ L ++ R → getKey uniqueKey r = Some k →
       length (withKey uniqueKey k (mergeData L R uniqueKey)) = 1)
  ∧ (∀ r k, r ∈ L → getKey uniqueKey r = Some k →
       ∃ x, firstWithKey uniqueKey k L = Some x ∧ x ∈ L
            ∧ withKey uniqueKey k (mergeData L R uniqueKey) = [x]).
Proof.
  split; [apply mergeData_NoDup_keys|]. split.
  - intros r k Hin Hk. rewrite mergeData_withKey.
    destruct (firstWithKey uniqueKey k L) as [x|] eqn:HL; [done|].
    assert (is_Some (firstWithKey uniqueKey k R)) as [z ->]; [|done].
    apply firstWithKey_is_Some. exists r. split; [|done].
    apply elem_of_app in Hin as [Hin|Hin]; [|done].
    rewrite firstWithKey_None in HL. by destruct (HL r Hin).
  - intros r k Hin Hk.
    assert (is_Some (firstWithKey uniqueKey k L)) as [x Hx]
      by (apply firstWithKey_is_Some; eauto).
    exists x. rewrite mergeData_withKey, Hx.
    apply firstWithKey_Some in Hx as [? ?]. done.
Qed.

(** The two shapes of keyless record the code comments name. *)
Lemma getKey_id_null (r : Record) :
  truthy (r !! "studentId") = false → truthy (r !! "id") = false →
  getKey "id" r = None.
Proof. unfold getKey. simpl. by intros -> ->. Qed.

Lemma getKey_studentId_null (r : Record) :
  truthy (r !! "studentId") = false → getKey "studentId" r = None.
Proof. unfold getKey. simpl. by intros ->. Qed.

(** C10.  A record whose key function evaluates to [null] is left out of
    the result of [mergeData], wherever it stood in the inputs (also when
    it is a local record). *)
Theorem mergeData_drops_keyless (L R : list Record) (uniqueKey : string)
    (r : Record) :
  getKey uniqueKey r = None → r ∉ mergeData L R uniqueKey.
Proof.
  intros Hnone Hin. pose proof (mergeData_keyed uniqueKey L R) as Hk.
  rewrite Forall_forall in Hk. destruct (Hk r Hin) as [k Hr]. congruence.
Qed.

Lemma mergeData_drops_keyless_witness :
  getKey "id" {[ "name" := JStr "Orientation" ]} = None
  ∧ ({[ "name" := JStr "Orientation" ]} : Record)
    ∉ mergeData [ {[ "name" := JStr "Orientation" ]} ] [] "id".
Proof.
  split; [reflexivity|].
  apply (mergeData_drops_keyless
           [ {[ "name" := JStr "Orientation" ]} ] [] "id"
           {[ "name" := JStr "Orientation" ]}).
  reflexivity.
Defined.

Lemma anaS1_neq_benS1 : anaS1 ≠ benS1.
Proof.
  intros H. assert (anaS1 !! "studentName" = benS1 !! "studentName") as Hn
    by by rewrite H.
  vm_compute in Hn. discriminate.
Qed.

Example mergeData_first_local_kept :
  mergeData [anaS1; benS1] [] "studentId" = [anaS1]
  ∧ mergeData [benS1; anaS1] [] "studentId" = [benS1].
Proof. split; reflexivity. Qed.

Lemma mergeData_NoDup (uniqueKey : string) (L R : list Record) :
  NoDup (mergeData L R uniqueKey).
Proof. eapply NoDup_fmap_1, mergeData_NoDup_keys. Qed.

Lemma keyDetermines_perm (uniqueKey : string) (l l' : list Record) :
  l ≡ₚ l' → keyDetermines uniqueKey l → keyDetermines uniqueKey l'.
Proof.
  intros Hp Hd x y Hx Hy. apply Hd; by rewrite Hp.
Qed.

(** C8, as stated, fails: with two different local records under one key
    the first in list order is kept, so swapping them changes the result. *)
Lemma mergeData_order_dependent :
  ¬ (∀ (uniqueKey : string) (L L' R R' : list Record),
        L ≡ₚ L' → R ≡ₚ R' →
        ∀ x, x ∈ mergeData L R uniqueKey ↔ x ∈ mergeData L' R' uniqueKey).
Proof.
  intros H.
  specialize (H "studentId" [anaS1; benS1] [benS1; anaS1] [] []
                (perm_swap _ _ _) (reflexivity _) anaS1).
  destruct mergeData_first_local_kept as [E1 E2]. rewrite E1, E2 in H.
  destruct H as [H _]. specialize (H (list_elem_of_here _ _)).
  apply list_elem_of_singleton in H. by apply anaS1_neq_benS1.
Qed.

(** C8, amended.  [mergeData] is a function of its arguments; permuting the
    local or the remote list never changes the set of keys of the result,
    and when within each list the key determines the record, it does not
    change the set of records either: the two results are permutations of
    one another. *)
Theorem mergeData_permutation (uniqueKey : string) (L L' R R' : list Record) :
  L ≡ₚ L' → R ≡ₚ R' →
  (getKey uniqueKey <$> mergeData L R uniqueKey)
    ≡ₚ (getKey uniqueKey <$> mergeData L' R' uniqueKey)
  ∧ (keyDetermines uniqueKey L → keyDetermines uniqueKey R →
     mergeData L R uniqueKey ≡ₚ mergeData L' R' uniqueKey).
Proof.
  intros HL HR. split.
  - apply NoDup_Permutation; try apply mergeData_NoDup_keys.
    intros ok. rewrite !mergeData_key_elem.
    split; intros (k & x & -> & Hin & Hk); exists k, x;
      (split; [done|]); (split; [|done]).
    + by rewrite <- HL, <- HR.
    + by rewrite HL, HR.
  - intros HdL HdR.
    apply NoDup_Permutation; try apply mergeData_NoDup.
    intros x. rewrite !mergeData_elem.
    split; intros (k & Hk & Hm); exists k; (split; [done|]).
    + by rewrite <- (firstWithKey_perm uniqueKey k L L'),
                 <- (firstWithKey_perm uniqueKey k R R').
    + by rewrite (firstWithKey_perm uniqueKey k L L'),
                 (firstWithKey_perm uniqueKey k R R').
Qed.

Lemma keyDetermines_ana_caro : keyDetermines "studentId" [anaS1; caroS2].
Proof.
  intros x y Hx Hy Heq _. set_unfold.
  destruct Hx as [-> | [-> | []]], Hy as [-> | [-> | []]]; try done;
    vm_compute in Heq; discriminate.
Qed.

Lemma keyDetermines_singleton (uniqueKey : string) (r : Record) :
  keyDetermines uniqueKey [r].
Proof.
  intros x y Hx%list_elem_of_singleton Hy%list_elem_of_singleton _ _.
  congruence.
Qed.

Lemma mergeData_permutation_witness :
  (getKey "studentId" <$> mergeData [anaS1; caroS2] [benS1] "studentId")
    ≡ₚ (getKey "studentId" <$> mergeData [caroS2; anaS1] [benS1] "studentId")
  ∧ mergeData [anaS1; caroS2] [benS1] "studentId"
      ≡ₚ mergeData [caroS2; anaS1] [benS1] "studentId".
Proof.
  destruct (mergeData_permutation "studentId"
              [anaS1; caroS2] [caroS2; anaS1] [benS1] [benS1]
              (perm_swap _ _ _) (reflexivity _)) as [Hk Hr].
  split; [exact Hk|].
  apply Hr; [apply keyDetermines_ana_caro | apply keyDetermines_singleton].
Defined.

(** ** Local persistence: reading *)

Lemma getPendingSyncQueue_run (w : World) :
  getPendingSyncQueue w
  = (Ok (cellValue (localStorage w !! pendingSyncKey)), w,
     [GetItem pendingSyncKey]).
Proof.
  unfold getPendingSyncQueue, tryCatch, bind, getItem.
  destruct (localStorage w !! pendingSyncKey) as [[| |v]|]; reflexivity.
Qed.

Ltac storage_run :=
  eexists; split;
  [ reflexivity
  | repeat (apply Forall_cons_2; [reflexivity|]); apply Forall_nil_2 ].

Lemma getFromLocalStorage_run (collection : string) (w : World) :
  ∃ tr,
    getFromLocalStorage collection w
    = (Ok (cellValue (effectiveCell collection (localStorage w))), w, tr)
    ∧ Forall (fun e => storageEffect e = true) tr.
Proof.
  unfold getFromLocalStorage, effectiveCell, legacyKey, tryCatch, bind,
    getItem.
  destruct (localStorage w !! (localStoragePrefix +:+ collection))
    as [[| |v]|]; simpl; try storage_run.
  all: destruct (String.eqb collection "attendance"); simpl.
  all: try (destruct (localStorage w !! "attendanceRecords") as [[| |?]|];
            simpl; storage_run).
  all: destruct (String.eqb collection "students"); simpl; try storage_run.
  all: destruct (localStorage w !! "barcodeStudents") as [[| |?]|]; simpl;
    storage_run.
Qed.

Lemma getFromLocalStorage_outcome (collection : string) (w : World) :
  outcome (getFromLocalStorage collection w)
  = Ok (cellValue (effectiveCell collection (localStorage w)))
  ∧ final (getFromLocalStorage collection w) = w.
Proof.
  by destruct (getFromLocalStorage_run collection w) as (tr & -> & _).
Qed.

(** C9, as stated, fails: a stored text that is valid JSON but no array is
    returned as it parses, here [null] and [5]. *)
Lemma stored_non_array_is_returned :
  outcome (getPendingSyncQueue
             (setLocalStorage {[ pendingSyncKey := Json JNull ]} blankWorld))
  = Ok JNull
  ∧ outcome (getFromLocalStorage "students"
               (setLocalStorage {[ "offline_students" := Json (JNum 5) ]}
                  blankWorld))
    = Ok (JNum 5).
Proof. split; reflexivity. Qed.

(** C9, amended.  [getPendingSyncQueue] and [getFromLocalStorage] never
    raise and leave the world as it is: they return the empty list when the
    key is absent, the text is empty or [JSON.parse] rejects it, and
    otherwise the parsed value, which is a list exactly when the stored
    text is a JSON array. *)
Theorem storage_reads_total (collection : string) (w : World) :
  outcome (getPendingSyncQueue w)
    = Ok (cellValue (localStorage w !! pendingSyncKey))
  ∧ final (getPendingSyncQueue w) = w
  ∧ outcome (getFromLocalStorage collection w)
    = Ok (cellValue (effectiveCell collection (localStorage w)))
  ∧ final (getFromLocalStorage collection w) = w
  ∧ (∀ cell, present cell = false ∨ cell = Some Garbage →
       cellValue cell = JArr [])
  ∧ (∀ v, cellValue (Some (Json v)) = v).
Proof.
  rewrite getPendingSyncQueue_run.
  destruct (getFromLocalStorage_outcome collection w) as [Ho Hf].
  repeat split; try done.
  intros [[| |v]|] [H|H]; simpl in *; congruence.
Qed.

(** ** Local persistence: the duplicate test *)

Lemma prop_not_null (item : json) (name : string) :
  item ≠ JNull → prop item name = Ok (ownProps item !! name).
Proof. destruct item; simpl; try done; intros _; by rewrite lookup_empty. Qed.

Lemma sameEntity_not_null (data : Record) (item : json) :
  item ≠ JNull → sameEntity data item = Ok (matches data item).
Proof.
  intros Hn. unfold sameEntity, matches.
  rewrite !(prop_not_null item) by done. simpl.
  destruct (truthy (data !! "id")); simpl;
    destruct (truthy (ownProps item !! "id")); simpl; try done;
    destruct (truthy (data !! "studentId")); simpl; try done;
    destruct (truthy (ownProps item !! "studentId")); simpl; try done;
    by destruct (_ && _).
Qed.

Lemma sameEntity_null (data : Record) :
  keyed data = true → sameEntity data JNull = Thrown TypeError.
Proof.
  unfold keyed, sameEntity. simpl.
  destruct (truthy (data !! "id")); simpl; [done|].
  destruct (truthy (data !! "studentId")); simpl; done.
Qed.

Lemma matches_null (data : Record) : matches data JNull = false.
Proof.
  unfold matches. simpl. rewrite !lookup_empty. simpl.
  by rewrite !andb_false_r.
Qed.

Lemma strictEq_refl (v : option json) : primitive v = true → strictEq v v = true.
Proof.
  destruct v as [[]|]; simpl; try done; intros _.
  - by destruct b.
  - apply Z.eqb_refl.
  - apply String.eqb_refl.
Qed.

(** An object that carries every key field [data] carries is matched by
    [data]. *)
Lemma matches_covering (data o : Record) :
  keyed data = true → scalarKeys data →
  (∀ k v, k ∈ keyFields → data !! k = Some v → o !! k = Some v) →
  matches data (JObj o) = true.
Proof.
  intros Hk Hs Hc. unfold matches, keyed in *. simpl.
  assert (∀ k, k ∈ keyFields → truthy (data !! k) = true →
               o !! k = data !! k) as Hsame.
  { intros k Hin Ht. destruct (data !! k) as [v|] eqn:E; [|done]. eauto. }
  assert ("id" ∈ keyFields ∧ "studentId" ∈ keyFields
          ∧ "date" ∈ keyFields ∧ "event" ∈ keyFields) as (Hi & Hsi & Hd & He)
    by (unfold keyFields; set_solver).
  destruct (truthy (data !! "id")) eqn:Tid; simpl.
  - rewrite (Hsame "id") by done. rewrite Tid. by apply strictEq_refl, Hs.
  - simpl in Hk. rewrite Hk. rewrite (Hsame "studentId") by done.
    rewrite Hk. simpl.
    destruct (truthy (data !! "date")) eqn:Td; simpl;
      [|by apply strictEq_refl, Hs].
    destruct (truthy (data !! "event")) eqn:Te; simpl;
      [|by apply strictEq_refl, Hs].
    rewrite (Hsame "date"), (Hsame "event") by done. rewrite Td, Te. simpl.
    rewrite !strictEq_refl; [done| by apply Hs ..].
Qed.

Lemma matches_sameKeyFields (r r' : Record) (item : json) :
  sameKeyFields r r' → matches r' item = matches r item.
Proof.
  intros H. unfold matches.
  rewrite <- (H "id"), <- (H "studentId"), <- (H "date"), <- (H "event");
    [done| unfold keyFields; set_solver ..].
Qed.

Lemma keyed_sameKeyFields (r r' : Record) :
  sameKeyFields r r' → keyed r' = keyed r.
Proof.
  intros H. unfold keyed.
  rewrite <- (H "id"), <- (H "studentId"); [done| unfold keyFields; set_solver ..].
Qed.

Lemma scalarKeys_sameKeyFields (r r' : Record) :
  sameKeyFields r r' → scalarKeys r → scalarKeys r'.
Proof. intros H Hs k Hk. rewrite <- (H k) by done. by apply Hs. Qed.

Lemma withProp_lookup_ne (name k : string) (v : option json) (o : Record) :
  k ≠ name → withProp name v o !! k = o !! k.
Proof.
  intros Hne. destruct v; simpl.
  - by rewrite lookup_insert_ne.
  - by rewrite lookup_delete_ne.
Qed.

Lemma keyFields_not_synced (k : string) : k ∈ keyFields → k ≠ "_synced".
Proof. unfold keyFields. set_unfold. intros [->|[->|[->|[->|[]]]]]; done. Qed.

Lemma matches_newItem (data : Record) :
  keyed data = true → scalarKeys data →
  matches data (JObj (newItem data)) = true.
Proof.
  intros Hk Hs. apply matches_covering; [done..|].
  intros k v Hin Hv. unfold newItem.
  by rewrite withProp_lookup_ne by by apply keyFields_not_synced.
Qed.

Lemma matches_mergedItem (data : Record) (item : json) :
  keyed data = true → scalarKeys data →
  matches data (JObj (mergedItem item data)) = true.
Proof.
  intros Hk Hs. apply matches_covering; [done..|].
  intros k v Hin Hv. unfold mergedItem.
  rewrite withProp_lookup_ne by by apply keyFields_not_synced.
  by apply lookup_union_Some_l.
Qed.

Lemma matches_self (data : Record) :
  keyed data = true → scalarKeys data → matches data (JObj data) = true.
Proof. intros Hk Hs. by apply matches_covering. Qed.

(** ** Local persistence: writing *)

Lemma setLocalStorage_twice (s1 s2 : gmap string text) (w : World) :
  setLocalStorage s2 (setLocalStorage s1 w) = setLocalStorage s2 w.
Proof. reflexivity. Qed.

Lemma saveToLocalStorage_run (collection : string) (data : Record)
    (operation : opKind) (w : World) :
  ∃ tr,
    saveToLocalStorage collection data operation w
    = (Ok tt,
       setLocalStorage
         (savedCells collection data operation (localStorage w)) w,
       GetItem (localStoragePrefix +:+ collection) :: tr)
    ∧ Forall (fun e => ∃ k v, e = SetItem k v ∨ e = RemoveItem k) tr
    ∧ ∃ v, SetItem (localStoragePrefix +:+ collection) v ∈ tr.
Proof.
  unfold saveToLocalStorage, savedCells, withLegacy, legacyKey.
  set (key := localStoragePrefix +:+ collection).
  unfold tryCatch at 1. unfold bind at 1. unfold getItem at 1.
  assert (∀ w0,
    (if present (localStorage w !! key)
     then tryCatch (parse (localStorage w !! key))
            (fun _ => ret (JArr []))
     else ret (JArr [])) w0
    = (Ok (cellValue (localStorage w !! key)), w0, [])) as Hparse.
  { intros w0. destruct (localStorage w !! key) as [[| |v]|]; reflexivity. }
  unfold bind at 1. rewrite Hparse.
  unfold bind at 1. unfold liftR.
  destruct (applyOperation operation data (cellValue (localStorage w !! key)))
    as [items|e]; simpl.
  - destruct (String.eqb collection "attendance"); simpl;
      [|destruct (String.eqb collection "students"); simpl];
      eexists; (split; [reflexivity|]); (split; [|eexists; apply list_elem_of_here]);
      repeat (apply Forall_cons_2;
                [first [by do 2 eexists; left | by eexists _, Empty; right]|]);
      apply Forall_nil_2.
  - eexists. split; [reflexivity|].
    split; [|eexists; apply list_elem_of_further, list_elem_of_here].
    repeat (apply Forall_cons_2;
              [first [by do 2 eexists; left | by eexists _, Empty; right]|]).
    apply Forall_nil_2.
Qed.

Lemma saveToLocalStorage_final (collection : string) (data : Record)
    (operation : opKind) (w : World) :
  outcome (saveToLocalStorage collection data operation w) = Ok tt
  ∧ final (saveToLocalStorage collection data operation w)
    = setLocalStorage (savedCells collection data operation (localStorage w)) w.
Proof.
  destruct (saveToLocalStorage_run collection data operation w)
    as (tr & -> & _). done.
Qed.

Lemma setLocalStorage_same (w : World) : setLocalStorage (localStorage w) w = w.
Proof. by destruct w. Qed.

Lemma addToPendingQueue_run (operation : Record) (w : World) :
  ∃ tr,
    addToPendingQueue operation w
    = (Ok tt, setLocalStorage (queuedCells operation w) w,
       GetItem pendingSyncKey :: tr)
    ∧ Forall (fun e => ∃ v, e = SetItem pendingSyncKey v) tr.
Proof.
  unfold addToPendingQueue, queuedCells.
  unfold tryCatch at 1. unfold bind at 1. rewrite getPendingSyncQueue_run.
  destruct (cellValue (localStorage w !! pendingSyncKey)) eqn:E; simpl;
    rewrite ?setLocalStorage_same;
    eexists; (split; [reflexivity|]);
    repeat (apply Forall_cons_2; [by eexists|]); apply Forall_nil_2.
Qed.

(** ** The [add] path of [saveToLocalStorage] *)

Lemma matching_app (data : Record) (l1 l2 : list json) :
  matching data (l1 ++ l2) = matching data l1 + matching data l2.
Proof. unfold matching. by rewrite List.filter_app, length_app. Qed.

Lemma matching_cons (data : Record) (x : json) (l : list json) :
  matching data (x :: l)
  = (if matches data x then 1 else 0) + matching data l.
Proof. unfold matching. simpl. by destruct (matches data x). Qed.

(** The scan of [some] and [findIndex]: it stops at the first match, finds
    none, or trips over a [null] item first. *)
Lemma add_scan (data : Record) (l : list json) :
  keyed data = true →
  (∃ l1 x l2, l = l1 ++ x :: l2 ∧ matching data l1 = 0
      ∧ matches data x = true
      ∧ someR (sameEntity data) l = Ok true
      ∧ findIndexR (sameEntity data) l = Ok (Some (length l1)))
  ∨ (matching data l = 0 ∧ someR (sameEntity data) l = Ok false)
  ∨ someR (sameEntity data) l = Thrown TypeError.
Proof.
  intros Hk. induction l as [|x l IH].
  { right; left. done. }
  assert (x = JNull ∨ x ≠ JNull) as [->|Hx]
    by (destruct x; first [by left | by right]).
  { right; right. simpl. by rewrite sameEntity_null. }
  simpl. rewrite sameEntity_not_null by done. simpl.
  destruct (matches data x) eqn:Hm.
  - left. exists [], x, l. done.
  - destruct IH as [(l1 & y & l2 & -> & H0 & Hy & Hs & Hf)|[[H0 Hs]|Hs]].
    + left. exists (x :: l1), y, l2. rewrite matching_cons, Hm, Hs, Hf. done.
    + right; left. by rewrite matching_cons, Hm.
    + right; right. done.
Qed.

Lemma applyOperation_add (data : Record) (items : json) :
  keyed data = true → scalarKeys data →
  match applyOperation Add data items with
  | Ok items' =>
      ∃ l l', items = JArr l ∧ items' = JArr l'
        ∧ 1 ≤ matching data l'
        ∧ (matching data l' = 1 ∨ matching data l' = matching data l)
  | Thrown _ => True
  end.
Proof.
  intros Hk Hs. unfold applyOperation.
  destruct items as [| | | |l|]; simpl; try done.
  destruct (add_scan data l Hk)
    as [(l1 & x & l2 & -> & H0 & Hx & Hsome & Hfind)|[[H0 Hsome]|Hsome]];
    rewrite Hsome; simpl; [|  |done].
  - rewrite Hfind. simpl. eexists _, _. split; [done|]. split; [done|].
    replace (length l1) with (length l1 + 0) by lia.
    rewrite alter_app_r. simpl.
    rewrite !matching_app, !matching_cons, Hx, matches_mergedItem by done.
    split; [lia | by right].
  - eexists _, _. split; [done|]. split; [done|].
    rewrite matching_app, matching_cons, matches_newItem, H0 by done.
    simpl. split; [lia | by left].
Qed.

Lemma collection_key_not_legacy (collection k : string) :
  legacyKey collection = Some k → localStoragePrefix +:+ collection ≠ k.
Proof.
  unfold legacyKey. repeat case_match; intros [= <-]; done.
Qed.

Lemma collection_key_not_pending (collection : string) :
  localStoragePrefix +:+ collection ≠ pendingSyncKey.
Proof. done. Qed.

Lemma withLegacy_lookup_key (collection : string) (items : json)
    (s : gmap string text) :
  withLegacy collection items s !! (localStoragePrefix +:+ collection)
  = s !! (localStoragePrefix +:+ collection).
Proof.
  unfold withLegacy. destruct (legacyKey collection) as [k|] eqn:E; [|done].
  rewrite lookup_insert_ne; [done|].
  intros ->. by eapply collection_key_not_legacy.
Qed.

(** After an [add] the collection cell holds a list in which the record is
    matched at least once: exactly once if the save started afresh, and
    as often as before otherwise. *)
Lemma savedCells_add (collection : string) (data : Record)
    (s : gmap string text) :
  keyed data = true → scalarKeys data →
  ∃ l', savedCells collection data Add s !! (localStoragePrefix +:+ collection)
        = Some (Json (JArr l'))
    ∧ 1 ≤ matching data l'
    ∧ (matching data l' = 1
       ∨ ∃ l, s !! (localStoragePrefix +:+ collection) = Some (Json (JArr l))
              ∧ matching data l' = matching data l).
Proof.
  intros Hk Hs. unfold savedCells.
  pose proof (applyOperation_add data
                (cellValue (s !! (localStoragePrefix +:+ collection))) Hk Hs)
    as Happ.
  destruct (applyOperation Add data _) as [items'|e].
  - destruct Happ as (l & l' & Hl & -> & Hge & Hcount).
    exists l'. rewrite withLegacy_lookup_key, lookup_insert_eq.
    split; [done|]. split; [done|].
    destruct Hcount as [H1|Hsame]; [by left|].
    destruct (s !! (localStoragePrefix +:+ collection)) as [[| |v]|] eqn:E;
      simpl in Hl; simplify_eq.
    + exfalso. cbn in Hsame. lia.
    + exfalso. cbn in Hsame. lia.
    + right. eauto.
    + exfalso. cbn in Hsame. lia.
  - exists [JObj data]. rewrite lookup_insert_eq. split; [done|].
    rewrite matching_cons, matches_self by done. simpl. split; [lia|by left].
Qed.

(** ** The write dispatcher *)

Lemma bind_run {A B : Type} (m : M A) (f : A → M B) (w w1 : World)
    (a : A) (t1 : list effect) :
  m w = (Ok a, w1, t1) →
  bind m f w = (let '(r, w2, t2) := f a w1 in (r, w2, t1 ++ t2)).
Proof. intros H. unfold bind. by rewrite H. Qed.

Lemma localWrite_run (operationType : string) (data : Record)
    (collectionName : option string) (w : World) :
  ∃ tr,
    localWrite operationType data collectionName w
    = (Ok tt,
       setLocalStorage
         (match named collectionName with
          | Some c => savedCells c data (lsOperation operationType)
                        (localStorage w)
          | None => localStorage w
          end) w,
       tr)
    ∧ Forall (fun e => ∃ k v, e = GetItem k ∨ e = SetItem k v
                               ∨ e = RemoveItem k) tr
    ∧ (∀ c, named collectionName = Some c →
         ∃ v, SetItem (localStoragePrefix +:+ c) v ∈ tr).
Proof.
  unfold localWrite. destruct (named collectionName) as [c|].
  - destruct (saveToLocalStorage_run c data (lsOperation operationType) w)
      as (tr & -> & Hall & v & Hin).
    eexists. split; [reflexivity|]. split.
    + apply Forall_cons_2; [by eexists _, Empty; left|].
      eapply Forall_impl; [exact Hall|].
      intros e (k & v' & [->| ->]); [exists k, v' | exists k, Empty]; auto.
    + intros c' [= <-]. exists v. by apply list_elem_of_further.
  - exists []. rewrite setLocalStorage_same. split; [done|].
    split; [constructor | done].
Qed.

(** The dispatcher is the local write followed by the rest of the call. *)
Lemma executeWithOfflineSupport_unfold (operationType : string)
    (firebaseOperation : World → settle * World) (data : Record)
    (collectionName : option string) (w : World) :
  executeWithOfflineSupport operationType firebaseOperation data
    collectionName w
  = (doM localWrite operationType data collectionName then
     if isOnline w && firebaseDB w then
       tryCatch
         (doM emit (Remote operationType) then
          letM promise := invoke firebaseOperation in
          letM result :=
            liftR (resultWithTimeout promise TIMEOUT_MS operationType) in
          doM (match named collectionName with
               | Some c => markAsSynced c data
               | None => ret tt
               end) then
          ret result)
         (fun _ => deferral operationType data collectionName)
     else deferral operationType data collectionName) w.
Proof.
  unfold executeWithOfflineSupport.
  unfold bind at 1. unfold gets at 1.
  destruct (localWrite_run operationType data collectionName w)
    as (tr & Hrun & _).
  unfold localWrite in Hrun.
  rewrite (bind_run _ _ _ _ _ _ Hrun).
  unfold localWrite. rewrite (bind_run _ _ _ _ _ _ Hrun).
  unfold bind at 1. unfold gets at 1. simpl.
  unfold deferral.
  match goal with
  | |- context [ (if ?b then ?m1 else ?m2) ?w1 ] =>
      destruct ((if b then m1 else m2) w1) as [[? ?] ?]
  end.
  reflexivity.
Qed.

Lemma Forall_storage_no_remote (tr : list effect) :
  Forall (fun e => storageEffect e = true) tr →
  Forall (fun e => isRemote e = false) tr.
Proof. intros H. eapply Forall_impl; [exact H|]. by intros []. Qed.

Lemma localResult_run (collectionName : option string) (w : World) :
  ∃ tr,
    localResult collectionName w
    = (Ok (Some match named collectionName with
                | Some c => cellValue (effectiveCell c (localStorage w))
                | None => JNull
                end), w, tr)
    ∧ Forall (fun e => storageEffect e = true) tr.
Proof.
  unfold localResult. destruct (named collectionName) as [c|].
  - destruct (getFromLocalStorage_run c w) as (tr & Hrun & Hst).
    rewrite (bind_run _ _ _ _ _ _ Hrun). simpl. rewrite app_nil_r. eauto.
  - exists []. split; [done | constructor].
Qed.

Lemma deferral_run (operationType : string) (data : Record)
    (collectionName : option string) (w : World) :
  let w' :=
    setLocalStorage
      (queuedCells (pendingOperation operationType data collectionName) w) w in
  ∃ tr,
    deferral operationType data collectionName w
    = (Ok (Some match named collectionName with
                | Some c => cellValue (effectiveCell c (localStorage w'))
                | None => JNull
                end), w', tr)
    ∧ Forall (fun e => storageEffect e = true) tr.
Proof.
  intros w'. unfold deferral.
  destruct (addToPendingQueue_run
              (pendingOperation operationType data collectionName) w)
    as (tr1 & Hq & Hst1).
  rewrite (bind_run _ _ _ _ _ _ Hq). fold w'.
  destruct (localResult_run collectionName w') as (tr2 & -> & Hst2).
  eexists. split; [reflexivity|].
  apply Forall_cons_2; [done|]. apply Forall_app. split; [|done].
  eapply Forall_impl; [exact Hst1|]. by intros e [v ->].
Qed.

Lemma localWrite_storage_effects (operationType : string) (data : Record)
    (collectionName : option string) (w : World) :
  Forall (fun e => storageEffect e = true)
    (effects (localWrite operationType data collectionName w)).
Proof.
  destruct (localWrite_run operationType data collectionName w)
    as (tr & -> & Hall & _). simpl.
  eapply Forall_impl; [exact Hall|]. by intros e (k & v & [->|[->| ->]]).
Qed.

(** Off line, or without the Firebase service object, the dispatcher is the
    local write followed by the deferral: the remote operation it was
    handed does not occur in what it computes. *)
Lemma executeWithOfflineSupport_deferred (operationType : string)
    (firebaseOperation : World → settle * World) (data : Record)
    (collectionName : option string) (w : World) :
  isOnline w && firebaseDB w = false →
  executeWithOfflineSupport operationType firebaseOperation data
    collectionName w
  = (doM localWrite operationType data collectionName then
     deferral operationType data collectionName) w.
Proof.
  intros H. rewrite executeWithOfflineSupport_unfold. by rewrite H.
Qed.

Lemma queuedCells_lookup_ne (operation : Record) (w : World) (k : string) :
  k ≠ pendingSyncKey → queuedCells operation w !! k = localStorage w !! k.
Proof.
  intros Hne. unfold queuedCells.
  destruct (cellValue (localStorage w !! pendingSyncKey)); try done.
  by rewrite lookup_insert_ne.
Qed.

(** The world an offline call leaves. *)
Lemma executeWithOfflineSupport_offline_final (operationType : string)
    (firebaseOperation : World → settle * World) (data : Record)
    (collectionName : option string) (w : World) :
  isOnline w = false →
  let w1 := final (localWrite operationType data collectionName w) in
  final (executeWithOfflineSupport operationType firebaseOperation data
           collectionName w)
  = setLocalStorage
      (queuedCells (pendingOperation operationType data collectionName) w1) w1.
Proof.
  intros Hoff w1.
  rewrite executeWithOfflineSupport_deferred by by rewrite Hoff.
  destruct (localWrite_run operationType data collectionName w)
    as (tr & Hrun & _).
  subst w1. rewrite (bind_run _ _ _ _ _ _ Hrun). rewrite Hrun. simpl.
  destruct (deferral_run operationType data collectionName
              (setLocalStorage
                 match named collectionName with
                 | Some c => savedCells c data (lsOperation operationType)
                               (localStorage w)
                 | None => localStorage w
                 end w)) as (tr2 & -> & _).
  reflexivity.
Qed.

(** ** The offline add path *)

Lemma matching_sameKeyFields (r r' : Record) (l : list json) :
  sameKeyFields r r' → matching r' l = matching r l.
Proof.
  intros H. induction l as [|x l IH]; [done|].
  by rewrite !matching_cons, IH, (matches_sameKeyFields r r').
Qed.

Lemma named_Some (c : string) : c ≠ "" → named (Some c) = Some c.
Proof. intros H. simpl. by apply String.eqb_neq in H as ->. Qed.

Lemma storedItems_cell (collection : string) (w : World) (l : list json) :
  localStorage w !! (localStoragePrefix +:+ collection) = Some (Json (JArr l)) →
  storedItems collection w = l.
Proof. unfold storedItems. by intros ->. Qed.

Lemma offline_add_step (operationType : string)
    (firebaseOperation : World → settle * World) (collection : string)
    (r r' : Record) (w : World) :
  lsOperation operationType = Add → collection ≠ "" → isOnline w = false →
  keyed r = true → scalarKeys r → sameKeyFields r r' →
  let w' := final (executeWithOfflineSupport operationType firebaseOperation
                     r' (Some collection) w) in
  isOnline w' = false
  ∧ ∃ l', localStorage w' !! (localStoragePrefix +:+ collection)
          = Some (Json (JArr l'))
      ∧ 1 ≤ matching r l'
      ∧ (matching r l' = 1
         ∨ matching r l' = matching r (storedItems collection w)).
Proof.
  intros Hop Hc Hoff Hk Hs Hsame w'. subst w'.
  rewrite executeWithOfflineSupport_offline_final by done.
  destruct (localWrite_run operationType r' (Some collection) w)
    as (tr & -> & _).
  rewrite named_Some, Hop by done. simpl. split; [done|].
  rewrite queuedCells_lookup_ne by apply collection_key_not_pending. simpl.
  destruct (savedCells_add collection r' (localStorage w))
    as (l' & Hcell & Hge & Hcount).
  { by rewrite (keyed_sameKeyFields r r'). }
  { by eapply scalarKeys_sameKeyFields. }
  exists l'. rewrite !(matching_sameKeyFields r r') in * by done.
  split; [done|]. split; [done|].
  destruct Hcount as [H1|(l & Hl & Heq)]; [by left|].
  right. rewrite (matching_sameKeyFields r r') in Heq by done.
  by rewrite (storedItems_cell _ _ _ Hl).
Qed.

Lemma retries_keep_single (operationType : string)
    (firebaseOperation : World → settle * World) (collection : string)
    (r : Record) (rs : list Record) :
  lsOperation operationType = Add → collection ≠ "" →
  keyed r = true → scalarKeys r → Forall (sameKeyFields r) rs →
  ∀ w l,
    isOnline w = false →
    localStorage w !! (localStoragePrefix +:+ collection)
      = Some (Json (JArr l)) →
    matching r l = 1 →
    let w' := retries operationType firebaseOperation collection rs w in
    isOnline w' = false
    ∧ ∃ l', localStorage w' !! (localStoragePrefix +:+ collection)
            = Some (Json (JArr l'))
        ∧ matching r l' = 1.
Proof.
  intros Hop Hc Hk Hs Hall.
  induction Hall as [|r' rs Hr' Hall IH]; intros w l Hoff Hcell H1; simpl.
  { eauto. }
  destruct (offline_add_step operationType firebaseOperation collection
              r r' w Hop Hc Hoff Hk Hs Hr') as (Hoff' & l' & Hcell' & Hge & Hn).
  apply (IH _ l'); [done..|].
  destruct Hn as [?|Hn]; [done|].
  by rewrite Hn, (storedItems_cell _ _ _ Hcell).
Qed.

(** C2, as stated, fails: two offline adds of records of one student that
    came with different document ids leave two stored records under the
    student's key, and the offline fetch returns both. *)
Lemma offline_add_distinct_ids_duplicate :
  getKey "studentId" docA = Some "student_S1"
  ∧ getKey "studentId" docB = Some "student_S1"
  ∧ outcome (getFromLocalStorage "students"
               (retries "addStudent" neverSettles "students" [docA; docB]
                  blankWorld))
    = Ok (JArr [JObj (newItem docA); JObj (newItem docB)])
  ∧ length (withKey "studentId" "student_S1" [newItem docA; newItem docB]) = 2
  ∧ matching {[ "studentId" := JStr "S1" ]}
      [JObj (newItem docA); JObj (newItem docB)] = 2.
Proof. repeat split; vm_compute; reflexivity. Qed.

(** C2, amended.  Take a record [r] that carries a truthy [id] or
    [studentId] and whose [id], [studentId], [date] and [event] are scalars,
    and a collection that stores at most one item matched by [r].  After
    one or more offline adds of records with those four properties equal to
    [r]'s, the collection stores exactly one item matched by [r], and an
    offline fetch returns that stored list. *)
Theorem offline_add_idempotent (operationType : string)
    (firebaseOperation : World → settle * World) (collection : string)
    (r : Record) (rs : list Record) (w : World) :
  lsOperation operationType = Add → collection ≠ "" → isOnline w = false →
  keyed r = true → scalarKeys r →
  rs ≠ [] → Forall (sameKeyFields r) rs →
  matching r (storedItems collection w) ≤ 1 →
  let w' := retries operationType firebaseOperation collection rs w in
  ∃ l, localStorage w' !! (localStoragePrefix +:+ collection)
       = Some (Json (JArr l))
    ∧ matching r l = 1
    ∧ outcome (getFromLocalStorage collection w') = Ok (JArr l).
Proof.
  intros Hop Hc Hoff Hk Hs Hne Hall Hle.
  destruct rs as [|r' rs]; [done|]. apply Forall_cons in Hall as [Hr' Hall].
  simpl.
  destruct (offline_add_step operationType firebaseOperation collection
              r r' w Hop Hc Hoff Hk Hs Hr') as (Hoff' & l' & Hcell' & Hge & Hn).
  assert (matching r l' = 1) as H1 by (destruct Hn; lia).
  destruct (retries_keep_single operationType firebaseOperation collection
              r rs Hop Hc Hk Hs Hall _ l' Hoff' Hcell' H1)
    as (_ & l & Hcell & Hl).
  exists l. split; [done|]. split; [done|].
  destruct (getFromLocalStorage_outcome collection
              (retries operationType firebaseOperation collection rs
                 (final (executeWithOfflineSupport operationType
                           firebaseOperation r' (Some collection) w))))
    as [-> _].
  unfold effectiveCell. by rewrite Hcell.
Qed.

Lemma scalarKeys_anaS1 : scalarKeys anaS1.
Proof.
  intros k Hk. unfold keyFields in Hk. set_unfold.
  destruct Hk as [->|[->|[->|[->|[]]]]]; reflexivity.
Qed.

Lemma sameKeyFields_anaS1 : Forall (sameKeyFields anaS1) [anaS1; anaS1Again].
Proof.
  repeat constructor; intros k Hk; unfold keyFields in Hk; set_unfold;
    destruct Hk as [->|[->|[->|[->|[]]]]]; reflexivity.
Qed.

Lemma offline_add_idempotent_witness :
  ∃ l,
    localStorage
      (retries "addStudent" neverSettles "students" [anaS1; anaS1Again]
         blankWorld) !! (localStoragePrefix +:+ "students")
    = Some (Json (JArr l))
    ∧ matching anaS1 l = 1
    ∧ outcome (getFromLocalStorage "students"
                 (retries "addStudent" neverSettles "students"
                    [anaS1; anaS1Again] blankWorld))
      = Ok (JArr l).
Proof.
  apply (offline_add_idempotent "addStudent" neverSettles "students"
           anaS1 [anaS1; anaS1Again] blankWorld).
  - reflexivity.
  - discriminate.
  - reflexivity.
  - reflexivity.
  - exact scalarKeys_anaS1.
  - discriminate.
  - exact sameKeyFields_anaS1.
  - vm_compute. lia.
Defined.

(** ** Claims about the dispatcher *)

Example lsOperation_verbs :
  lsOperation "addAttendanceRecord" = Add
  ∧ lsOperation "updateStudent" = Update
  ∧ lsOperation "deleteStudent" = Delete
  ∧ lsOperation "setCurrentEvent" = Add.
Proof. repeat split; reflexivity. Qed.

Lemma savedCells_lookup_pending (collection : string) (data : Record)
    (operation : opKind) (s : gmap string text) :
  savedCells collection data operation s !! pendingSyncKey
  = s !! pendingSyncKey.
Proof.
  unfold savedCells, withLegacy, legacyKey.
  destruct (applyOperation _ _ _).
  - repeat case_match; simplify_eq;
      rewrite ?lookup_insert_ne by done; done.
  - by rewrite lookup_insert_ne, lookup_delete_ne by done.
Qed.

Lemma queuedCells_lookup_pending (operation : Record) (w : World)
    (l : list json) :
  cellValue (localStorage w !! pendingSyncKey) = JArr l →
  queuedCells operation w !! pendingSyncKey
  = Some (Json (JArr (l ++ [JObj (stamped (dateNow w) (random w) (isoNow w)
                                    operation)]))).
Proof. intros H. unfold queuedCells. rewrite H. by rewrite lookup_insert_eq. Qed.

Lemma remote_attempt_first {A : Type} (e : effect) (body : M A)
    (handler : exn → M A) (w : World) :
  ∃ tail, effects (tryCatch (doM emit e then body) handler w) = e :: tail.
Proof.
  unfold tryCatch, bind, emit, effects.
  destruct (body w) as [[[a|x] w2] t2]; simpl; [by eexists|].
  destruct (handler x w2) as [[r w3] t3]. by eexists.
Qed.

(** Without a collection name the deferral touches the queue cell only. *)
Lemma deferral_no_collection (operationType : string) (data : Record)
    (collectionName : option string) (w : World) :
  named collectionName = None →
  Forall (fun e => collectionWrite e = false)
    (effects (deferral operationType data collectionName w)).
Proof.
  intros Hc. unfold deferral.
  destruct (addToPendingQueue_run
              (pendingOperation operationType data collectionName) w)
    as (tr1 & Hq & Hst1).
  rewrite (bind_run _ _ _ _ _ _ Hq).
  unfold localResult. rewrite Hc. unfold effects. simpl.
  apply Forall_cons_2; [done|]. rewrite app_nil_r.
  eapply Forall_impl; [exact Hst1|]. by intros e [v ->].
Qed.

(** A call that names no collection, while online with Firebase loaded:
    the remote attempt, then the deferral if it failed. *)
Lemma executeWithOfflineSupport_unnamed (operationType : string)
    (firebaseOperation : World → settle * World) (data : Record)
    (collectionName : option string) (w : World) :
  named collectionName = None → isOnline w && firebaseDB w = true →
  executeWithOfflineSupport operationType firebaseOperation data
    collectionName w
  = let '(s, w2) := firebaseOperation w in
    match resultWithTimeout s TIMEOUT_MS operationType with
    | Ok v => (Ok v, w2, [Remote operationType])
    | Thrown _ =>
        let '(r, w3, t3) := deferral operationType data collectionName w2 in
        (r, w3, Remote operationType :: t3)
    end.
Proof.
  intros Hc Hon. rewrite executeWithOfflineSupport_unfold.
  unfold localWrite. rewrite Hc, Hon.
  unfold tryCatch, bind, ret, emit, invoke, liftR.
  destruct (firebaseOperation w) as [s w2].
  destruct (resultWithTimeout s TIMEOUT_MS operationType) as [v|e];
    [reflexivity|].
  by destruct (deferral operationType data collectionName w2) as [[r w3] t3].
Qed.

(** C3, as stated, fails twice.  Called without a collection name (the
    default of the parameter), the dispatcher writes the record nowhere:
    here the remote call succeeds and the world is left as it was.  And
    offline over a queue cell that holds JSON other than a list (here
    [{}]), the operation is not enqueued: the cell is left as it was. *)
Lemma executeWithOfflineSupport_no_collection_no_write :
  executeWithOfflineSupport "setCurrentEvent"
    (resolvesWith (Some (JBool true))) currentEvent None onlineWorld
  = (Ok (Some (JBool true)), onlineWorld, [Remote "setCurrentEvent"])
  ∧ isOnline brokenQueueWorld = false
  ∧ localStorage
      (final (executeWithOfflineSupport "addStudent" neverSettles anaS1
                (Some "students") brokenQueueWorld)) !! pendingSyncKey
    = Some (Json (JObj ∅)).
Proof. repeat split; vm_compute; reflexivity. Qed.

(** C3, amended.  The kind of the local write is derived from the
    operation's name ([update] when it contains [update] or [Update],
    else [delete] when it contains [delete] or [Delete], else [add]); for
    each operation type the service knows this is the verb the name
    begins with.  For every call that names a collection, whatever the
    connectivity, the call starts with [saveToLocalStorage] on that
    collection with that kind: its effects open with those of the save,
    which touch only [localStorage] and set the collection's cell, and the
    remote attempt, when there is one, comes right after them.  A call
    that names no collection makes no write to any cell but the queue's,
    and its remote attempt, when there is one, comes first.  And when the
    service is offline the call is the local write followed by the
    deferral, which does not depend on the remote operation: no remote
    call is among its effects, and the stamped operation is appended to
    the stored queue whenever the queue cell reads as a list; a queue cell
    that reads as anything else is left as it is. *)
Theorem executeWithOfflineSupport_local_first (operationType : string)
    (firebaseOperation : World → settle * World) (data : Record)
    (collectionName : option string) (w : World) :
  let run := executeWithOfflineSupport operationType firebaseOperation data
               collectionName w in
  (operationType ∈ knownOperations →
   lsOperation operationType = verb operationType)
  ∧ (∀ c, named collectionName = Some c →
       let save := saveToLocalStorage c data (lsOperation operationType) w in
       (∃ rest, effects run = effects save ++ rest)
       ∧ Forall (fun e => storageEffect e = true) (effects save)
       ∧ (∃ v, SetItem (localStoragePrefix +:+ c) v ∈ effects save)
       ∧ (isOnline w && firebaseDB w = true →
          ∃ tail, effects run = effects save ++ Remote operationType :: tail))
  ∧ (named collectionName = None →
       Forall (fun e => collectionWrite e = false) (effects run)
       ∧ (isOnline w && firebaseDB w = true →
          ∃ tail, effects run = Remote operationType :: tail))
  ∧ (isOnline w = false →
     run = (doM localWrite operationType data collectionName then
            deferral operationType data collectionName) w
     ∧ Forall (fun e => isRemote e = false) (effects run)
     ∧ (∀ l, cellValue (localStorage w !! pendingSyncKey) = JArr l →
         localStorage (final run) !! pendingSyncKey
         = Some (Json (JArr
             (l ++ [JObj (stamped (dateNow w) (random w) (isoNow w)
                            (pendingOperation operationType data
                               collectionName))]))))
     ∧ ((∀ l, cellValue (localStorage w !! pendingSyncKey) ≠ JArr l) →
         localStorage (final run) !! pendingSyncKey
         = localStorage w !! pendingSyncKey)).
Proof.
  cbv zeta.
  destruct (localWrite_run operationType data collectionName w)
    as (tr & Hrun & Hall & Hset).
  pose proof (localWrite_storage_effects operationType data collectionName w)
    as Hst.
  split.
  { intros Hin. unfold knownOperations in Hin.
    repeat (apply elem_of_cons in Hin as [->|Hin]; [reflexivity|]).
    by apply elem_of_nil in Hin. }
  split; [|split].
  - intros c Hc.
    assert (localWrite operationType data collectionName
            = saveToLocalStorage c data (lsOperation operationType)) as Hlw
      by (unfold localWrite; by rewrite Hc).
    rewrite Hlw in Hrun, Hst.
    split; [|split; [done|]; split].
    + rewrite executeWithOfflineSupport_unfold, Hlw.
      rewrite (bind_run _ _ _ _ _ _ Hrun), Hrun.
      match goal with
      | |- context [ (if ?b then ?m1 else ?m2) ?w1 ] =>
          destruct ((if b then m1 else m2) w1) as [[? ?] t2]
      end.
      by exists t2.
    + rewrite Hrun. destruct (Hset c Hc) as [v Hv]. by exists v.
    + intros Hon. rewrite executeWithOfflineSupport_unfold, Hlw.
      rewrite (bind_run _ _ _ _ _ _ Hrun), Hrun, Hon.
      match goal with
      | |- context [ tryCatch (doM emit ?e then ?body) ?h ?w1 ] =>
          destruct (remote_attempt_first e body h w1) as [tail Htail];
          destruct (tryCatch (doM emit e then body) h w1) as [[? ?] t2]
      end.
      unfold effects in *. simpl in *. subst t2. by exists tail.
  - intros Hc.
    assert (localWrite operationType data collectionName = ret tt) as Hlw
      by (unfold localWrite; by rewrite Hc).
    destruct (isOnline w && firebaseDB w) eqn:Hon.
    + rewrite (executeWithOfflineSupport_unnamed _ _ _ _ _ Hc Hon).
      pose proof (deferral_no_collection operationType data collectionName
                    (firebaseOperation w).2 Hc) as Hd.
      destruct (firebaseOperation w) as [s w2]. simpl in Hd.
      destruct (resultWithTimeout s TIMEOUT_MS operationType) as [v|e].
      * split; [by repeat constructor | by eexists].
      * destruct (deferral operationType data collectionName w2)
          as [[r w3] t3].
        unfold effects in *. simpl in *.
        split; [by apply Forall_cons_2 | by eexists].
    + rewrite executeWithOfflineSupport_deferred, Hlw by done.
      pose proof (deferral_no_collection operationType data collectionName
                    w Hc) as Hd.
      unfold bind at 1. unfold ret at 1.
      destruct (deferral operationType data collectionName w)
        as [[r w3] t3].
      unfold effects in *. simpl in *. split; [done|]. done.
  - intros Hoff.
    assert (isOnline w && firebaseDB w = false) as Hdef by by rewrite Hoff.
    assert (localStorage
              (final (executeWithOfflineSupport operationType
                        firebaseOperation data collectionName w))
              !! pendingSyncKey
            = queuedCells (pendingOperation operationType data collectionName)
                (final (localWrite operationType data collectionName w))
                !! pendingSyncKey) as Hcell.
    { by rewrite executeWithOfflineSupport_offline_final by done. }
    assert (localStorage
              (final (localWrite operationType data collectionName w))
              !! pendingSyncKey
            = localStorage w !! pendingSyncKey) as Hsame.
    { rewrite Hrun. unfold final. simpl.
      destruct (named collectionName); [|done].
      apply savedCells_lookup_pending. }
    split; [|split; [|split]].
    + by rewrite executeWithOfflineSupport_deferred.
    + rewrite executeWithOfflineSupport_deferred by done.
      rewrite (bind_run _ _ _ _ _ _ Hrun).
      match goal with
      | |- context [deferral ?a ?b ?c ?w1] =>
          destruct (deferral_run a b c w1) as (tr2 & -> & Hst2)
      end.
      simpl. apply Forall_storage_no_remote, Forall_app. split; [|done].
      by rewrite Hrun in Hst.
    + intros l Hl. rewrite Hcell.
      rewrite (queuedCells_lookup_pending _ _ l) by by rewrite Hsame.
      by rewrite Hrun.
    + intros Hno. rewrite Hcell. unfold queuedCells. rewrite Hsame.
      destruct (cellValue (localStorage w !! pendingSyncKey)) eqn:E;
        try exact Hsame.
      by destruct (Hno l).
Qed.

Lemma executeWithOfflineSupport_local_first_witness :
  lsOperation "addStudent" = verb "addStudent"
  ∧ (∃ v, SetItem "offline_students" v
          ∈ effects (saveToLocalStorage "students" anaS1 Add blankWorld))
  ∧ Forall (fun e => isRemote e = false)
      (effects (executeWithOfflineSupport "addStudent" neverSettles anaS1
                  (Some "students") blankWorld))
  ∧ localStorage
      (final (executeWithOfflineSupport "addStudent" neverSettles anaS1
                (Some "students") blankWorld)) !! pendingSyncKey
    = Some (Json (JArr
        [JObj (stamped 0 "" ""
                 (pendingOperation "addStudent" anaS1 (Some "students")))])).
Proof.
  destruct (executeWithOfflineSupport_local_first "addStudent" neverSettles
              anaS1 (Some "students") blankWorld)
    as (Hverb & Hnamed & _ & Hoff).
  destruct (Hnamed "students" eq_refl) as (_ & _ & Hset & _).
  destruct (Hoff eq_refl) as (_ & Hnone & Hq & _).
  split; [apply Hverb; set_solver|]. split; [exact Hset|].
  split; [exact Hnone|]. by apply (Hq []).
Defined.

(** C4, as stated, fails: when the call names no collection a remote
    failure makes it return [null], not the contents of a collection; and
    when the queue cell holds JSON that is no list the failed operation is
    not added to it. *)
Lemma remote_failure_without_collection :
  outcome (executeWithOfflineSupport "setCurrentEvent" neverSettles
             currentEvent None onlineWorld)
  = Ok (Some JNull)
  ∧ localStorage
      (final (executeWithOfflineSupport "addStudent" neverSettles anaS1
                (Some "students")
                (setLocalStorage {[ pendingSyncKey := Json (JObj ∅) ]}
                   onlineWorld))) !! pendingSyncKey
    = Some (Json (JObj ∅)).
Proof. split; vm_compute; reflexivity. Qed.

Lemma online_failure_run (operationType : string)
    (firebaseOperation : World → settle * World) (data : Record)
    (collectionName : option string) (w w1 w2 : World) (s : settle)
    (tr : list effect) :
  isOnline w = true → firebaseDB w = true →
  localWrite operationType data collectionName w = (Ok tt, w1, tr) →
  firebaseOperation w1 = (s, w2) →
  (∀ v, s ≠ Resolved v) →
  ∃ tr',
    executeWithOfflineSupport operationType firebaseOperation data
      collectionName w
    = (Ok (Some match named collectionName with
                | Some c =>
                    cellValue
                      (effectiveCell c
                         (queuedCells
                            (pendingOperation operationType data
                               collectionName) w2))
                | None => JNull
                end),
       setLocalStorage
         (queuedCells (pendingOperation operationType data collectionName)
            w2) w2,
       tr').
Proof.
  intros Hon Hfb Hlw Hs Hfail.
  rewrite executeWithOfflineSupport_unfold.
  rewrite (bind_run _ _ _ _ _ _ Hlw). rewrite Hon, Hfb. simpl.
  destruct (deferral_run operationType data collectionName w2)
    as (tr2 & Hd & _).
  unfold tryCatch, bind at 1, emit. unfold bind at 1, invoke. rewrite Hs.
  destruct s as [v| e |]; [by destruct (Hfail v)| |];
    unfold bind, liftR; simpl; rewrite Hd; eexists; reflexivity.
Qed.

(** C4, amended.  While online with Firebase loaded, when the remote
    operation is rejected or does not settle within the deadline, the call
    still returns normally.  It leaves the world the remote operation left,
    but for the queue cell: the stamped operation is appended to the stored
    queue whenever that cell reads as a list.  The collection cell written
    before the remote attempt is not touched again, and the value returned
    is what the collection reads as when a collection was named, and [null]
    otherwise. *)
Theorem remote_failure_is_deferred (operationType : string)
    (firebaseOperation : World → settle * World) (data : Record)
    (collectionName : option string) (w : World) :
  isOnline w = true → firebaseDB w = true →
  let w1 := final (localWrite operationType data collectionName w) in
  (∀ v, (firebaseOperation w1).1 ≠ Resolved v) →
  let w2 := (firebaseOperation w1).2 in
  let op := pendingOperation operationType data collectionName in
  let w3 := setLocalStorage (queuedCells op w2) w2 in
  let run := executeWithOfflineSupport operationType firebaseOperation data
               collectionName w in
  outcome run
  = Ok (Some match named collectionName with
             | Some c => cellValue (effectiveCell c (localStorage w3))
             | None => JNull
             end)
  ∧ final run = w3
  ∧ (∀ c, named collectionName = Some c →
       localStorage w3 !! (localStoragePrefix +:+ c)
       = localStorage w2 !! (localStoragePrefix +:+ c))
  ∧ (∀ l, cellValue (localStorage w2 !! pendingSyncKey) = JArr l →
       localStorage w3 !! pendingSyncKey
       = Some (Json (JArr
           (l ++ [JObj (stamped (dateNow w2) (random w2) (isoNow w2) op)])))).
Proof.
  intros Hon Hfb. cbv zeta.
  destruct (localWrite_run operationType data collectionName w)
    as (tr & Hlw & _).
  rewrite Hlw. unfold final at 1 2 3 4 5 6. simpl.
  match goal with
  | |- context [firebaseOperation ?w0] =>
      destruct (firebaseOperation w0) as [s w2] eqn:Hs
  end.
  simpl. intros Hfail.
  destruct (online_failure_run operationType firebaseOperation data
              collectionName w _ w2 s tr Hon Hfb Hlw Hs Hfail) as (tr' & ->).
  unfold outcome, final. simpl. repeat split.
  - intros c Hc. apply queuedCells_lookup_ne, collection_key_not_pending.
  - intros l Hl. by apply queuedCells_lookup_pending.
Qed.

Lemma remote_failure_is_deferred_witness :
  outcome (executeWithOfflineSupport "addStudent" neverSettles anaS1
             (Some "students") onlineWorld)
  = Ok (Some (JArr [JObj (newItem anaS1)])).
Proof.
  destruct (remote_failure_is_deferred "addStudent" neverSettles anaS1
              (Some "students") onlineWorld eq_refl eq_refl) as (Hout & _).
  { intros v. discriminate. }
  rewrite Hout. vm_compute. reflexivity.
Defined.

(** ** The drain *)

Lemma setFirestore_same (w : World) : setFirestore (firestore w) w = w.
Proof. by destruct w. Qed.

Lemma unsynced_markSynced (operation : json) :
  unsynced (markSynced operation) = false.
Proof. unfold unsynced, markSynced. simpl. by rewrite lookup_insert_eq. Qed.

(** One attempt answers with the operation unchanged or marked, moves only
    the Firestore answers of the world, and makes no effect other than
    remote calls. *)
Lemma attempt_run (operation : json) (w : World) :
  operation ≠ JNull →
  ∃ after s f rest tr,
    attempt operation w = (Ok (after, s, f), setFirestore rest w, tr)
    ∧ (after = operation ∨ after = markSynced operation)
    ∧ Forall (fun e => isRemote e = true) tr.
Proof.
  intros Hn. unfold attempt.
  unfold bind at 1. unfold liftR. rewrite prop_not_null by done.
  assert (∃ after s f rest tr,
            ret (operation, 0, 0) w = (Ok (after, s, f), setFirestore rest w, tr)
            ∧ (after = operation ∨ after = markSynced operation)
            ∧ Forall (fun e => isRemote e = true) tr) as Hskip.
  { exists operation, 0, 0, (firestore w), [].
    rewrite setFirestore_same. repeat split; [by left | constructor]. }
  destruct (ownProps operation !! "type") as [[| | |name| |]|]; simpl;
    try (destruct Hskip as (a & s & f & rest & tr & Hr & Ha & Ht);
         exists a, s, f, rest, tr; by rewrite <- Hr).
  case_bool_decide; simpl;
    [|destruct Hskip as (a & s & f & rest & tr & Hr & Ha & Ht);
      exists a, s, f, rest, tr; by rewrite <- Hr].
  unfold bind at 1, gets at 1.
  destruct (firebaseDb w); simpl;
    [|exists operation, 0, 0, (firestore w), [];
      rewrite setFirestore_same; repeat split; [by left | constructor]].
  destruct (readsData name && dataMissing operation); simpl;
    [exists operation, 0, 0, (firestore w), [];
     rewrite setFirestore_same; repeat split; [by left | constructor]|].
  unfold bind, emit, nextAnswer, tryCatch, liftR, ret. simpl.
  destruct (firestore w) as [|[| |[]] rest]; simpl;
    do 5 eexists; (split; [try reflexivity|]);
    try (rewrite <- (setFirestore_same w) at 1; simpl; reflexivity).
  all: split; [first [by left | by right] | by repeat constructor].
Qed.

(** The loop leaves [localStorage] and the flags of the service alone,
    makes only remote calls, and turns each operation as [turned] says. *)
Lemma drainLoop_run (l : list json) :
  ∀ w, ∃ r rest tr,
    drainLoop l w = (r, setFirestore rest w, tr)
    ∧ Forall (fun e => isRemote e = true) tr
    ∧ ∀ drained s f, r = Ok (drained, s, f) → Forall2 turned l drained.
Proof.
  induction l as [|operation l IH]; intros w.
  { exists (Ok ([], 0, 0)), (firestore w), []. rewrite setFirestore_same.
    repeat split; [constructor|]. intros ??? [= <- _ _]. constructor. }
  simpl. unfold bind at 1. unfold liftR.
  assert (operation = JNull ∨ operation ≠ JNull) as [->|Hn]
    by (destruct operation; first [by left | by right]).
  { simpl. exists (Thrown TypeError), (firestore w), [].
    rewrite setFirestore_same. repeat split; [constructor | done]. }
  rewrite prop_not_null by done.
  destruct (truthy (ownProps operation !! "synced")) eqn:Hsynced.
  - unfold bind at 1. unfold ret at 1.
    destruct (IH w) as (r & rest & tr & Hrun & Htr & Hturn).
    unfold bind at 1. rewrite Hrun.
    destruct r as [[[drained s] f]|e]; simpl.
    + do 3 eexists. split; [reflexivity|]. split; [by rewrite app_nil_r|].
      intros ??? [= <- _ _]. constructor; [by left | by eapply Hturn].
    + do 3 eexists. split; [reflexivity|]. split; [done|]. done.
  - destruct (attempt_run operation w Hn)
      as (after & s1 & f1 & rest1 & tr1 & Ha & Hafter & Htr1).
    unfold bind at 1. rewrite Ha.
    destruct (IH (setFirestore rest1 w)) as (r & rest & tr & Hrun & Htr & Hturn).
    unfold bind at 1. rewrite Hrun.
    destruct r as [[[drained s] f]|e]; simpl.
    + do 3 eexists. split; [reflexivity|].
      split; [rewrite app_nil_r; by apply Forall_app|].
      intros ??? [= <- _ _]. constructor; [|by eapply Hturn].
      destruct Hafter as [->| ->]; [by left|]. right. split; [|done].
      unfold unsynced. by rewrite Hsynced.
    + do 3 eexists. split; [reflexivity|].
      split; [by apply Forall_app|]. done.
Qed.

Lemma lower_raised_flag (w : World) :
  syncInProgress w = false →
  setSyncInProgress false (setSyncInProgress true w) = w.
Proof. destruct w. simpl. by intros ->. Qed.


Lemma queueWrites_remote (tr : list effect) :
  Forall (fun e => isRemote e = true) tr → queueWrites tr = [].
Proof.
  induction 1 as [|e tr He _ IH]; [done|].
  destruct e; try done; exact IH.
Qed.

(** A drain request that finds the flag down and the service online,
    step by step. *)
Lemma syncPendingData_entered (w : World) :
  syncInProgress w = false → isOnline w = true →
  syncPendingData w
  = let w1 := setSyncInProgress true w in
    let queue := cellValue (localStorage w !! pendingSyncKey) in
    match lengthIsZero queue with
    | Thrown e => (Thrown e, w1, [GetItem pendingSyncKey])
    | Ok true => (Ok tt, w, [GetItem pendingSyncKey])
    | Ok false =>
        if negb (firebaseDB w && firebaseDb w)
        then (Ok tt, w, [GetItem pendingSyncKey])
        else
          match asArray queue with
          | Thrown e => (Thrown e, w1, [GetItem pendingSyncKey])
          | Ok l =>
              match drainLoop l w1 with
              | (Thrown e, w2, tr) =>
                  (Thrown e, w2, GetItem pendingSyncKey :: tr)
              | (Ok drained, w2, tr) =>
                  let remaining := List.filter unsynced drained.1.1 in
                  (Ok tt,
                   setSyncInProgress false
                     (setLocalStorage
                        (<[pendingSyncKey := Json (JArr remaining)]>
                           (localStorage w2)) w2),
                   GetItem pendingSyncKey
                     :: tr ++ SetItem pendingSyncKey (Json (JArr remaining))
                              :: completionEffects drained.1.2 w2)
              end
          end
    end.
Proof.
  intros Hbusy Hon. unfold syncPendingData.
  unfold bind at 1, gets at 1. rewrite Hbusy.
  unfold bind at 1, gets at 1. rewrite Hon. cbn [negb]. cbv beta iota.
  unfold bind at 1, modify at 1. cbv beta iota.
  unfold bind at 1. rewrite getPendingSyncQueue_run.
  change (localStorage (setSyncInProgress true w)) with (localStorage w).
  cbv zeta. cbv beta iota.
  unfold bind at 1, liftR at 1.
  destruct (lengthIsZero (cellValue (localStorage w !! pendingSyncKey)))
    as [[|]|e]; cbv beta iota.
  - unfold modify. by rewrite lower_raised_flag.
  - unfold bind at 1, gets at 1. cbv beta iota.
    change (firebaseDB (setSyncInProgress true w)) with (firebaseDB w).
    change (firebaseDb (setSyncInProgress true w)) with (firebaseDb w).
    destruct (firebaseDB w && firebaseDb w); cbn [negb]; cbv beta iota.
    2: { unfold modify. by rewrite lower_raised_flag. }
    unfold bind at 1, liftR at 1.
    destruct (asArray (cellValue (localStorage w !! pendingSyncKey)))
      as [l|e]; [|done].
    cbv beta iota. unfold bind at 1.
    destruct (drainLoop l (setSyncInProgress true w))
      as [[[[[drained sc] fc]|e] w2] tr]; [|done].
    unfold completionEffects.
    unfold showSyncStatus, setItem, modify, gets, emit, ret, bind. simpl.
    destruct (0 <? sc)%nat; simpl;
      destruct (showToast w2); simpl;
      destruct (updateAttendanceTable w2); simpl;
      rewrite ?app_nil_r; reflexivity.
  - done.
Qed.

Lemma syncPendingData_busy (w : World) :
  syncInProgress w = true → syncPendingData w = (Ok tt, w, []).
Proof. intros H. unfold syncPendingData, bind, gets. by rewrite H. Qed.

Lemma syncPendingData_offline (w : World) :
  syncInProgress w = false → isOnline w = false →
  syncPendingData w = (Ok tt, w, []).
Proof.
  intros Hb Ho. unfold syncPendingData, bind, gets. by rewrite Hb, Ho.
Qed.


(** A drain request either is quiet (it writes nothing to the queue cell
    and, when it returns, leaves the world as it found it) or is a pass:
    it runs the loop over the stored list with the flag raised, then
    writes the operations the loop left unsynced and lowers the flag. *)
Lemma syncPendingData_summary (w : World) :
  (∃ r w' tr,
     syncPendingData w = (r, w', tr)
     ∧ localStorage w' = localStorage w
     ∧ queueWrites tr = []
     ∧ (r = Ok tt → w' = w))
  ∨ (syncInProgress w = false ∧ isOnline w = true
     ∧ firebaseDB w && firebaseDb w = true
     ∧ ∃ l drained sc fc rest tr,
         localStorage w !! pendingSyncKey = Some (Json (JArr l))
         ∧ l ≠ []
         ∧ drainLoop l (setSyncInProgress true w)
           = (Ok (drained, sc, fc),
              setFirestore rest (setSyncInProgress true w), tr)
         ∧ Forall2 turned l drained
         ∧ Forall (fun e => isRemote e = true) tr
         ∧ syncPendingData w
           = (Ok tt,
              setSyncInProgress false
                (setLocalStorage
                   (<[pendingSyncKey :=
                        Json (JArr (List.filter unsynced drained))]>
                      (localStorage w))
                   (setFirestore rest (setSyncInProgress true w))),
              GetItem pendingSyncKey
                :: tr ++ SetItem pendingSyncKey
                           (Json (JArr (List.filter unsynced drained)))
                         :: completionEffects sc
                              (setFirestore rest (setSyncInProgress true w)))).
Proof.
  destruct (syncInProgress w) eqn:Hbusy.
  { left. rewrite syncPendingData_busy by done. by exists (Ok tt), w, []. }
  destruct (isOnline w) eqn:Hon.
  2: { left. rewrite syncPendingData_offline by done. by exists (Ok tt), w, []. }
  rewrite syncPendingData_entered by done. cbv zeta.
  destruct (lengthIsZero (cellValue (localStorage w !! pendingSyncKey)))
    as [[|]|e] eqn:Hlen.
  - left. by do 3 eexists.
  - destruct (firebaseDB w && firebaseDb w) eqn:Hfb; simpl negb; cbv iota.
    2: { left. by do 3 eexists. }
    destruct (asArray (cellValue (localStorage w !! pendingSyncKey)))
      as [l|e] eqn:Harr.
    2: { left. do 3 eexists. by repeat split. }
    destruct (drainLoop_run l (setSyncInProgress true w))
      as (r & rest & tr & Hrun & Htr & Hturn).
    rewrite Hrun.
    destruct r as [[[drained sc] fc]|e].
    2: { left. do 3 eexists. split; [reflexivity|]. simpl.
         split; [done|]. split; [|done]. by apply queueWrites_remote. }
    right. repeat split.
    exists l, drained, sc, fc, rest, tr.
    destruct (localStorage w !! pendingSyncKey) as [[| |[]]|] eqn:Hcell;
      simpl in Harr; simplify_eq.
    split; [done|]. split; [intros ->; by vm_compute in Hlen|].
    split; [done|]. split; [by eapply Hturn|]. split; [done|]. reflexivity.
  - left. do 3 eexists. by repeat split.
Qed.

Lemma pendingOps_cell (w : World) (l : list json) :
  localStorage w !! pendingSyncKey = Some (Json (JArr l)) → pendingOps w = l.
Proof. unfold pendingOps. by intros ->. Qed.

Lemma pendingOps_nonempty (w : World) :
  pendingOps w ≠ [] →
  localStorage w !! pendingSyncKey = Some (Json (JArr (pendingOps w))).
Proof.
  unfold pendingOps.
  by destruct (localStorage w !! pendingSyncKey) as [[| |[]]|].
Qed.


Lemma turned_marked (l drained : list json) :
  Forall2 turned l drained →
  Forall (fun operation => unsynced operation = true) l →
  Forall2 (fun operation after =>
             unsynced after = false ↔ after = markSynced operation)
    l drained.
Proof.
  induction 1 as [|operation after l drained Ht _ IH]; intros Hall;
    [constructor|].
  apply Forall_cons in Hall as [Hu Hall]. constructor; [|by apply IH].
  destruct Ht as [->|[_ ->]].
  - split; [congruence|]. intros E. rewrite E. apply unsynced_markSynced.
  - split; [done|]. intros _. apply unsynced_markSynced.
Qed.

(** The operations the service itself stores are unsynced: the one
    [addToPendingQueue] appends, and all those a pass writes back. *)
Lemma stamped_unsynced (now : Z) (rnd iso : string) (operation : Record) :
  unsynced (JObj (stamped now rnd iso operation)) = true.
Proof. unfold unsynced, stamped. simpl. by rewrite lookup_insert_eq. Qed.

Lemma written_back_unsynced (drained : list json) :
  Forall (fun operation => unsynced operation = true)
    (List.filter unsynced drained).
Proof.
  apply List.Forall_forall. intros x Hx. by apply List.filter_In in Hx as [_ ?].
Qed.

(** ** The drain among other tasks *)

Lemma bind_agree {A B : Type} (m1 m2 : M A) (k1 k2 : A → M B) (w : World) :
  m1 w = m2 w →
  (∀ a w1 t1, m2 w = (Ok a, w1, t1) → k1 a w1 = k2 a w1) →
  bind m1 k1 w = bind m2 k2 w.
Proof.
  intros Hm Hk. unfold bind. rewrite Hm.
  destruct (m2 w) as [[[a|e] w1] t1]; [|done].
  by rewrite (Hk a w1 t1).
Qed.

(** A step of [bind] whose first computation is the same on both sides and
    only reads. *)
Ltac agree_step :=
  apply bind_agree; [done|];
  let a := fresh "a" in let w1 := fresh "w" in let t1 := fresh "t" in
  let H := fresh "Hstep" in
  intros a w1 t1 H; unfold liftR, gets, emit in H;
  injection H as H <- _; try subst a.




Lemma attemptAmong_alone (operation : json) (w : World) :
  attemptAmong id operation w = attempt operation w.
Proof.
  unfold attemptAmong, attempt.
  assert (∀ k : M (json * nat * nat),
            (doM modify id then k) w = k w) as Hwait.
  { intros k. unfold bind, modify, id. by destruct (k w) as [[? ?] ?]. }
  agree_step. destruct a as [[| | |name| |]|]; try apply Hwait.
  case_bool_decide; [|apply Hwait].
  agree_step. destruct (negb (firebaseDb w)); [apply Hwait|].
  destruct (readsData name && dataMissing operation); [apply Hwait|].
  agree_step. apply Hwait.
Qed.

Lemma drainLoopAmong_alone (l : list json) (w : World) :
  drainLoopAmong [] l w = drainLoop l w.
Proof.
  revert w. induction l as [|operation l IH]; intros w; [done|].
  cbn [drainLoopAmong drainLoop hd tl].
  apply bind_agree; [done|]. intros synced w1 t1 _.
  apply bind_agree.
  { destruct (truthy synced); [done|]. apply attemptAmong_alone. }
  intros this w2 t2 _.
  apply bind_agree; [apply IH|]. done.
Qed.





Lemma syncPendingDataAmong_busy (tasks : list (World → World)) (w : World) :
  syncInProgress w = true → syncPendingDataAmong tasks w = (Ok tt, w, []).
Proof. intros H. unfold syncPendingDataAmong, bind, gets. by rewrite H. Qed.

Lemma syncPendingDataAmong_offline (tasks : list (World → World))
    (w : World) :
  syncInProgress w = false → isOnline w = false →
  syncPendingDataAmong tasks w = (Ok tt, w, []).
Proof.
  intros Hb Ho. unfold syncPendingDataAmong, bind, gets. by rewrite Hb, Ho.
Qed.

(** A drain request among other tasks that finds the flag down and the
    service online, step by step. *)
Lemma syncPendingDataAmong_entered (tasks : list (World → World))
    (w : World) :
  syncInProgress w = false → isOnline w = true →
  syncPendingDataAmong tasks w
  = let w1 := setSyncInProgress true w in
    let queue := cellValue (localStorage w !! pendingSyncKey) in
    match lengthIsZero queue with
    | Thrown e => (Thrown e, w1, [GetItem pendingSyncKey])
    | Ok true => (Ok tt, w, [GetItem pendingSyncKey])
    | Ok false =>
        if negb (firebaseDB w && firebaseDb w)
        then (Ok tt, w, [GetItem pendingSyncKey])
        else
          match asArray queue with
          | Thrown e => (Thrown e, w1, [GetItem pendingSyncKey])
          | Ok l =>
              match drainLoopAmong tasks l w1 with
              | (Thrown e, w2, tr) =>
                  (Thrown e, w2, GetItem pendingSyncKey :: tr)
              | (Ok drained, w2, tr) =>
                  let remaining := List.filter unsynced drained.1.1 in
                  (Ok tt,
                   setSyncInProgress false
                     (setLocalStorage
                        (<[pendingSyncKey := Json (JArr remaining)]>
                           (localStorage w2)) w2),
                   GetItem pendingSyncKey
                     :: tr ++ SetItem pendingSyncKey (Json (JArr remaining))
                              :: completionEffects drained.1.2 w2)
              end
          end
    end.
Proof.
  intros Hbusy Hon. unfold syncPendingDataAmong.
  unfold bind at 1, gets at 1. rewrite Hbusy.
  unfold bind at 1, gets at 1. rewrite Hon. cbn [negb]. cbv beta iota.
  unfold bind at 1, modify at 1. cbv beta iota.
  unfold bind at 1. rewrite getPendingSyncQueue_run.
  change (localStorage (setSyncInProgress true w)) with (localStorage w).
  cbv zeta. cbv beta iota.
  unfold bind at 1, liftR at 1.
  destruct (lengthIsZero (cellValue (localStorage w !! pendingSyncKey)))
    as [[|]|e]; cbv beta iota.
  - unfold modify. by rewrite lower_raised_flag.
  - unfold bind at 1, gets at 1. cbv beta iota.
    change (firebaseDB (setSyncInProgress true w)) with (firebaseDB w).
    change (firebaseDb (setSyncInProgress true w)) with (firebaseDb w).
    destruct (firebaseDB w && firebaseDb w); cbn [negb]; cbv beta iota.
    2: { unfold modify. by rewrite lower_raised_flag. }
    unfold bind at 1, liftR at 1.
    destruct (asArray (cellValue (localStorage w !! pendingSyncKey)))
      as [l|e]; [|done].
    cbv beta iota. unfold bind at 1.
    destruct (drainLoopAmong tasks l (setSyncInProgress true w))
      as [[[[[drained sc] fc]|e] w2] tr]; [|done].
    unfold completionEffects.
    unfold showSyncStatus, setItem, modify, gets, emit, ret, bind. simpl.
    destruct (0 <? sc)%nat; simpl;
      destruct (showToast w2); simpl;
      destruct (updateAttendanceTable w2); simpl;
      rewrite ?app_nil_r; reflexivity.
  - done.
Qed.

(** With no other task at any wait, the drain among other tasks is the
    drain run in one step. *)
Lemma syncPendingDataAmong_alone (w : World) :
  syncPendingDataAmong [] w = syncPendingData w.
Proof.
  destruct (syncInProgress w) eqn:Hbusy.
  { by rewrite syncPendingDataAmong_busy, syncPendingData_busy. }
  destruct (isOnline w) eqn:Hon.
  2: { by rewrite syncPendingDataAmong_offline, syncPendingData_offline. }
  rewrite syncPendingDataAmong_entered, syncPendingData_entered by done.
  cbv zeta.
  destruct (lengthIsZero _) as [[|]|e]; try done.
  destruct (negb _); [done|].
  destruct (asArray _) as [l|e]; [|done].
  by rewrite drainLoopAmong_alone.
Qed.






(** ** Claims about the drain *)










(** What the batch write does to an operation that another task queues
    while the pass awaits Firestore: the write stores what is left of the
    list the pass read, and the new operation is not in it. *)
Example enqueue_during_pass_is_overwritten :
  pendingOps
    (final (syncPendingDataAmong
              [fun w => final (addToPendingQueue
                                 (pendingOperation "addStudent" anaS1Again
                                    (Some "students")) w)]
              drainingWorld))
  = [queuedCaro].
Proof. vm_compute. reflexivity. Qed.

(** ** The connectivity monitor *)

Lemma remote_not_status (tr : list effect) :
  Forall (fun e => isRemote e = true) tr →
  Forall (fun e => isStatusChanged e = false) tr.
Proof. intros H. eapply Forall_impl; [exact H|]. by intros []. Qed.

Lemma completion_not_status (sc : nat) (w : World) :
  Forall (fun e => isStatusChanged e = false) (completionEffects sc w).
Proof.
  unfold completionEffects.
  destruct (0 <? sc)%nat, (showToast w), (updateAttendanceTable w);
    simpl; repeat constructor.
Qed.

(** A drain never notifies a status change. *)
Lemma syncPendingData_no_status (w : World) :
  Forall (fun e => isStatusChanged e = false) (effects (syncPendingData w)).
Proof.
  destruct (syncInProgress w) eqn:Hbusy.
  { rewrite syncPendingData_busy by done. constructor. }
  destruct (isOnline w) eqn:Hon.
  2: { rewrite syncPendingData_offline by done. constructor. }
  rewrite syncPendingData_entered by done. cbv zeta.
  destruct (lengthIsZero _) as [[|]|e]; try by repeat constructor.
  destruct (negb _); [by repeat constructor|].
  destruct (asArray _) as [l|e]; [|by repeat constructor].
  destruct (drainLoop_run l (setSyncInProgress true w))
    as (r & rest & tr & -> & Htr & _).
  destruct r as [[[drained sc] fc]|e]; unfold effects; simpl.
  - constructor; [done|]. apply Forall_app. split; [by apply remote_not_status|].
    constructor; [done|]. apply completion_not_status.
  - constructor; [done|]. by apply remote_not_status.
Qed.

Section MonitorFacts.
Variable stringIsPositive : string → bool.

Lemma syncIfPending_no_status (w : World) :
  Forall (fun e => isStatusChanged e = false)
    (effects (syncIfPending stringIsPositive w)).
Proof.
  unfold syncIfPending. unfold bind at 1. rewrite getPendingSyncQueue_run.
  unfold bind at 1, liftR at 1.
  destruct (lengthIsPositive stringIsPositive _) as [[|]|e];
    unfold effects; simpl; try by repeat constructor.
  unfold spawn, tryCatch.
  pose proof (syncPendingData_no_status w) as Hs.
  destruct (syncPendingData w) as [[[[]|e] w'] tr]; unfold effects in *;
    simpl in *; rewrite ?app_nil_r; by constructor.
Qed.

Lemma setIsOnline_same (w : World) : setIsOnline (isOnline w) w = w.
Proof. by destruct w. Qed.

Lemma onInterval_no_flip (w : World) :
  navigatorOnLine w = isOnline w →
  Forall (fun e => isStatusChanged e = false)
    (effects (onInterval stringIsPositive w)).
Proof.
  intros Hsame. unfold onInterval.
  unfold bind at 1, gets at 1. unfold bind at 1, gets at 1.
  unfold bind at 1, modify at 1. rewrite Hsame, setIsOnline_same.
  rewrite Bool.eqb_reflx. cbn [negb]. unfold bind at 1, ret at 1.
  unfold bind at 1, gets at 1. unfold bind at 1, gets at 1.
  destruct (isOnline w && negb (syncInProgress w)).
  - pose proof (syncIfPending_no_status w) as Hs.
    destruct (syncIfPending stringIsPositive w) as [[r w'] tr].
    by unfold effects in *.
  - constructor.
Qed.

Lemma checkOnlineStatus_no_flip (w : World) :
  navigatorOnLine w = isOnline w →
  effects (checkOnlineStatus w) = [].
Proof.
  intros Hsame. unfold checkOnlineStatus, bind, gets, modify, ret.
  rewrite Hsame, Bool.eqb_reflx. reflexivity.
Qed.

Lemma onVisibilityChange_no_status (hidden : bool) (w : World) :
  Forall (fun e => isStatusChanged e = false)
    (effects (onVisibilityChange stringIsPositive hidden w)).
Proof.
  unfold onVisibilityChange. unfold bind at 1, gets at 1.
  destruct (negb hidden && isOnline w).
  - pose proof (syncIfPending_no_status w) as Hs.
    destruct (syncIfPending stringIsPositive w) as [[r w'] tr].
    by unfold effects in *.
  - constructor.
Qed.

Lemma onFocus_no_status (w : World) :
  Forall (fun e => isStatusChanged e = false)
    (effects (onFocus stringIsPositive w)).
Proof.
  unfold onFocus. unfold bind at 1, gets at 1.
  destruct (isOnline w).
  - pose proof (syncIfPending_no_status w) as Hs.
    destruct (syncIfPending stringIsPositive w) as [[r w'] tr].
    by unfold effects in *.
  - constructor.
Qed.

End MonitorFacts.

(** C7, as stated, fails: the handler of the platform's [online] event
    notifies unconditionally.  Delivered to a service that is already
    online it notifies twice, once itself and once in [handleOnline]. *)
Lemma online_event_notifies_without_flip :
  reported OnlineEvent onlineWorld = Some (isOnline onlineWorld)
  ∧ effects (deliver (fun _ => false) OnlineEvent onlineWorld)
    = [StatusChanged true; StatusChanged true; Timer 2000 SyncAndReconcile].
Proof. split; reflexivity. Qed.

(** C7, amended.  The periodic poll and [checkOnlineStatus] notify only
    when [navigator.onLine] differs from the flag they hold, and the focus
    and visibility handlers never notify: delivering one of these signals
    when it reports the current state, or reports no state, produces no
    status-change notification.  The handlers of the platform's [online]
    and [offline] events notify on every delivery. *)
Theorem monitor_quiet_without_flip (stringIsPositive : string → bool)
    (s : signal) (w : World) :
  (s ≠ OnlineEvent → s ≠ OfflineEvent →
   (∀ b, reported s w = Some b → b = isOnline w) →
   Forall (fun e => isStatusChanged e = false)
     (effects (deliver stringIsPositive s w)))
  ∧ StatusChanged true ∈ effects (deliver stringIsPositive OnlineEvent w)
  ∧ StatusChanged false ∈ effects (deliver stringIsPositive OfflineEvent w).
Proof.
  split; [|split].
  - intros Hon Hoff Hrep. destruct s; simpl in *; try done.
    + apply onInterval_no_flip. by apply Hrep.
    + apply onVisibilityChange_no_status.
    + apply onFocus_no_status.
    + unfold bind. pose proof (checkOnlineStatus_no_flip w (Hrep _ eq_refl)) as He.
      destruct (checkOnlineStatus w) as [[[b|e] w'] tr];
        unfold effects in *; simpl in *; subst; constructor.
  - destruct w as [o b n ls f1 f2 toast refresh table dn iso rnd fs].
    destruct toast, refresh; cbv; apply list_elem_of_here.
  - destruct w as [o b n ls f1 f2 toast refresh table dn iso rnd fs].
    destruct toast, refresh; cbv; apply list_elem_of_here.
Qed.

Lemma monitor_quiet_without_flip_witness :
  Forall (fun e => isStatusChanged e = false)
    (effects (deliver (fun _ => false) IntervalTick onlineWorld)).
Proof.
  destruct (monitor_quiet_without_flip (fun _ => false) IntervalTick
              onlineWorld) as (Hquiet & _).
  apply Hquiet; [discriminate | discriminate |].
  intros b Hb. simpl in Hb. by injection Hb as <-.
Defined.

(** ** The model at work on small inputs *)

Example getKey_samples :
  getKey "studentId" anaS1 = Some "student_S1"
  ∧ getKey "id" docA = Some "student_S1"
  ∧ getKey "id" {[ "id" := JNum 42 ]} = Some "id_42"
  ∧ getKey "attendance" {[ "studentId" := JStr "S1"; "date" := JStr "2024-01-01" ]}
    = Some "S1_2024-01-01_undefined".
Proof. repeat split; reflexivity. Qed.

Example mergeData_sample :
  mergeData [anaS1; caroS2] [benS1; currentEvent] "studentId" = [anaS1; caroS2].
Proof. reflexivity. Qed.

Example applyOperation_update_then_delete :
  applyOperation Update anaS1Again (JArr [JObj (newItem anaS1)])
  = Ok (JArr [JObj (newItem anaS1Again)])
  ∧ applyOperation Delete anaS1 (JArr [JObj (newItem anaS1); JObj (newItem caroS2)])
    = Ok (JArr [JObj (newItem caroS2)])
  ∧ applyOperation Add anaS1 (JArr [JNull]) = Thrown TypeError.
Proof. repeat split; vm_compute; reflexivity. Qed.

Example retry_merges_into_one :
  storedItems "students"
    (retries "addStudent" neverSettles "students" [anaS1; anaS1Again]
       blankWorld)
  = [JObj (newItem anaS1Again)]
  ∧ length (pendingOps
              (retries "addStudent" neverSettles "students"
                 [anaS1; anaS1Again] blankWorld)) = 2.
Proof. split; vm_compute; reflexivity. Qed.

Example drain_sample :
  syncPendingData drainingWorld
  = (Ok tt,
     setFirestore []
       (setLocalStorage {[ pendingSyncKey := Json (JArr [queuedCaro]) ]}
          drainingWorld),
     [GetItem pendingSyncKey; Remote "addStudent"; Remote "addStudent";
      SetItem pendingSyncKey (Json (JArr [queuedCaro]))]).
Proof. vm_compute. reflexivity. Qed.

Example poll_flip_notifies :
  effects (deliver (fun _ => false) IntervalTick
             (setIsOnline false onlineWorld))
  = [StatusChanged true; StatusChanged true; Timer 2000 SyncAndReconcile;
     GetItem pendingSyncKey].
Proof. vm_compute. reflexivity. Qed.

(** * Further properties *)

(** ** The list callbacks on well-formed lists *)

Lemma someR_findIndexR {A : Type} (p : A → result bool) (l : list A) :
  someR p l = letR i := findIndexR p l in Ok (bool_decide (is_Some i)).
Proof.
  induction l as [|x l IH]; [done|]. simpl.
  destruct (p x) as [[|]|e]; simpl; [done| |done].
  rewrite IH. destruct (findIndexR p l) as [[i|]|e]; done.
Qed.

Lemma findIndexR_pure {A : Type} (p : A → result bool) (q : A → bool)
    (l : list A) :
  Forall (fun x => p x = Ok (q x)) l → findIndexR p l = Ok (firstIndex q l).
Proof.
  induction 1 as [|x l Hx _ IH]; [done|]. simpl. rewrite Hx. simpl.
  destruct (q x); [done|]. by rewrite IH.
Qed.

Lemma filterR_pure {A : Type} (p : A → result bool) (q : A → bool)
    (l : list A) :
  Forall (fun x => p x = Ok (q x)) l → filterR p l = Ok (List.filter q l).
Proof.
  induction 1 as [|x l Hx _ IH]; [done|]. simpl. rewrite Hx, IH. simpl.
  by destruct (q x).
Qed.

Lemma mapR_pure {A B : Type} (f : A → result B) (g : A → B) (l : list A) :
  Forall (fun x => f x = Ok (g x)) l → mapR f l = Ok (g <$> l).
Proof.
  induction 1 as [|x l Hx _ IH]; [done|]. simpl. by rewrite Hx, IH.
Qed.

Lemma firstIndex_Some {A : Type} (q : A → bool) (l : list A) (i : nat) :
  firstIndex q l = Some i →
  ∃ l1 x l2, l = l1 ++ x :: l2 ∧ length l1 = i ∧ q x = true
             ∧ Forall (fun y => q y = false) l1.
Proof.
  revert i. induction l as [|x l IH]; intros i; simpl; [done|].
  destruct (q x) eqn:Hq.
  - intros [= <-]. by exists [], x, l.
  - destruct (firstIndex q l) as [j|]; [|done]. simpl. intros [= <-].
    destruct (IH j eq_refl) as (l1 & y & l2 & -> & Hlen & Hy & Hall).
    exists (x :: l1), y, l2. simpl. rewrite Hlen. by repeat constructor.
Qed.

Lemma firstIndex_None {A : Type} (q : A → bool) (l : list A) :
  firstIndex q l = None ↔ Forall (fun y => q y = false) l.
Proof.
  induction l as [|x l IH]; simpl; [by split; [constructor|]|].
  destruct (q x) eqn:Hq.
  - split; [done|]. intros H. apply Forall_cons in H as [H _]. congruence.
  - destruct (firstIndex q l); simpl.
    + split; [done|]. intros H. apply Forall_cons in H as [_ H].
      by apply IH in H.
    + split; [|done]. intros _. constructor; [done|]. by apply IH.
Qed.

Lemma sameEntity_nullFree (data : Record) (l : list json) :
  nullFree l → Forall (fun x => sameEntity data x = Ok (matches data x)) l.
Proof.
  intros H. eapply Forall_impl; [exact H|]. intros x Hx.
  by apply sameEntity_not_null.
Qed.

(** ** [saveToLocalStorage] as an upsert and a delete *)

Lemma applyOperation_add_update (data : Record) (items : json) :
  applyOperation Add data items = applyOperation Update data items.
Proof.
  unfold applyOperation. destruct (asArray items) as [l|e]; simpl; [|done].
  rewrite someR_findIndexR.
  by destruct (findIndexR (sameEntity data) l) as [[i|]|e].
Qed.

Lemma applyOperation_list (operation : opKind) (data : Record)
    (items v : json) :
  applyOperation operation data items = Ok v → ∃ l, v = JArr l.
Proof.
  unfold applyOperation. destruct (asArray items) as [l|e]; simpl; [|done].
  destruct operation.
  - destruct (someR _ l) as [[|]|e]; simpl; [|intros [= <-]; eauto|done].
    destruct (findIndexR _ l) as [[i|]|e]; simpl; [| |done];
      intros [= <-]; eauto.
  - destruct (findIndexR _ l) as [[i|]|e]; simpl; [| |done];
      intros [= <-]; eauto.
  - destruct (filterR _ l) as [k|e]; simpl; [|done]. intros [= <-]. eauto.
Qed.

Lemma applyOperation_upsert (data : Record) (l : list json) :
  nullFree l →
  applyOperation Update data (JArr l)
  = Ok (JArr match firstIndex (matches data) l with
             | Some i => alter (fun item => JObj (mergedItem item data)) i l
             | None => l ++ [JObj (newItem data)]
             end).
Proof.
  intros Hn. unfold applyOperation. simpl.
  rewrite (findIndexR_pure _ (matches data)) by by apply sameEntity_nullFree.
  simpl. by destruct (firstIndex (matches data) l).
Qed.

Lemma applyOperation_delete (data : Record) (l : list json) :
  nullFree l →
  applyOperation Delete data (JArr l) = Ok (JArr (others data l)).
Proof.
  intros Hn. unfold applyOperation, others. simpl.
  rewrite (filterR_pure _ (fun x => negb (matches data x))); [done|].
  eapply Forall_impl; [exact Hn|]. intros x Hx. simpl.
  by rewrite sameEntity_not_null.
Qed.

Lemma savedCells_lookup_key (collection : string) (data : Record)
    (operation : opKind) (s : gmap string text) :
  savedCells collection data operation s !! (localStoragePrefix +:+ collection)
  = Some (Json match applyOperation operation data
                       (cellValue (s !! (localStoragePrefix +:+ collection)))
               with
               | Ok items => items
               | Thrown _ => JArr [JObj data]
               end).
Proof.
  unfold savedCells. destruct (applyOperation _ _ _).
  - by rewrite withLegacy_lookup_key, lookup_insert_eq.
  - by rewrite lookup_insert_eq.
Qed.

Lemma savedCells_lookup_other (collection : string) (data : Record)
    (operation : opKind) (s : gmap string text) (k : string) :
  k ≠ localStoragePrefix +:+ collection → legacyKey collection ≠ Some k →
  savedCells collection data operation s !! k = s !! k.
Proof.
  intros Hk Hl. unfold savedCells, withLegacy.
  destruct (applyOperation _ _ _).
  - destruct (legacyKey collection) as [k'|].
    + rewrite !lookup_insert_ne; [done| congruence | congruence].
    + by rewrite lookup_insert_ne.
  - by rewrite lookup_insert_ne, lookup_delete_ne.
Qed.

Lemma storedItems_after_save (collection : string) (data : Record)
    (operation : opKind) (w : World) (l l' : list json) :
  localStorage w !! (localStoragePrefix +:+ collection) = Some (Json (JArr l)) →
  applyOperation operation data (JArr l) = Ok (JArr l') →
  storedItems collection
    (final (saveToLocalStorage collection data operation w)) = l'.
Proof.
  intros Hcell Happ.
  destruct (saveToLocalStorage_final collection data operation w) as [_ ->].
  unfold storedItems. simpl. rewrite savedCells_lookup_key, Hcell. simpl.
  by rewrite Happ.
Qed.

Lemma saveToLocalStorage_ext (collection : string) (data : Record)
    (op1 op2 : opKind) (w : World) :
  (∀ items, applyOperation op1 data items = applyOperation op2 data items) →
  saveToLocalStorage collection data op1 w
  = saveToLocalStorage collection data op2 w.
Proof.
  intros H. unfold saveToLocalStorage, tryCatch, bind, getItem, liftR.
  destruct (localStorage w !! (localStoragePrefix +:+ collection))
    as [[| |v]|]; simpl; by rewrite ?H.
Qed.

Lemma mergedItem_spread (item : json) (data : Record) :
  mergedItem item data = data ∪ ownProps item.
Proof.
  unfold mergedItem, withProp.
  destruct (data !! "_synced") as [v|] eqn:E.
  - apply insert_id. by apply lookup_union_Some_l.
  - destruct (ownProps item !! "_synced") as [v|] eqn:E'.
    + apply insert_id. by rewrite lookup_union_r.
    + apply delete_id. by rewrite lookup_union_r.
Qed.

Lemma others_app (data : Record) (l1 l2 : list json) :
  others data (l1 ++ l2) = others data l1 ++ others data l2.
Proof. apply List.filter_app. Qed.

Lemma others_unmatched (data : Record) (l : list json) :
  Forall (fun y => matches data y = false) l → others data l = l.
Proof.
  induction 1 as [|x l Hx _ IH]; [done|]. unfold others in *. simpl.
  by rewrite Hx, IH.
Qed.

Lemma alter_middle {A : Type} (f : A → A) (l1 l2 : list A) (x : A) :
  alter f (length l1) (l1 ++ x :: l2) = l1 ++ f x :: l2.
Proof. induction l1 as [|y l1 IH]; simpl; [done|]. by f_equal. Qed.

(** X1.  [saveToLocalStorage] cannot fail and cannot leave a collection
    unreadable: whatever the stored text was (absent, empty, corrupt, JSON
    that is no list) and whatever the operation, it returns normally, the
    collection's cell then holds a list, which is what [getFromLocalStorage]
    returns, and no cell but that one and the collection's legacy cell has
    changed. *)
Theorem saveToLocalStorage_stores_a_list (collection : string)
    (data : Record) (operation : opKind) (w : World) :
  outcome (saveToLocalStorage collection data operation w) = Ok tt
  ∧ (∃ l,
       localStorage (final (saveToLocalStorage collection data operation w))
         !! (localStoragePrefix +:+ collection) = Some (Json (JArr l))
       ∧ outcome (getFromLocalStorage collection
                    (final (saveToLocalStorage collection data operation w)))
         = Ok (JArr l))
  ∧ (∀ k, k ≠ localStoragePrefix +:+ collection →
          legacyKey collection ≠ Some k →
          localStorage (final (saveToLocalStorage collection data operation w))
            !! k = localStorage w !! k).
Proof.
  destruct (saveToLocalStorage_final collection data operation w) as [Ho ->].
  split; [done|]. split.
  - assert (∃ l, savedCells collection data operation (localStorage w)
                   !! (localStoragePrefix +:+ collection)
                 = Some (Json (JArr l))) as [l Hl].
    { rewrite savedCells_lookup_key.
      destruct (applyOperation _ _ _) as [v|e] eqn:E; [|by eexists].
      apply applyOperation_list in E as [l ->]. by eexists. }
    exists l. split; [done|].
    destruct (getFromLocalStorage_outcome collection
                (setLocalStorage
                   (savedCells collection data operation (localStorage w)) w))
      as [-> _].
    unfold effectiveCell. simpl. by rewrite Hl.
  - intros k Hk Hleg. simpl. by apply savedCells_lookup_other.
Qed.

(** X2.  The operations ['add'] and ['update'] of [saveToLocalStorage] are
    one and the same upsert: on every store and for every record the two
    calls return the same, leave the same store and make the same storage
    calls. *)
Theorem saveToLocalStorage_add_is_update (collection : string)
    (data : Record) (w : World) :
  saveToLocalStorage collection data Add w
  = saveToLocalStorage collection data Update w.
Proof.
  apply saveToLocalStorage_ext. intros items.
  apply applyOperation_add_update.
Qed.

(** X3.  An upsert never touches the records of other entities.  On a
    stored list without [null] items, for a record with an identity made of
    primitive values, ['add'] or ['update'] leaves the items the record does
    not match exactly as they were and in their order, and grows the list by
    one item exactly when no stored item matched. *)
Theorem upsert_keeps_other_records (collection : string) (data : Record)
    (operation : opKind) (w : World) (l : list json) :
  operation ≠ Delete →
  localStorage w !! (localStoragePrefix +:+ collection) = Some (Json (JArr l)) →
  nullFree l → keyed data = true → scalarKeys data →
  others data
    (storedItems collection
       (final (saveToLocalStorage collection data operation w)))
  = others data l
  ∧ length (storedItems collection
              (final (saveToLocalStorage collection data operation w)))
    = length l + (if existsb (matches data) l then 0 else 1).
Proof.
  intros Hop Hcell Hn Hk Hs.
  assert (applyOperation operation data (JArr l)
          = applyOperation Update data (JArr l)) as Happ.
  { destruct operation; [apply applyOperation_add_update|done|done]. }
  rewrite applyOperation_upsert in Happ by done.
  rewrite (storedItems_after_save _ _ _ _ _ _ Hcell Happ).
  destruct (firstIndex (matches data) l) as [i|] eqn:Hi.
  - apply firstIndex_Some in Hi as (l1 & x & l2 & -> & <- & Hx & Hl1).
    rewrite alter_middle. rewrite !others_app. unfold others at 2 4. simpl.
    rewrite Hx, matches_mergedItem by done. simpl. split; [done|].
    rewrite existsb_app. simpl. rewrite Hx, orb_true_r.
    rewrite !length_app. simpl. lia.
  - apply firstIndex_None in Hi. rewrite others_app. unfold others at 2.
    simpl. rewrite matches_newItem by done. simpl. rewrite app_nil_r.
    split; [done|]. rewrite length_app. simpl.
    assert (existsb (matches data) l = false) as ->; [|done].
    clear -Hi. induction Hi as [|x l Hx _ IH]; [done|]. simpl.
    by rewrite Hx, IH.
Qed.

Lemma upsert_keeps_other_records_witness :
  others anaS1
    (storedItems "students"
       (final (saveToLocalStorage "students" anaS1 Add
                 (setLocalStorage
                    {[ "offline_students" := Json (JArr [JObj caroS2]) ]}
                    blankWorld))))
  = others anaS1 [JObj caroS2]
  ∧ length (storedItems "students"
       (final (saveToLocalStorage "students" anaS1 Add
                 (setLocalStorage
                    {[ "offline_students" := Json (JArr [JObj caroS2]) ]}
                    blankWorld))))
    = length [JObj caroS2]
      + (if existsb (matches anaS1) [JObj caroS2] then 0 else 1).
Proof.
  apply (upsert_keeps_other_records "students" anaS1 Add
           (setLocalStorage
              {[ "offline_students" := Json (JArr [JObj caroS2]) ]}
              blankWorld) [JObj caroS2]).
  - done.
  - reflexivity.
  - by repeat constructor.
  - reflexivity.
  - apply scalarKeys_anaS1.
Defined.


Lemma firstIndex_middle {A : Type} (q : A → bool) (l1 l2 : list A) (x : A) :
  Forall (fun y => q y = false) l1 → q x = true →
  firstIndex q (l1 ++ x :: l2) = Some (length l1).
Proof.
  intros H Hx. induction H as [|y l1 Hy _ IH]; simpl; [by rewrite Hx|].
  by rewrite Hy, IH.
Qed.

Lemma matches_unkeyed (data : Record) (item : json) :
  keyed data = false → matches data item = false.
Proof.
  unfold keyed, matches. intros H. apply orb_false_iff in H as [-> ->]. done.
Qed.

Lemma others_idem (data : Record) (l : list json) :
  others data (others data l) = others data l.
Proof.
  unfold others. induction l as [|x l IH]; [done|]. simpl.
  destruct (matches data x) eqn:E; simpl; [done|]. by rewrite E, IH.
Qed.

Lemma nullFree_others (data : Record) (l : list json) :
  nullFree l → nullFree (others data l).
Proof.
  unfold nullFree, others. induction 1 as [|x l Hx _ IH]; simpl; [constructor|].
  destruct (matches data x); simpl; [done|]. by constructor.
Qed.

Lemma cell_after_save (collection : string) (data : Record)
    (operation : opKind) (w : World) (l l' : list json) :
  cellValue (localStorage w !! (localStoragePrefix +:+ collection)) = JArr l →
  applyOperation operation data (JArr l) = Ok (JArr l') →
  final (saveToLocalStorage collection data operation w)
  = setLocalStorage
      (withLegacy collection (JArr l')
         (<[localStoragePrefix +:+ collection := Json (JArr l')]>
            (localStorage w))) w.
Proof.
  intros Hcell Happ.
  destruct (saveToLocalStorage_final collection data operation w) as [_ ->].
  unfold savedCells. by rewrite Hcell, Happ.
Qed.



(** X5.  ['delete'] removes exactly the stored items the record matches and
    keeps the others as they were, in their order; a record with neither
    [id] nor [studentId] therefore deletes nothing. *)
Theorem delete_removes_exactly_the_matches (collection : string)
    (data : Record) (w : World) (l : list json) :
  localStorage w !! (localStoragePrefix +:+ collection) = Some (Json (JArr l)) →
  nullFree l →
  storedItems collection (final (saveToLocalStorage collection data Delete w))
  = others data l
  ∧ (keyed data = false →
     storedItems collection
       (final (saveToLocalStorage collection data Delete w)) = l).
Proof.
  intros Hcell Hn.
  rewrite (storedItems_after_save _ _ _ _ _ _ Hcell
             (applyOperation_delete data l Hn)).
  split; [done|]. intros Hk. apply others_unmatched.
  apply Forall_forall. intros y _. by apply matches_unkeyed.
Qed.

Lemma delete_removes_exactly_the_matches_witness :
  storedItems "students"
    (final (saveToLocalStorage "students" anaS1 Delete
              (setLocalStorage
                 {[ "offline_students" :=
                      Json (JArr [JObj benS1; JObj caroS2; JObj anaS1]) ]}
                 blankWorld)))
  = others anaS1 [JObj benS1; JObj caroS2; JObj anaS1]
  ∧ (keyed anaS1 = false →
     storedItems "students"
       (final (saveToLocalStorage "students" anaS1 Delete
                 (setLocalStorage
                    {[ "offline_students" :=
                         Json (JArr [JObj benS1; JObj caroS2; JObj anaS1]) ]}
                    blankWorld)))
     = [JObj benS1; JObj caroS2; JObj anaS1]).
Proof.
  apply (delete_removes_exactly_the_matches "students" anaS1
           (setLocalStorage
              {[ "offline_students" :=
                   Json (JArr [JObj benS1; JObj caroS2; JObj anaS1]) ]}
              blankWorld)
           [JObj benS1; JObj caroS2; JObj anaS1]).
  - reflexivity.
  - by repeat constructor.
Defined.

Lemma opKind_delete_dec (operation : opKind) :
  operation = Delete ∨ operation ≠ Delete.
Proof. destruct operation; first [by left | by right]. Qed.

Lemma applyOperation_idem (operation : opKind) (data : Record)
    (l l' : list json) :
  nullFree l →
  operation = Delete ∨ (keyed data = true ∧ scalarKeys data) →
  applyOperation operation data (JArr l) = Ok (JArr l') →
  applyOperation operation data (JArr l') = Ok (JArr l').
Proof.
  intros Hn Hop Happ.
  destruct (opKind_delete_dec operation) as [->|Hne].
  - rewrite applyOperation_delete in Happ by done. injection Happ as <-.
    rewrite applyOperation_delete by by apply nullFree_others.
    by rewrite others_idem.
  - destruct Hop as [->|[Hk Hs]]; [done|].
    assert (∀ items, applyOperation operation data items
                     = applyOperation Update data items) as Hup.
    { intros items.
      destruct operation; [apply applyOperation_add_update|done|done]. }
    rewrite Hup in *. rewrite applyOperation_upsert in Happ by done.
    injection Happ as <-.
    destruct (firstIndex (matches data) l) as [i|] eqn:Hi.
    + apply firstIndex_Some in Hi as (l1 & x & l2 & -> & <- & Hx & Hl1).
      rewrite alter_middle.
      apply Forall_app in Hn as [Hn1 Hn2]. apply Forall_cons in Hn2 as [_ Hn2].
      rewrite applyOperation_upsert
        by (apply Forall_app; split; [done|by constructor]).
      rewrite firstIndex_middle by (by try apply matches_mergedItem).
      rewrite alter_middle, !mergedItem_spread. simpl.
      by rewrite (assoc (∪)), (idemp (∪)).
    + rewrite applyOperation_upsert
        by (apply Forall_app; split; [done|by repeat constructor]).
      apply firstIndex_None in Hi.
      rewrite firstIndex_middle by (by try apply matches_newItem).
      rewrite alter_middle, mergedItem_spread. simpl.
      assert (data ∪ newItem data = newItem data) as ->; [|done].
      unfold newItem, withProp. simpl.
      apply map_eq. intros k.
      destruct (decide (k = "_synced")) as [->|Hk'].
      * rewrite lookup_union, lookup_insert_eq.
        by destruct (data !! "_synced").
      * rewrite lookup_union, lookup_insert_ne by done.
        by destruct (data !! k).
Qed.

Lemma withLegacy_twice (collection : string) (v : json)
    (s : gmap string text) :
  withLegacy collection v
    (<[localStoragePrefix +:+ collection := Json v]>
       (withLegacy collection v
          (<[localStoragePrefix +:+ collection := Json v]> s)))
  = withLegacy collection v (<[localStoragePrefix +:+ collection := Json v]> s).
Proof.
  unfold withLegacy. destruct (legacyKey collection) as [k|] eqn:E.
  - pose proof (collection_key_not_legacy _ _ E) as Hne.
    apply map_eq. intros j.
    destruct (decide (j = k)) as [->|Hj]; [by rewrite !lookup_insert_eq|].
    rewrite (lookup_insert_ne _ k j) by done.
    destruct (decide (j = localStoragePrefix +:+ collection)) as [->|Hj'].
    + by rewrite lookup_insert_eq, lookup_insert_ne, lookup_insert_eq.
    + by rewrite !lookup_insert_ne.
  - by rewrite insert_insert_eq.
Qed.

(** X6.  A local write is idempotent.  On a collection that reads as a list
    without [null] items, repeating the same [saveToLocalStorage] call
    leaves exactly the world the first call left; for ['add'] and
    ['update'] this needs a record with an identity made of primitive
    values, for ['delete'] nothing. *)
Theorem saveToLocalStorage_idempotent (collection : string) (data : Record)
    (operation : opKind) (w : World) (l : list json) :
  cellValue (localStorage w !! (localStoragePrefix +:+ collection)) = JArr l →
  nullFree l →
  operation = Delete ∨ (keyed data = true ∧ scalarKeys data) →
  final (saveToLocalStorage collection data operation
           (final (saveToLocalStorage collection data operation w)))
  = final (saveToLocalStorage collection data operation w).
Proof.
  intros Hcell Hn Hop.
  destruct (applyOperation operation data (JArr l)) as [v|e] eqn:Happ.
  - destruct (applyOperation_list _ _ _ _ Happ) as [l' ->].
    rewrite (cell_after_save _ _ _ _ _ _ Hcell Happ).
    erewrite cell_after_save.
    + simpl. rewrite setLocalStorage_twice. by rewrite withLegacy_twice.
    + simpl. by rewrite withLegacy_lookup_key, lookup_insert_eq.
    + by eapply applyOperation_idem.
  - exfalso. destruct (opKind_delete_dec operation) as [->|Hne].
    + by rewrite applyOperation_delete in Happ.
    + assert (applyOperation operation data (JArr l)
              = applyOperation Update data (JArr l)) as Hup.
      { destruct operation; [apply applyOperation_add_update|done|done]. }
      by rewrite Hup, applyOperation_upsert in Happ.
Qed.

Lemma saveToLocalStorage_idempotent_witness :
  final (saveToLocalStorage "students" anaS1 Add
           (final (saveToLocalStorage "students" anaS1 Add blankWorld)))
  = final (saveToLocalStorage "students" anaS1 Add blankWorld).
Proof.
  apply (saveToLocalStorage_idempotent "students" anaS1 Add blankWorld []).
  - reflexivity.
  - constructor.
  - right. split; [reflexivity|apply scalarKeys_anaS1].
Defined.

(** X7.  Adding a record that no stored item matches and deleting it again
    restores the stored list: on a list without [null] items, for a record
    with an identity made of primitive values, ['add'] followed by
    ['delete'] of the same record leaves the items that were there. *)
Theorem add_then_delete_restores (collection : string) (data : Record)
    (w : World) (l : list json) :
  localStorage w !! (localStoragePrefix +:+ collection) = Some (Json (JArr l)) →
  nullFree l → keyed data = true → scalarKeys data →
  existsb (matches data) l = false →
  storedItems collection
    (final (saveToLocalStorage collection data Delete
              (final (saveToLocalStorage collection data Add w))))
  = l.
Proof.
  intros Hcell Hn Hk Hs Hno.
  assert (Forall (fun y => matches data y = false) l) as Hall.
  { apply Forall_forall. intros y Hy.
    destruct (matches data y) eqn:E; [|done].
    assert (existsb (matches data) l = true); [|congruence].
    apply existsb_exists. exists y. split; [|done]. by apply list_elem_of_In. }
  assert (applyOperation Add data (JArr l)
          = Ok (JArr (l ++ [JObj (newItem data)]))) as Hadd.
  { rewrite applyOperation_add_update, applyOperation_upsert by done.
    by apply firstIndex_None in Hall as ->. }
  assert (cellValue (localStorage w !! (localStoragePrefix +:+ collection))
          = JArr l) as Hcv by by rewrite Hcell.
  rewrite (cell_after_save _ _ _ _ _ _ Hcv Hadd).
  erewrite storedItems_after_save.
  - reflexivity.
  - simpl. by rewrite withLegacy_lookup_key, lookup_insert_eq.
  - rewrite applyOperation_delete
      by (apply Forall_app; split; [done|by repeat constructor]).
    rewrite others_app, others_unmatched by done. unfold others. simpl.
    by rewrite matches_newItem, app_nil_r by done.
Qed.

Lemma add_then_delete_restores_witness :
  storedItems "students"
    (final (saveToLocalStorage "students" anaS1 Delete
              (final (saveToLocalStorage "students" anaS1 Add
                        (setLocalStorage
                           {[ "offline_students" := Json (JArr [JObj caroS2]) ]}
                           blankWorld)))))
  = [JObj caroS2].
Proof.
  apply (add_then_delete_restores "students" anaS1
           (setLocalStorage
              {[ "offline_students" := Json (JArr [JObj caroS2]) ]}
              blankWorld) [JObj caroS2]).
  - reflexivity.
  - by repeat constructor.
  - reflexivity.
  - apply scalarKeys_anaS1.
  - reflexivity.
Defined.

(** ** [markAsSynced] *)

Lemma markItem_not_null (criteria : Record) (item : json) :
  item ≠ JNull →
  markItem criteria item
  = Ok (if marks criteria item then flagged item else item,
        marks criteria item).
Proof.
  intros Hx. unfold markItem, marks, flagged.
  rewrite !(prop_not_null item) by done. simpl.
  destruct (truthy (criteria !! "id")); simpl;
    destruct (truthy (ownProps item !! "id")); simpl;
    try (by destruct (strictEq _ _));
    destruct (truthy (criteria !! "studentId")); simpl; try done;
    destruct (truthy (criteria !! "date") && truthy (criteria !! "event"));
    simpl; by destruct (_ && _) || by destruct (strictEq _ _).
Qed.

Lemma markItem_result (criteria : Record) (item y : json) (b : bool) :
  markItem criteria item = Ok (y, b) →
  y = (if marks criteria item then flagged item else item)
  ∧ b = marks criteria item.
Proof.
  assert (item = JNull ∨ item ≠ JNull) as [->|Hx]
    by (destruct item; first [by left | by right]).
  - unfold markItem, marks. simpl. rewrite !lookup_empty. simpl.
    rewrite andb_false_r.
    destruct (truthy (criteria !! "id")); simpl; [done|].
    destruct (truthy (criteria !! "studentId")); simpl; [done|].
    by intros [= <- <-].
  - rewrite markItem_not_null by done. by intros [= <- <-].
Qed.

Lemma mapR_markItem (criteria : Record) (l : list json)
    (marked : list (json * bool)) :
  mapR (markItem criteria) l = Ok marked →
  fst <$> marked = markedItems criteria l
  ∧ existsb snd marked = existsb (marks criteria) l.
Proof.
  revert marked. induction l as [|x l IH]; intros marked; simpl.
  { by intros [= <-]. }
  destruct (markItem criteria x) as [[y b]|e] eqn:E; simpl; [|done].
  destruct (mapR (markItem criteria) l) as [m|e]; simpl; [|done].
  intros [= <-]. apply markItem_result in E as [-> ->].
  destruct (IH m eq_refl) as [IH1 IH2]. rewrite fmap_cons.
  cbn [existsb fst snd].
  by rewrite IH2, IH1.
Qed.

Lemma mapR_markItem_nullFree (criteria : Record) (l : list json) :
  nullFree l →
  mapR (markItem criteria) l
  = Ok ((fun item => (if marks criteria item then flagged item else item,
                      marks criteria item)) <$> l).
Proof.
  intros Hn. apply mapR_pure. eapply Forall_impl; [exact Hn|].
  intros x Hx. by apply markItem_not_null.
Qed.

Lemma markAsSynced_run (collection : string) (criteria : Record) (w : World) :
  ∃ tr,
    markAsSynced collection criteria w
    = (Ok tt,
       setLocalStorage (flaggedCells collection criteria (localStorage w)) w,
       tr)
    ∧ Forall (fun e => storageEffect e = true) tr.
Proof.
  unfold markAsSynced, flaggedCells, tryCatch, bind, getItem, parse, liftR.
  destruct (localStorage w !! (localStoragePrefix +:+ collection))
    as [[| |v]|]; simpl; rewrite ?setLocalStorage_same; try storage_run.
  destruct v as [|b|n|s|l|o]; simpl; rewrite ?setLocalStorage_same;
    try storage_run.
  destruct (mapR (markItem criteria) l) as [m|e]; simpl;
    rewrite ?setLocalStorage_same; try storage_run.
  destruct (existsb snd m); simpl; rewrite ?setLocalStorage_same; storage_run.
Qed.

Lemma flaggedCells_nullFree (collection : string) (criteria : Record)
    (s : gmap string text) (l : list json) :
  s !! (localStoragePrefix +:+ collection) = Some (Json (JArr l)) →
  nullFree l →
  flaggedCells collection criteria s
  = <[localStoragePrefix +:+ collection
        := Json (JArr (markedItems criteria l))]> s.
Proof.
  intros Hcell Hn. unfold flaggedCells. rewrite Hcell.
  destruct (mapR (markItem criteria) l) as [m|e] eqn:E.
  - destruct (mapR_markItem _ _ _ E) as [-> ->].
    destruct (existsb (marks criteria) l) eqn:Hex; [done|].
    assert (markedItems criteria l = l) as ->.
    { clear -Hex. induction l as [|x l IH]; [done|]. simpl in *.
      apply orb_false_iff in Hex as [-> Hex]. by rewrite IH. }
    by rewrite insert_id.
  - by rewrite mapR_markItem_nullFree in E.
Qed.

(** X8.  [markAsSynced] never throws and writes nothing but flags: it either
    leaves the whole world as it was, or the collection's cell held a list
    in which some item met the criteria and it rewrote that cell alone, with
    exactly the items meeting the criteria given [_synced: true].  The
    legacy copy of the collection is therefore never brought up to date. *)
Theorem markAsSynced_only_flags (collection : string) (criteria : Record)
    (w : World) :
  outcome (markAsSynced collection criteria w) = Ok tt
  ∧ (final (markAsSynced collection criteria w) = w
     ∨ ∃ l,
         localStorage w !! (localStoragePrefix +:+ collection)
         = Some (Json (JArr l))
         ∧ existsb (marks criteria) l = true
         ∧ final (markAsSynced collection criteria w)
           = setLocalStorage
               (<[localStoragePrefix +:+ collection
                    := Json (JArr (markedItems criteria l))]>
                  (localStorage w)) w).
Proof.
  destruct (markAsSynced_run collection criteria w) as (tr & -> & _).
  split; [done|]. simpl. unfold flaggedCells.
  destruct (localStorage w !! (localStoragePrefix +:+ collection))
    as [[| |v]|] eqn:Hcell; try (left; apply setLocalStorage_same).
  destruct v as [|b|n|s|l|o]; try (left; apply setLocalStorage_same).
  destruct (mapR (markItem criteria) l) as [m|e] eqn:E;
    [|left; apply setLocalStorage_same].
  destruct (mapR_markItem _ _ _ E) as [-> ->].
  destruct (existsb (marks criteria) l) eqn:Hex;
    [|left; apply setLocalStorage_same].
  right. by exists l.
Qed.

(** An object that carries every key field the criteria carry is marked. *)
Lemma marks_covering (data o : Record) :
  keyed data = true → scalarKeys data →
  (∀ k v, k ∈ keyFields → data !! k = Some v → o !! k = Some v) →
  marks data (JObj o) = true.
Proof.
  intros Hk Hs Hc. unfold marks, keyed in *. simpl.
  assert (∀ k, k ∈ keyFields → truthy (data !! k) = true →
               o !! k = data !! k) as Hsame.
  { intros k Hin Ht. destruct (data !! k) as [v|] eqn:E; [|done]. eauto. }
  assert ("id" ∈ keyFields ∧ "studentId" ∈ keyFields
          ∧ "date" ∈ keyFields ∧ "event" ∈ keyFields) as (Hi & Hsi & Hd & He)
    by (unfold keyFields; set_solver).
  destruct (truthy (data !! "id")) eqn:Tid; simpl.
  - rewrite (Hsame "id") by done. rewrite Tid. by apply strictEq_refl, Hs.
  - simpl in Hk. rewrite Hk. rewrite (Hsame "studentId") by done.
    destruct (truthy (data !! "date")) eqn:Td; simpl;
      [|by apply strictEq_refl, Hs].
    destruct (truthy (data !! "event")) eqn:Te; simpl;
      [|by apply strictEq_refl, Hs].
    rewrite (Hsame "date"), (Hsame "event") by done.
    rewrite !strictEq_refl; [done| by apply Hs ..].
Qed.

Lemma flaggedCells_lookup_ne (collection : string) (criteria : Record)
    (s : gmap string text) (k : string) :
  k ≠ localStoragePrefix +:+ collection →
  flaggedCells collection criteria s !! k = s !! k.
Proof.
  intros Hk. unfold flaggedCells.
  repeat case_match; try done. by rewrite lookup_insert_ne.
Qed.

(** ** The write dispatcher when the remote operation succeeds *)

Lemma online_success_run (operationType : string)
    (firebaseOperation : World → settle * World) (data : Record)
    (collectionName : option string) (w w1 w2 : World) (v : option json)
    (tr : list effect) :
  isOnline w = true → firebaseDB w = true →
  localWrite operationType data collectionName w = (Ok tt, w1, tr) →
  firebaseOperation w1 = (Resolved v, w2) →
  ∃ tr2,
    executeWithOfflineSupport operationType firebaseOperation data
      collectionName w
    = (Ok v,
       match named collectionName with
       | Some c => setLocalStorage (flaggedCells c data (localStorage w2)) w2
       | None => w2
       end,
       tr ++ Remote operationType :: tr2)
    ∧ Forall (fun e => storageEffect e = true) tr2.
Proof.
  intros Hon Hfb Hlw Hs.
  rewrite executeWithOfflineSupport_unfold.
  rewrite (bind_run _ _ _ _ _ _ Hlw). rewrite Hon, Hfb. simpl.
  unfold tryCatch, bind at 1, emit. unfold bind at 1, invoke. rewrite Hs.
  unfold bind at 1, liftR. simpl.
  destruct (named collectionName) as [c|].
  - destruct (markAsSynced_run c data w2) as (tr2 & Hm & Hst).
    rewrite (bind_run _ _ _ _ _ _ Hm). simpl. rewrite app_nil_r.
    by exists tr2.
  - simpl. by exists [].
Qed.

(** X9.  A write that succeeds remotely is not queued.  While online with
    Firebase loaded, when the remote operation resolves, the call returns
    the value it resolved with, makes exactly one remote attempt, leaves the
    pending queue as the remote operation left it, and changes no other cell
    after the remote operation than the named collection's. *)
Theorem remote_success_is_not_queued (operationType : string)
    (firebaseOperation : World → settle * World) (data : Record)
    (collectionName : option string) (w : World) (v : option json) :
  isOnline w = true → firebaseDB w = true →
  (firebaseOperation
     (final (localWrite operationType data collectionName w))).1
  = Resolved v →
  outcome (executeWithOfflineSupport operationType firebaseOperation data
             collectionName w) = Ok v
  ∧ length (List.filter isRemote
              (effects (executeWithOfflineSupport operationType
                          firebaseOperation data collectionName w))) = 1
  ∧ ∀ k, (∀ c, named collectionName = Some c →
               k ≠ localStoragePrefix +:+ c) →
         localStorage
           (final (executeWithOfflineSupport operationType firebaseOperation
                     data collectionName w)) !! k
         = localStorage
             (firebaseOperation
                (final (localWrite operationType data collectionName w))).2
           !! k.
Proof.
  intros Hon Hfb Hres.
  destruct (localWrite_run operationType data collectionName w)
    as (tr & Hlw & Htr & _).
  rewrite Hlw in Hres |- *. simpl in Hres |- *.
  destruct (firebaseOperation _) as [s w2] eqn:Hs. simpl in Hres. subst s.
  destruct (online_success_run _ _ _ _ _ _ _ _ _ Hon Hfb Hlw Hs)
    as (tr2 & -> & Hst).
  split; [done|]. split.
  - simpl. rewrite List.filter_app. simpl. rewrite length_app. simpl.
    assert (∀ t, Forall (fun e => storageEffect e = true) t →
                 List.filter isRemote t = []) as Hnone.
    { induction 1 as [|e t He _ IH]; [done|]. simpl. rewrite IH.
      by destruct e. }
    rewrite (Hnone tr2 Hst), (Hnone tr); [done|].
    eapply Forall_impl; [exact Htr|]. by intros e (k & x & [->|[->| ->]]).
  - intros k Hk. simpl. destruct (named collectionName) as [c|]; [|done].
    simpl. apply flaggedCells_lookup_ne. by apply Hk.
Qed.

Lemma remote_success_is_not_queued_witness :
  outcome (executeWithOfflineSupport "addStudent"
             (resolvesWith (Some (JStr "doc1"))) anaS1 (Some "students")
             onlineWorld) = Ok (Some (JStr "doc1"))
  ∧ length (List.filter isRemote
              (effects (executeWithOfflineSupport "addStudent"
                          (resolvesWith (Some (JStr "doc1"))) anaS1
                          (Some "students") onlineWorld))) = 1
  ∧ ∀ k, (∀ c, named (Some "students") = Some c →
               k ≠ localStoragePrefix +:+ c) →
         localStorage
           (final (executeWithOfflineSupport "addStudent"
                     (resolvesWith (Some (JStr "doc1"))) anaS1
                     (Some "students") onlineWorld)) !! k
         = localStorage
             (resolvesWith (Some (JStr "doc1"))
                (final (localWrite "addStudent" anaS1 (Some "students")
                          onlineWorld))).2
           !! k.
Proof.
  apply (remote_success_is_not_queued "addStudent"
           (resolvesWith (Some (JStr "doc1"))) anaS1 (Some "students")
           onlineWorld (Some (JStr "doc1"))); reflexivity.
Defined.

(** X10.  After a write that succeeded remotely the record is stored locally
    as synced.  While online with Firebase loaded, for an operation that is
    no delete on a named collection that reads as a list without [null]
    items, and a record with an identity made of primitive values: when the
    remote operation resolves without touching the stored data, the
    collection ends up holding an item that carries every field of the
    record and [_synced: true]. *)
Theorem remote_success_is_stored_synced (operationType : string)
    (firebaseOperation : World → settle * World) (data : Record)
    (collection : string) (w : World) (v : option json) (l : list json) :
  isOnline w = true → firebaseDB w = true → collection ≠ "" →
  lsOperation operationType ≠ Delete →
  cellValue (localStorage w !! (localStoragePrefix +:+ collection)) = JArr l →
  nullFree l → keyed data = true → scalarKeys data →
  (firebaseOperation
     (final (localWrite operationType data (Some collection) w))).1
  = Resolved v →
  localStorage
    (firebaseOperation
       (final (localWrite operationType data (Some collection) w))).2
  = localStorage (final (localWrite operationType data (Some collection) w)) →
  ∃ o,
    JObj o ∈ storedItems collection
               (final (executeWithOfflineSupport operationType
                         firebaseOperation data (Some collection) w))
    ∧ o !! "_synced" = Some (JBool true)
    ∧ ∀ k x, k ≠ "_synced" → data !! k = Some x → o !! k = Some x.
Proof.
  intros Hon Hfb Hc Hop Hcell Hn Hk Hs Hres Hkeep.
  destruct (localWrite_run operationType data (Some collection) w)
    as (tr & Hlw & _).
  rewrite Hlw in Hres, Hkeep. simpl in Hres, Hkeep.
  destruct (firebaseOperation _) as [s w2] eqn:Hfo. simpl in Hres, Hkeep.
  subst s.
  destruct (online_success_run _ _ _ _ _ _ _ _ _ Hon Hfb Hlw Hfo)
    as (tr2 & -> & _).
  assert (String.eqb collection "" = false) as Hf by by apply String.eqb_neq.
  simpl in *. rewrite Hf in *.
  (* the list the local write left *)
  assert (∃ l' o0,
            applyOperation (lsOperation operationType) data (JArr l)
            = Ok (JArr l')
            ∧ nullFree l' ∧ JObj o0 ∈ l'
            ∧ ∀ k x, data !! k = Some x → k ≠ "_synced" → o0 !! k = Some x)
    as (l' & o0 & Happ & Hn' & Hin & Hfields).
  { assert (applyOperation (lsOperation operationType) data (JArr l)
            = applyOperation Update data (JArr l)) as ->.
    { destruct (lsOperation operationType);
        [apply applyOperation_add_update|done|done]. }
    rewrite applyOperation_upsert by done.
    destruct (firstIndex (matches data) l) as [i|] eqn:Hi.
    - apply firstIndex_Some in Hi as (l1 & y & l2 & -> & <- & Hy & Hl1).
      rewrite alter_middle, mergedItem_spread.
      exists (l1 ++ JObj (data ∪ ownProps y) :: l2), (data ∪ ownProps y).
      split; [done|].
      apply Forall_app in Hn as [Hn1 Hn2].
      apply Forall_cons in Hn2 as [_ Hn2].
      split; [apply Forall_app; split; [done|by constructor]|].
      split; [apply list_elem_of_In, List.in_elt|].
      intros k x Hx _. by apply lookup_union_Some_l.
    - exists (l ++ [JObj (newItem data)]), (newItem data). split; [done|].
      split; [apply Forall_app; split; [done|by repeat constructor]|].
      split; [apply list_elem_of_In, List.in_or_app; right; by left|].
      intros k x Hx Hne. unfold newItem.
      by rewrite withProp_lookup_ne. }
  assert (localStorage w2 !! (localStoragePrefix +:+ collection)
          = Some (Json (JArr l'))) as Hcell2.
  { rewrite Hkeep. simpl. unfold savedCells. rewrite Hcell, Happ.
    by rewrite withLegacy_lookup_key, lookup_insert_eq. }
  exists (<["_synced" := JBool true]> o0).
  unfold storedItems. simpl.
  rewrite (flaggedCells_nullFree _ _ _ _ Hcell2 Hn'), lookup_insert_eq. simpl.
  split; [|split].
  - assert (marks data (JObj o0) = true) as Hm.
    { apply marks_covering; [done..|]. intros k x Hin' Hx.
      apply Hfields; [done|]. by apply keyFields_not_synced. }
    unfold markedItems. apply list_elem_of_fmap.
    exists (JObj o0). by rewrite Hm.
  - by rewrite lookup_insert_eq.
  - intros k x Hne Hx. rewrite lookup_insert_ne by done. by apply Hfields.
Qed.

Lemma remote_success_is_stored_synced_witness :
  ∃ o,
    JObj o ∈ storedItems "students"
               (final (executeWithOfflineSupport "addStudent"
                         (resolvesWith (Some (JStr "doc1"))) anaS1
                         (Some "students") onlineWorld))
    ∧ o !! "_synced" = Some (JBool true)
    ∧ ∀ k x, k ≠ "_synced" → anaS1 !! k = Some x → o !! k = Some x.
Proof.
  apply (remote_success_is_stored_synced "addStudent"
           (resolvesWith (Some (JStr "doc1"))) anaS1 "students" onlineWorld
           (Some (JStr "doc1")) []).
  - reflexivity.
  - reflexivity.
  - done.
  - done.
  - reflexivity.
  - constructor.
  - reflexivity.
  - apply scalarKeys_anaS1.
  - reflexivity.
  - reflexivity.
Defined.

(** ** The pending queue: counting, removing, clearing *)

Lemma getPendingSyncCount_run (w : World) :
  getPendingSyncCount w
  = (letR l := asArray (cellValue (localStorage w !! pendingSyncKey)) in
     letR pending :=
       filterR (fun op => letR s := prop op "synced" in Ok (negb (truthy s)))
         l in
     Ok (length pending),
     w, [GetItem pendingSyncKey]).
Proof.
  unfold getPendingSyncCount. unfold bind at 1.
  rewrite getPendingSyncQueue_run. unfold bind, liftR, ret.
  destruct (asArray _) as [l|e]; simpl; [|done].
  by destruct (filterR _ l) as [p|e].
Qed.

Lemma filterR_unsynced (l : list json) :
  nullFree l →
  filterR (fun op => letR s := prop op "synced" in Ok (negb (truthy s))) l
  = Ok (List.filter unsynced l).
Proof.
  intros Hn. apply filterR_pure. eapply Forall_impl; [exact Hn|].
  intros x Hx. simpl. by rewrite prop_not_null.
Qed.

Lemma filterR_prop_null (name : string) (f : option json → bool)
    (l : list json) :
  JNull ∈ l →
  filterR (fun op => letR s := prop op name in Ok (f s)) l = Thrown TypeError.
Proof.
  induction l as [|x l IH]; intros Hin; [by apply elem_of_nil in Hin|].
  apply elem_of_cons in Hin as [<-|Hin]; [done|].
  simpl. rewrite (IH Hin). by destruct x.
Qed.

Lemma getPendingSyncCount_list (w : World) (l : list json) :
  cellValue (localStorage w !! pendingSyncKey) = JArr l → nullFree l →
  getPendingSyncCount w
  = (Ok (length (List.filter unsynced l)), w, [GetItem pendingSyncKey]).
Proof.
  intros Hcell Hn. rewrite getPendingSyncCount_run, Hcell. simpl.
  by rewrite filterR_unsynced.
Qed.

Lemma addToPendingQueue_final (operation : Record) (w : World) :
  outcome (addToPendingQueue operation w) = Ok tt
  ∧ final (addToPendingQueue operation w)
    = setLocalStorage (queuedCells operation w) w.
Proof. by destruct (addToPendingQueue_run operation w) as (tr & -> & _). Qed.

(** X11.  Every enqueue raises the pending count by one.  On a queue that
    reads as a list without [null] entries, [getPendingSyncCount] returns
    the number of operations not marked synced, and after
    [addToPendingQueue] it returns one more, whatever operation was added
    and even if an equal one is queued already. *)
Theorem enqueue_raises_pending_count (operation : Record) (w : World)
    (l : list json) :
  cellValue (localStorage w !! pendingSyncKey) = JArr l → nullFree l →
  outcome (getPendingSyncCount w) = Ok (length (List.filter unsynced l))
  ∧ outcome (getPendingSyncCount (final (addToPendingQueue operation w)))
    = Ok (S (length (List.filter unsynced l))).
Proof.
  intros Hcell Hn. rewrite (getPendingSyncCount_list w l Hcell Hn).
  split; [done|].
  destruct (addToPendingQueue_final operation w) as [_ ->].
  rewrite (getPendingSyncCount_list _
             (l ++ [JObj (stamped (dateNow w) (random w) (isoNow w)
                            operation)])).
  - unfold outcome. cbn [fst]. rewrite List.filter_app, length_app.
    cbn [List.filter]. rewrite stamped_unsynced. simpl. f_equal. lia.
  - simpl. by rewrite (queuedCells_lookup_pending _ _ _ Hcell).
  - apply Forall_app. split; [done|]. by repeat constructor.
Qed.

Lemma enqueue_raises_pending_count_witness :
  outcome (getPendingSyncCount drainingWorld)
  = Ok (length (List.filter unsynced [queuedAna; queuedCaro]))
  ∧ outcome (getPendingSyncCount
               (final (addToPendingQueue
                         (pendingOperation "addStudent" anaS1
                            (Some "students")) drainingWorld)))
    = Ok (S (length (List.filter unsynced [queuedAna; queuedCaro]))).
Proof.
  apply (enqueue_raises_pending_count
           (pendingOperation "addStudent" anaS1 (Some "students"))
           drainingWorld [queuedAna; queuedCaro]).
  - reflexivity.
  - by repeat constructor.
Defined.

(** X12.  [getPendingSyncCount] is not guarded: when the queue cell holds
    JSON that is no list, or a list with a [null] entry, it throws a
    [TypeError] to its caller, where [getPendingSyncQueue],
    [addToPendingQueue] and [removeFromPendingQueue] return normally. *)
Theorem getPendingSyncCount_throws_on_bad_queue (w : World) (v : json) :
  localStorage w !! pendingSyncKey = Some (Json v) →
  (∀ l, v = JArr l → JNull ∈ l) →
  outcome (getPendingSyncCount w) = Thrown TypeError
  ∧ outcome (getPendingSyncQueue w) = Ok v
  ∧ (∀ operation, outcome (addToPendingQueue operation w) = Ok tt)
  ∧ (∀ syncId, outcome (removeFromPendingQueue syncId w) = Ok tt).
Proof.
  intros Hcell Hbad. split; [|split; [|split]].
  - rewrite getPendingSyncCount_run, Hcell. simpl.
    destruct v as [|b|n|s|l|o]; try done. simpl.
    by rewrite (filterR_prop_null "synced" (fun s => negb (truthy s)))
      by by apply Hbad.
  - by rewrite getPendingSyncQueue_run, Hcell.
  - intros operation. by destruct (addToPendingQueue_final operation w).
  - intros syncId. unfold removeFromPendingQueue, tryCatch.
    destruct (bind _ _ w) as [[[a|e] w1] t1]; [by destruct a|done].
Qed.

Lemma getPendingSyncCount_throws_on_bad_queue_witness :
  outcome (getPendingSyncCount
             (setLocalStorage {[ pendingSyncKey := Json (JArr [JNull]) ]}
                blankWorld)) = Thrown TypeError
  ∧ outcome (getPendingSyncQueue
               (setLocalStorage {[ pendingSyncKey := Json (JArr [JNull]) ]}
                  blankWorld)) = Ok (JArr [JNull])
  ∧ (∀ operation,
       outcome (addToPendingQueue operation
                  (setLocalStorage {[ pendingSyncKey := Json (JArr [JNull]) ]}
                     blankWorld)) = Ok tt)
  ∧ (∀ syncId,
       outcome (removeFromPendingQueue syncId
                  (setLocalStorage {[ pendingSyncKey := Json (JArr [JNull]) ]}
                     blankWorld)) = Ok tt).
Proof.
  apply (getPendingSyncCount_throws_on_bad_queue
           (setLocalStorage {[ pendingSyncKey := Json (JArr [JNull]) ]}
              blankWorld) (JArr [JNull])).
  - reflexivity.
  - intros l [= <-]. apply list_elem_of_here.
Defined.

Lemma removeFromPendingQueue_list (syncId : string) (w : World)
    (l : list json) :
  cellValue (localStorage w !! pendingSyncKey) = JArr l → nullFree l →
  removeFromPendingQueue syncId w
  = (Ok tt,
     setLocalStorage
       (<[pendingSyncKey :=
            Json (JArr (List.filter (fun op => negb (hasSyncId syncId op)) l))]>
          (localStorage w)) w,
     [GetItem pendingSyncKey;
      SetItem pendingSyncKey
        (Json (JArr (List.filter (fun op => negb (hasSyncId syncId op)) l)))]).
Proof.
  intros Hcell Hn. unfold removeFromPendingQueue, tryCatch.
  unfold bind at 1. rewrite getPendingSyncQueue_run, Hcell.
  unfold bind, liftR. simpl.
  rewrite (filterR_pure _ (fun op => negb (hasSyncId syncId op))); [done|].
  eapply Forall_impl; [exact Hn|]. intros x Hx. simpl.
  by rewrite prop_not_null.
Qed.

Lemma hasSyncId_stamped (w : World) (operation : Record) :
  hasSyncId (nextSyncId w)
    (JObj (stamped (dateNow w) (random w) (isoNow w) operation)) = true.
Proof.
  unfold hasSyncId, stamped, nextSyncId. simpl.
  rewrite !lookup_insert_ne by done. rewrite lookup_insert_eq. simpl.
  apply String.eqb_refl.
Qed.

Lemma filter_all {A : Type} (q : A → bool) (l : list A) :
  Forall (fun x => q x = true) l → List.filter q l = l.
Proof.
  induction 1 as [|x l Hx _ IH]; [done|]. simpl. by rewrite Hx, IH.
Qed.

(** [removeFromPendingQueue] removes by [syncId] and nothing else.  On
    a queue that reads as a list without [null] entries it stores the
    operations whose [syncId] differs from the one given, in their order,
    and leaves every other cell alone; an id that no operation carries
    leaves the queue as it reads. *)
Lemma removeFromPendingQueue_removes_by_id (syncId : string) (w : World)
    (l : list json) :
  cellValue (localStorage w !! pendingSyncKey) = JArr l → nullFree l →
  pendingOps (final (removeFromPendingQueue syncId w))
  = List.filter (fun op => negb (hasSyncId syncId op)) l
  ∧ (∀ k, k ≠ pendingSyncKey →
          localStorage (final (removeFromPendingQueue syncId w)) !! k
          = localStorage w !! k)
  ∧ (Forall (fun op => hasSyncId syncId op = false) l →
     pendingOps (final (removeFromPendingQueue syncId w)) = l).
Proof.
  intros Hcell Hn. rewrite (removeFromPendingQueue_list _ _ _ Hcell Hn).
  unfold pendingOps, final. simpl. rewrite lookup_insert_eq. simpl.
  split; [done|]. split.
  - intros k Hk. by rewrite lookup_insert_ne.
  - intros Hno. apply filter_all. eapply Forall_impl; [exact Hno|].
    by intros x ->.
Qed.

Lemma removeFromPendingQueue_removes_by_id_witness :
  pendingOps (final (removeFromPendingQueue "sync_1_a" drainingWorld))
  = List.filter (fun op => negb (hasSyncId "sync_1_a" op))
      [queuedAna; queuedCaro]
  ∧ (∀ k, k ≠ pendingSyncKey →
          localStorage (final (removeFromPendingQueue "sync_1_a"
                                 drainingWorld)) !! k
          = localStorage drainingWorld !! k)
  ∧ (Forall (fun op => hasSyncId "sync_1_a" op = false)
       [queuedAna; queuedCaro] →
     pendingOps (final (removeFromPendingQueue "sync_1_a" drainingWorld))
     = [queuedAna; queuedCaro]).
Proof.
  apply (removeFromPendingQueue_removes_by_id "sync_1_a" drainingWorld
           [queuedAna; queuedCaro]).
  - reflexivity.
  - by repeat constructor.
Defined.

(** X13.  Enqueueing an operation and removing it by the [syncId] it was
    stamped with restores the queue, provided no operation queued before
    carries that id: the stored operations are then those that were
    there. *)
Theorem enqueue_then_remove_restores (operation : Record) (w : World)
    (l : list json) :
  cellValue (localStorage w !! pendingSyncKey) = JArr l → nullFree l →
  Forall (fun op => hasSyncId (nextSyncId w) op = false) l →
  pendingOps
    (final (removeFromPendingQueue (nextSyncId w)
              (final (addToPendingQueue operation w))))
  = l.
Proof.
  intros Hcell Hn Hfresh.
  destruct (addToPendingQueue_final operation w) as [_ ->].
  rewrite (removeFromPendingQueue_list _ _
             (l ++ [JObj (stamped (dateNow w) (random w) (isoNow w)
                            operation)])).
  - unfold pendingOps, final. simpl. rewrite lookup_insert_eq. simpl.
    rewrite List.filter_app. cbn [List.filter].
    rewrite hasSyncId_stamped. simpl. rewrite app_nil_r.
    apply filter_all. eapply Forall_impl; [exact Hfresh|]. by intros x ->.
  - simpl. by rewrite (queuedCells_lookup_pending _ _ _ Hcell).
  - apply Forall_app. split; [done|]. by repeat constructor.
Qed.

Lemma enqueue_then_remove_restores_witness :
  pendingOps
    (final (removeFromPendingQueue (nextSyncId drainingWorld)
              (final (addToPendingQueue
                        (pendingOperation "addStudent" anaS1
                           (Some "students")) drainingWorld))))
  = [queuedAna; queuedCaro].
Proof.
  apply (enqueue_then_remove_restores
           (pendingOperation "addStudent" anaS1 (Some "students"))
           drainingWorld [queuedAna; queuedCaro]).
  - reflexivity.
  - by repeat constructor.
  - by repeat constructor.
Defined.

(** X14.  [clearPendingSync] empties the queue and nothing else: afterwards
    the queue reads as the empty list, the pending count is zero, every
    other cell is as before, and a drain request makes no remote call and
    writes nothing. *)
Theorem clearPendingSync_empties_the_queue (w : World) :
  outcome (clearPendingSync w) = Ok tt
  ∧ outcome (getPendingSyncQueue (final (clearPendingSync w))) = Ok (JArr [])
  ∧ outcome (getPendingSyncCount (final (clearPendingSync w))) = Ok 0
  ∧ (∀ k, k ≠ pendingSyncKey →
          localStorage (final (clearPendingSync w)) !! k
          = localStorage w !! k)
  ∧ Forall (fun e => isRemote e = false ∧ ∀ k v, e ≠ SetItem k v)
      (effects (syncPendingData (final (clearPendingSync w)))).
Proof.
  unfold clearPendingSync, removeItem, final at 1 2 3. simpl.
  split; [done|]. split; [|split; [|split]].
  - rewrite getPendingSyncQueue_run. simpl. by rewrite lookup_delete_eq.
  - rewrite (getPendingSyncCount_list _ []); [done| |constructor].
    simpl. by rewrite lookup_delete_eq.
  - intros k Hk. by rewrite lookup_delete_ne.
  - unfold final. cbn [fst snd]. set (w' := setLocalStorage _ w).
    destruct (syncInProgress w') eqn:Hbusy.
    { rewrite syncPendingData_busy by done. constructor. }
    destruct (isOnline w') eqn:Hon.
    2: { rewrite syncPendingData_offline by done. constructor. }
    rewrite syncPendingData_entered by done. cbv zeta.
    assert (cellValue (localStorage w' !! pendingSyncKey) = JArr []) as ->.
    { unfold w'. simpl. by rewrite lookup_delete_eq. }
    simpl. by repeat constructor.
Qed.

(** ** The drain as a function of Firestore's answers *)

Lemma setFirestore_twice (r1 r2 : list answer) (w : World) :
  setFirestore r2 (setFirestore r1 w) = setFirestore r2 w.
Proof. reflexivity. Qed.

Lemma attempt_attemptable (operation : json) (name : string) (w : World) :
  operation ≠ JNull → firebaseDb w = true →
  attemptable operation = Some name →
  ∃ s f,
    attempt operation w
    = (Ok (if marksSynced (hd (TimedOut false) (firestore w))
           then markSynced operation else operation, s, f),
       setFirestore (tl (firestore w)) w, [Remote name]).
Proof.
  intros Hn Hdb. unfold attemptable, attempt.
  unfold bind at 1. unfold liftR. rewrite prop_not_null by done.
  destruct (ownProps operation !! "type") as [[| | |nm| |]|]; try done.
  destruct (bool_decide (nm ∈ knownOperations)); simpl; [|done].
  destruct (readsData nm && dataMissing operation) eqn:E; simpl; [done|].
  intros [= ->]. unfold bind at 1, gets at 1. rewrite Hdb. simpl.
  rewrite ?E. unfold bind, emit, nextAnswer, tryCatch, liftR, ret. simpl.
  destruct (firestore w) as [|[| |[]] rest] eqn:Hf; simpl;
    rewrite <- ?Hf, ?setFirestore_same; by do 2 eexists.
Qed.

Lemma attempt_not_attemptable (operation : json) (w : World) :
  operation ≠ JNull → firebaseDb w = true →
  attemptable operation = None →
  attempt operation w = (Ok (operation, 0, 0), w, []).
Proof.
  intros Hn Hdb. unfold attemptable, attempt.
  unfold bind at 1. unfold liftR. rewrite prop_not_null by done.
  destruct (ownProps operation !! "type") as [[| | |nm| |]|]; try done.
  destruct (bool_decide (nm ∈ knownOperations)); simpl; [|done].
  destruct (readsData nm && dataMissing operation) eqn:E; simpl; [|done].
  intros _. unfold bind at 1, gets at 1. by rewrite Hdb.
Qed.

Lemma omap_cons_eq {A B : Type} (f : A → option B) (x : A) (l : list A) :
  omap f (x :: l)
  = match f x with Some y => y :: omap f l | None => omap f l end.
Proof. reflexivity. Qed.

Lemma drainLoop_spec (l : list json) :
  ∀ w, nullFree l → firebaseDb w = true →
  ∃ drained s f,
    drainLoop l w
    = (Ok (drained, s, f),
       setFirestore (drop (length (omap eligible l)) (firestore w)) w,
       Remote <$> omap eligible l)
    ∧ List.filter unsynced drained = remaining (firestore w) l.
Proof.
  induction l as [|operation l IH]; intros w Hn Hdb.
  { exists [], 0, 0. simpl. by rewrite drop_0, setFirestore_same. }
  apply Forall_cons in Hn as [Hx Hn].
  rewrite omap_cons_eq. cbn [drainLoop remaining].
  unfold bind at 1. unfold liftR. rewrite prop_not_null by done.
  assert (unsynced operation
          = negb (truthy (ownProps operation !! "synced"))) as Hu by done.
  assert (eligible operation
          = if unsynced operation then attemptable operation else None)
    as Hel by done.
  destruct (truthy (ownProps operation !! "synced")) eqn:Hsynced;
    cbn [negb] in Hu; rewrite Hu in Hel; rewrite Hel.
  - unfold bind at 1. unfold ret at 1.
    destruct (IH w Hn Hdb) as (drained & s & f & Hrun & Hrem).
    unfold bind at 1. rewrite Hrun. cbn [fst snd ret].
    exists (operation :: drained), s, f. rewrite app_nil_r.
    split; [done|]. cbn [List.filter]. by rewrite Hu.
  - destruct (attemptable operation) as [name|] eqn:Hatt.
    + destruct (attempt_attemptable _ _ w Hx Hdb Hatt) as (s1 & f1 & Ha).
      unfold bind at 1. rewrite Ha.
      destruct (IH (setFirestore (tl (firestore w)) w) Hn Hdb)
        as (drained & s & f & Hrun & Hrem).
      unfold bind at 1. rewrite Hrun. cbn [fst snd ret].
      rewrite setFirestore_twice, app_nil_r.
      do 3 eexists. split.
      * f_equal. f_equal. f_equal. cbn [length firestore setFirestore].
        destruct (firestore w); simpl; [by rewrite drop_nil | done].
      * cbn [List.filter]. rewrite Hrem. cbn [firestore setFirestore].
        destruct (marksSynced _).
        -- by rewrite unsynced_markSynced.
        -- by rewrite Hu.
    + unfold bind at 1.
      rewrite (attempt_not_attemptable _ w Hx Hdb Hatt).
      destruct (IH w Hn Hdb) as (drained & s & f & Hrun & Hrem).
      unfold bind at 1. rewrite Hrun. cbn [fst snd ret].
      exists (operation :: drained), s, f.
      split; [simpl; by rewrite app_nil_r|].
      cbn [List.filter]. by rewrite Hu, Hrem.
Qed.

Lemma completion_not_remote (sc : nat) (w : World) :
  List.filter isRemote (completionEffects sc w) = [].
Proof.
  unfold completionEffects.
  by destruct (0 <? sc)%nat, (showToast w), (updateAttendanceTable w).
Qed.

Lemma filter_isRemote_fmap (names : list string) :
  List.filter isRemote (Remote <$> names) = Remote <$> names.
Proof.
  induction names as [|n names IH]; [done|].
  rewrite fmap_cons. cbn [List.filter isRemote]. by rewrite IH.
Qed.

(** A pass over a stored list without [null] entries, as a whole. *)
Lemma syncPendingData_pass (w : World) (l : list json) :
  syncInProgress w = false → isOnline w = true →
  firebaseDB w && firebaseDb w = true →
  localStorage w !! pendingSyncKey = Some (Json (JArr l)) → l ≠ [] →
  nullFree l →
  outcome (syncPendingData w) = Ok tt
  ∧ pendingOps (final (syncPendingData w)) = remaining (firestore w) l
  ∧ List.filter isRemote (effects (syncPendingData w))
    = Remote <$> omap eligible l
  ∧ syncInProgress (final (syncPendingData w)) = false
  ∧ ∀ k, k ≠ pendingSyncKey →
         localStorage (final (syncPendingData w)) !! k = localStorage w !! k.
Proof.
  intros Hbusy Hon Hfb Hcell Hne Hn.
  rewrite syncPendingData_entered by done. cbv zeta. rewrite Hcell. simpl.
  rewrite bool_decide_eq_false_2 by (by destruct l).
  rewrite Hfb. simpl.
  apply andb_true_iff in Hfb as [_ Hdb].
  destruct (drainLoop_spec l (setSyncInProgress true w) Hn Hdb)
    as (drained & s & f & -> & Hrem).
  unfold outcome, final, effects, pendingOps. simpl.
  rewrite lookup_insert_eq. simpl. rewrite Hrem.
  split; [done|]. split; [done|]. split; [|split; [done|]].
  - rewrite List.filter_app. simpl. rewrite completion_not_remote, app_nil_r.
    apply filter_isRemote_fmap.
  - intros k Hk. by rewrite lookup_insert_ne.
Qed.

Lemma remaining_all_marked (answers : list answer) (l : list json) :
  Forall (fun a => marksSynced a = true) answers →
  length (omap eligible l) ≤ length answers →
  remaining answers l = List.filter stuck l.
Proof.
  revert answers. induction l as [|operation l IH]; intros answers Hall Hlen;
    [done|].
  rewrite omap_cons_eq in Hlen. cbn [remaining List.filter].
  unfold stuck at 1. unfold eligible in *.
  destruct (unsynced operation); simpl.
  - destruct (attemptable operation) as [name|]; simpl in *.
    + destruct answers as [|a answers]; simpl in *; [lia|].
      apply Forall_cons in Hall as [-> Hall]. simpl.
      apply IH; [done|lia].
    + f_equal. by apply IH.
  - by apply IH.
Qed.

Lemma remaining_none_marked (answers : list answer) (l : list json) :
  Forall (fun a => marksSynced a = false) answers →
  remaining answers l = List.filter unsynced l.
Proof.
  revert answers. induction l as [|operation l IH]; intros answers Hall;
    [done|].
  cbn [remaining List.filter]. unfold eligible.
  destruct (unsynced operation); simpl.
  - destruct (attemptable operation) as [name|]; simpl.
    + destruct answers as [|a answers]; simpl.
      * f_equal. by apply IH.
      * apply Forall_cons in Hall as [-> Hall]. simpl. f_equal. by apply IH.
    + f_equal. by apply IH.
  - by apply IH.
Qed.

Lemma remaining_stuck (answers : list answer) (l : list json) :
  List.filter stuck (remaining answers l) = List.filter stuck l.
Proof.
  revert answers. induction l as [|operation l IH]; intros answers; [done|].
  cbn [remaining List.filter].
  assert (stuck operation
          = unsynced operation
            && match attemptable operation with
               | Some _ => false
               | None => true
               end) as Hs by done.
  unfold eligible.
  destruct (unsynced operation) eqn:Hu;
    destruct (attemptable operation) as [name|] eqn:E;
    simpl in Hs; rewrite Hs; rewrite (List.filter_app stuck);
    try destruct (marksSynced _); cbn [List.filter app]; rewrite ?Hs;
    by rewrite IH.
Qed.

(** X15.  A pass is best effort and orderly.  With the flag down, online,
    Firebase loaded and a stored queue that is a non-empty list without
    [null] entries, all of whose operations the drain sends to Firestore
    itself, a drain request returns normally whatever Firestore answers,
    lowers the flag again, and has started the remote work of every
    operation that is not yet synced and reaches a case with its data,
    exactly once each and in queue order; a refusal or a timeout of one
    operation does not keep the later ones from being attempted. *)
Theorem drain_attempts_each_eligible_once (w : World) (l : list json) :
  syncInProgress w = false → isOnline w = true →
  firebaseDB w && firebaseDb w = true →
  localStorage w !! pendingSyncKey = Some (Json (JArr l)) → l ≠ [] →
  nullFree l → direct l →
  outcome (syncPendingData w) = Ok tt
  ∧ syncInProgress (final (syncPendingData w)) = false
  ∧ List.filter isRemote (effects (syncPendingData w))
    = Remote <$> omap eligible l.
Proof.
  intros Hbusy Hon Hfb Hcell Hne Hn _.
  destruct (syncPendingData_pass w l Hbusy Hon Hfb Hcell Hne Hn)
    as (Ho & _ & Hr & Hf & _).
  done.
Qed.

Lemma drain_attempts_each_eligible_once_witness :
  outcome (syncPendingData drainingWorld) = Ok tt
  ∧ syncInProgress (final (syncPendingData drainingWorld)) = false
  ∧ List.filter isRemote (effects (syncPendingData drainingWorld))
    = Remote <$> omap eligible [queuedAna; queuedCaro].
Proof.
  apply (drain_attempts_each_eligible_once drainingWorld
           [queuedAna; queuedCaro]); try reflexivity.
  - done.
  - by repeat constructor.
  - by repeat constructor.
Defined.

(** X16.  A pass in which every attempt ends with its operation marked
    (Firestore acknowledges it, or the body left behind at the deadline
    still marks it) leaves in the queue exactly the operations no pass can
    handle: those not synced whose type has no case or whose data is
    missing.  A queue of operations that all reach a case is emptied. *)
Theorem drain_all_acknowledged (w : World) (l : list json) :
  syncInProgress w = false → isOnline w = true →
  firebaseDB w && firebaseDb w = true →
  localStorage w !! pendingSyncKey = Some (Json (JArr l)) → l ≠ [] →
  nullFree l →
  Forall (fun a => marksSynced a = true) (firestore w) →
  length (omap eligible l) ≤ length (firestore w) →
  pendingOps (final (syncPendingData w)) = List.filter stuck l
  ∧ (Forall (fun op => stuck op = false) l →
     pendingOps (final (syncPendingData w)) = []).
Proof.
  intros Hbusy Hon Hfb Hcell Hne Hn Hall Hlen.
  destruct (syncPendingData_pass w l Hbusy Hon Hfb Hcell Hne Hn)
    as (_ & -> & _).
  rewrite remaining_all_marked by done. split; [done|].
  intros Hno. clear -Hno. induction Hno as [|x l Hx _ IH]; [done|].
  simpl. by rewrite Hx.
Qed.

Lemma drain_all_acknowledged_witness :
  pendingOps (final (syncPendingData
                       (setFirestore [Acked; Acked] drainingWorld)))
  = List.filter stuck [queuedAna; queuedCaro]
  ∧ (Forall (fun op => stuck op = false) [queuedAna; queuedCaro] →
     pendingOps (final (syncPendingData
                          (setFirestore [Acked; Acked] drainingWorld))) = []).
Proof.
  apply (drain_all_acknowledged (setFirestore [Acked; Acked] drainingWorld)
           [queuedAna; queuedCaro]); try reflexivity.
  - done.
  - by repeat constructor.
  - by repeat constructor.
Defined.

(** X17.  Over a queue whose operations the drain sends to Firestore
    itself, a pass in which no attempt marks its operation (each is
    refused or times out for good, as when Firestore never answers) loses
    nothing: it writes back every operation that was not synced, unchanged
    and in order, so that a later pass retries them. *)
Theorem drain_nothing_acknowledged (w : World) (l : list json) :
  syncInProgress w = false → isOnline w = true →
  firebaseDB w && firebaseDb w = true →
  localStorage w !! pendingSyncKey = Some (Json (JArr l)) → l ≠ [] →
  nullFree l → direct l →
  Forall (fun a => marksSynced a = false) (firestore w) →
  pendingOps (final (syncPendingData w)) = List.filter unsynced l
  ∧ (Forall (fun op => unsynced op = true) l →
     pendingOps (final (syncPendingData w)) = l).
Proof.
  intros Hbusy Hon Hfb Hcell Hne Hn _ Hall.
  destruct (syncPendingData_pass w l Hbusy Hon Hfb Hcell Hne Hn)
    as (_ & -> & _).
  rewrite remaining_none_marked by done. split; [done|].
  apply filter_all.
Qed.

Lemma drain_nothing_acknowledged_witness :
  pendingOps (final (syncPendingData
                       (setFirestore [Refused; TimedOut false] drainingWorld)))
  = List.filter unsynced [queuedAna; queuedCaro]
  ∧ (Forall (fun op => unsynced op = true) [queuedAna; queuedCaro] →
     pendingOps (final (syncPendingData
                          (setFirestore [Refused; TimedOut false]
                             drainingWorld)))
     = [queuedAna; queuedCaro]).
Proof.
  apply (drain_nothing_acknowledged
           (setFirestore [Refused; TimedOut false] drainingWorld)
           [queuedAna; queuedCaro]); try reflexivity.
  - done.
  - by repeat constructor.
  - by repeat constructor.
  - by repeat constructor.
Defined.

(** X18.  An operation that is not synced and whose type the drain has no
    case for, or whose data is missing, is never sent and never removed.
    Over a queue whose other operations the drain sends to Firestore
    itself, whatever Firestore answers, a pass keeps all such operations,
    in their order, and none of its remote calls is for one of them: it
    makes as many remote calls as there are other operations not yet
    synced. *)
Theorem drain_keeps_stuck_operations (w : World) (l : list json) :
  syncInProgress w = false → isOnline w = true →
  firebaseDB w && firebaseDb w = true →
  localStorage w !! pendingSyncKey = Some (Json (JArr l)) → l ≠ [] →
  nullFree l → direct l →
  List.filter stuck (pendingOps (final (syncPendingData w)))
  = List.filter stuck l
  ∧ length (List.filter isRemote (effects (syncPendingData w)))
    = length (List.filter (fun op => unsynced op && negb (stuck op)) l).
Proof.
  intros Hbusy Hon Hfb Hcell Hne Hn _.
  destruct (syncPendingData_pass w l Hbusy Hon Hfb Hcell Hne Hn)
    as (_ & -> & -> & _).
  split; [apply remaining_stuck|].
  rewrite length_fmap. clear. induction l as [|x l IH]; [done|].
  rewrite omap_cons_eq. cbn [List.filter].
  assert (stuck x
          = unsynced x
            && match attemptable x with Some _ => false | None => true end)
    as Hs by done.
  unfold eligible. rewrite Hs.
  destruct (unsynced x); [|exact IH].
  destruct (attemptable x); cbn [andb negb length];
    first [exact IH | f_equal; exact IH].
Qed.

Lemma drain_keeps_stuck_operations_witness :
  List.filter stuck
    (pendingOps
       (final (syncPendingData
                 (setLocalStorage
                    {[ pendingSyncKey :=
                         Json (JArr [JObj {[ "type" := JStr "renameStudent" ]};
                                     queuedAna]) ]}
                    drainingWorld))))
  = List.filter stuck [JObj {[ "type" := JStr "renameStudent" ]}; queuedAna]
  ∧ length (List.filter isRemote
              (effects (syncPendingData
                 (setLocalStorage
                    {[ pendingSyncKey :=
                         Json (JArr [JObj {[ "type" := JStr "renameStudent" ]};
                                     queuedAna]) ]}
                    drainingWorld))))
    = length (List.filter (fun op => unsynced op && negb (stuck op))
                [JObj {[ "type" := JStr "renameStudent" ]}; queuedAna]).
Proof.
  apply (drain_keeps_stuck_operations
           (setLocalStorage
              {[ pendingSyncKey :=
                   Json (JArr [JObj {[ "type" := JStr "renameStudent" ]};
                               queuedAna]) ]}
              drainingWorld)
           [JObj {[ "type" := JStr "renameStudent" ]}; queuedAna]);
    try reflexivity.
  - done.
  - by repeat constructor.
  - by repeat constructor.
Defined.

(** ** The drain and the stored records *)

Lemma syncPendingData_storage (w : World) (k : string) :
  k ≠ pendingSyncKey →
  localStorage (final (syncPendingData w)) !! k = localStorage w !! k.
Proof.
  intros Hk.
  destruct (syncPendingData_summary w)
    as [(r & w' & tr & -> & Hsame & _)
       |(_ & _ & _ & l & drained & sc & fc & rest & tr & _ & _ & _ & _ & _
         & ->)]; unfold final; simpl.
  - by rewrite Hsame.
  - by rewrite lookup_insert_ne.
Qed.

(** X19.  The drain does not mark the stored record of an operation it
    sends to Firestore itself.  Over a stored queue all of whose
    operations are of that kind, whatever a drain request does (nothing, a
    full pass, or a failure half way), it changes no cell of
    [localStorage] but the queue's, so every collection reads after it
    exactly as before: a record written while offline keeps
    [_synced: false] after its queued operation was acknowledged. *)
Theorem drain_never_touches_collections (w : World) (collection : string) :
  direct (pendingOps w) →
  (∀ k, k ≠ pendingSyncKey →
        localStorage (final (syncPendingData w)) !! k = localStorage w !! k)
  ∧ storedItems collection (final (syncPendingData w))
    = storedItems collection w
  ∧ outcome (getFromLocalStorage collection (final (syncPendingData w)))
    = outcome (getFromLocalStorage collection w).
Proof.
  intros _.
  split; [intros k Hk; by apply syncPendingData_storage|]. split.
  - unfold storedItems. by rewrite syncPendingData_storage.
  - destruct (getFromLocalStorage_outcome collection
                (final (syncPendingData w))) as [-> _].
    destruct (getFromLocalStorage_outcome collection w) as [-> _].
    do 2 f_equal. unfold effectiveCell.
    rewrite syncPendingData_storage by done.
    destruct (present _); [done|].
    destruct (legacyKey collection) as [k|] eqn:E; [|done].
    apply syncPendingData_storage.
    unfold legacyKey in E. repeat case_match; by simplify_eq.
Qed.

Lemma drain_never_touches_collections_witness :
  storedItems "students"
    (final (syncPendingData
              (setLocalStorage
                 {[ pendingSyncKey := Json (JArr [queuedAna]);
                    "offline_students" := Json (JArr [JObj (newItem anaS1)]) ]}
                 (setFirestore [Acked] onlineWorld))))
  = [JObj (newItem anaS1)]
  ∧ pendingOps
      (final (syncPendingData
                (setLocalStorage
                   {[ pendingSyncKey := Json (JArr [queuedAna]);
                      "offline_students" :=
                        Json (JArr [JObj (newItem anaS1)]) ]}
                   (setFirestore [Acked] onlineWorld))))
    = [].
Proof.
  destruct (drain_never_touches_collections
              (setLocalStorage
                 {[ pendingSyncKey := Json (JArr [queuedAna]);
                    "offline_students" := Json (JArr [JObj (newItem anaS1)]) ]}
                 (setFirestore [Acked] onlineWorld))
              "students") as (_ & Hitems & _).
  - by repeat constructor.
  - split; [rewrite Hitems|]; reflexivity.
Defined.

(** ** [mergeData]: order and idempotence *)

Lemma loop_extends (uniqueKey : string) (l : list Record) :
  ∀ merged seen,
    ∃ rest, (foldl (visit uniqueKey) (merged, seen) l).1 = merged ++ rest
            ∧ sublist rest l.
Proof.
  induction l as [|x l IH]; intros merged seen; simpl.
  { exists []. by rewrite app_nil_r. }
  unfold visit at 2. simpl.
  destruct (fresh (getKey uniqueKey x) seen).
  - destruct (IH (merged ++ [x])
                (from_option (fun k => {[ k ]} ∪ seen) seen
                   (getKey uniqueKey x))) as (rest & -> & Hsub).
    exists (x :: rest). rewrite <- (assoc_L (++)). split; [done|].
    by constructor.
  - destruct (IH merged seen) as (rest & -> & Hsub).
    exists rest. split; [done|]. by constructor.
Qed.

Lemma loop_absorbs (uniqueKey : string) (l : list Record) :
  ∀ merged seen,
    (∀ x k, x ∈ l → getKey uniqueKey x = Some k → k ∈ seen) →
    foldl (visit uniqueKey) (merged, seen) l = (merged, seen).
Proof.
  induction l as [|x l IH]; intros merged seen Hin; simpl; [done|].
  unfold visit at 2. simpl.
  destruct (fresh (getKey uniqueKey x) seen) eqn:Hf.
  - apply fresh_true in Hf as (k & Hk & Hs). destruct Hs.
    eapply Hin; [apply list_elem_of_here | done].
  - apply IH. intros y k Hy. apply Hin. by apply list_elem_of_further.
Qed.

Lemma loop_fixed (uniqueKey : string) (l : list Record) :
  ∀ merged seen,
    Forall (fun r => is_Some (getKey uniqueKey r)) l →
    NoDup (getKey uniqueKey <$> l) →
    (∀ x k, x ∈ l → getKey uniqueKey x = Some k → k ∉ seen) →
    ∃ seen',
      foldl (visit uniqueKey) (merged, seen) l = (merged ++ l, seen')
      ∧ ∀ k, k ∈ seen' ↔ k ∈ seen ∨ ∃ x, x ∈ l ∧ getKey uniqueKey x = Some k.
Proof.
  induction l as [|x l IH]; intros merged seen Hk Hnd Hnew; simpl.
  { exists seen. rewrite app_nil_r. split; [done|]. intros k.
    split; [by left|]. intros [?|(x & Hx & _)]; [done|].
    by apply elem_of_nil in Hx. }
  apply Forall_cons in Hk as [[k Hx] Hk].
  rewrite fmap_cons in Hnd. apply NoDup_cons in Hnd as [Hnx Hnd].
  unfold visit at 2. simpl.
  assert (fresh (getKey uniqueKey x) seen = true) as ->.
  { apply fresh_true. exists k. split; [done|].
    eapply Hnew; [apply list_elem_of_here | done]. }
  rewrite Hx. simpl.
  destruct (IH (merged ++ [x]) ({[ k ]} ∪ seen) Hk Hnd) as (seen' & -> & Hs).
  { intros y k' Hy Hk'. apply not_elem_of_union. split.
    - intros ->%elem_of_singleton. apply Hnx. rewrite Hx, <- Hk'.
      by apply list_elem_of_fmap_2.
    - eapply Hnew; [by apply list_elem_of_further | done]. }
  exists seen'. rewrite <- (assoc_L (++)). split; [done|].
  intros k'. rewrite Hs, elem_of_union, elem_of_singleton. split.
  - intros [[->|?]|(y & Hy & Hky)]; [right|by left|right].
    + exists x. split; [apply list_elem_of_here | done].
    + exists y. split; [by apply list_elem_of_further | done].
  - intros [?|(y & Hy & Hky)]; [left; by right|].
    apply elem_of_cons in Hy as [->|Hy].
    + left; left. congruence.
    + right. eauto.
Qed.

(** X20.  [mergeData] is stable: its result is the local records it keeps,
    in their local order, followed by the remote records it adds, in their
    remote order; the local part does not depend on the remote data at
    all. *)
Theorem mergeData_local_first_in_order (L R : list Record)
    (uniqueKey : string) :
  ∃ rest,
    mergeData L R uniqueKey = mergeData L [] uniqueKey ++ rest
    ∧ sublist (mergeData L [] uniqueKey) L
    ∧ sublist rest R.
Proof.
  unfold mergeData. simpl.
  destruct (loop_extends uniqueKey L [] ∅) as (rest1 & H1 & Hs1).
  destruct (foldl (visit uniqueKey) ([], ∅) L) as [m1 s1].
  simpl in H1. subst m1.
  destruct (loop_extends uniqueKey R rest1 s1) as (rest2 & -> & Hs2).
  by exists rest2.
Qed.

(** X21.  Merging is idempotent and absorbs what it has seen: merging the
    result once more with the same remote data, or with no remote data,
    gives the result back unchanged. *)
Theorem mergeData_idempotent (L R : list Record) (uniqueKey : string) :
  mergeData (mergeData L R uniqueKey) R uniqueKey = mergeData L R uniqueKey
  ∧ mergeData (mergeData L R uniqueKey) [] uniqueKey
    = mergeData L R uniqueKey.
Proof.
  set (M := mergeData L R uniqueKey).
  destruct (loop_fixed uniqueKey M [] ∅) as (seen & Hloop & Hseen).
  { apply mergeData_keyed. }
  { apply mergeData_NoDup_keys. }
  { intros x k _ _. apply not_elem_of_empty. }
  split.
  - unfold mergeData at 1. simpl. rewrite Hloop. simpl.
    rewrite loop_absorbs; [done|].
    intros x k Hx Hk. apply Hseen. right.
    assert (Some k ∈ (getKey uniqueKey <$> M)) as Hin.
    { apply mergeData_key_elem. exists k, x. split; [done|].
      split; [|done]. apply elem_of_app. by right. }
    apply list_elem_of_fmap in Hin as (y & Hy & HyM). eauto.
  - unfold mergeData at 1. simpl. by rewrite Hloop.
Qed.

(** ** The connectivity flag *)

Lemma keepsOnline_bind {A B : Type} (m : M A) (f : A → M B) :
  keepsOnline m → (∀ a, keepsOnline (f a)) → keepsOnline (bind m f).
Proof.
  intros Hm Hf w. unfold bind. specialize (Hm w).
  destruct (m w) as [[[a|e] w1] t1]; simpl in *; [|done].
  specialize (Hf a w1). destruct (f a w1) as [[r w2] t2].
  unfold final in *. simpl in *. congruence.
Qed.

Lemma keepsOnline_tryCatch {A : Type} (m : M A) (h : exn → M A) :
  keepsOnline m → (∀ e, keepsOnline (h e)) → keepsOnline (tryCatch m h).
Proof.
  intros Hm Hh w. unfold tryCatch. specialize (Hm w).
  destruct (m w) as [[[a|e] w1] t1]; simpl in *; [done|].
  specialize (Hh e w1). destruct (h e w1) as [[r w2] t2].
  unfold final in *. simpl in *. congruence.
Qed.

Lemma keepsOnline_pure {A : Type} (m : M A) :
  (∀ w, final (m w) = w) → keepsOnline m.
Proof. intros H w. by rewrite H. Qed.

Lemma getPendingSyncQueue_keepsOnline : keepsOnline getPendingSyncQueue.
Proof. apply keepsOnline_pure. intros w. by rewrite getPendingSyncQueue_run. Qed.

Ltac keeps_online :=
  repeat match goal with
    | |- keepsOnline (bind _ _) => apply keepsOnline_bind; [|intros ?]
    | |- keepsOnline (tryCatch _ _) => apply keepsOnline_tryCatch; [|intros ?]
    | |- keepsOnline (if ?b then _ else _) => destruct b
    | |- keepsOnline (match ?x with _ => _ end) => destruct x
    | |- keepsOnline (ret _) => by apply keepsOnline_pure
    | |- keepsOnline (gets _) => by apply keepsOnline_pure
    | |- keepsOnline (emit _) => by apply keepsOnline_pure
    | |- keepsOnline (liftR _) => by apply keepsOnline_pure
    | |- keepsOnline (modify (setSyncInProgress _)) => by intros []
    | |- keepsOnline (setItem _ _) => by intros []
    | |- keepsOnline getPendingSyncQueue =>
        apply getPendingSyncQueue_keepsOnline
    end.

Lemma nextAnswer_keepsOnline : keepsOnline nextAnswer.
Proof. intros w. unfold nextAnswer. by destruct (firestore w). Qed.

Lemma attempt_keepsOnline (operation : json) : keepsOnline (attempt operation).
Proof. unfold attempt. keeps_online. apply nextAnswer_keepsOnline. Qed.

Lemma drainLoop_keepsOnline (l : list json) : keepsOnline (drainLoop l).
Proof.
  induction l as [|operation l IH]; cbn [drainLoop]; keeps_online.
  - apply attempt_keepsOnline.
  - apply IH.
Qed.

Lemma showSyncStatus_keepsOnline (message type : string) :
  keepsOnline (showSyncStatus message type).
Proof. unfold showSyncStatus. keeps_online. Qed.

Lemma syncPendingData_keepsOnline : keepsOnline syncPendingData.
Proof.
  unfold syncPendingData. keeps_online;
    first [apply drainLoop_keepsOnline | apply showSyncStatus_keepsOnline].
Qed.

Lemma syncIfPending_keepsOnline (stringIsPositive : string → bool) :
  keepsOnline (syncIfPending stringIsPositive).
Proof.
  unfold syncIfPending, spawn. keeps_online.
  apply syncPendingData_keepsOnline.
Qed.

Lemma flip_run (b : bool) (w : World) :
  ∃ tr,
    (doM triggerStatusUpdate then
     if b then handleOnline else handleOffline) w
    = (Ok tt, setIsOnline b w, tr).
Proof.
  destruct w as [o busy n ls f1 f2 toast refresh table dn iso rnd fs].
  destruct b, toast, refresh; eexists; reflexivity.
Qed.

(** X22.  The flag follows the platform.  After the service has handled a
    signal, [isOnline] is what the signal reported: [true] after an
    [online] event, [false] after an [offline] event, [navigator.onLine]
    after a poll or a status check; focus and visibility signals, and any
    drain a signal starts, leave it alone.  [checkOnlineStatus] returns the
    new value. *)
Theorem monitor_tracks_connectivity (stringIsPositive : string → bool)
    (s : signal) (w : World) :
  isOnline (final (deliver stringIsPositive s w))
  = default (isOnline w) (reported s w)
  ∧ outcome (checkOnlineStatus w) = Ok (navigatorOnLine w).
Proof.
  split.
  - destruct s; simpl.
    + destruct w as [o busy n ls f1 f2 toast refresh table dn iso rnd fs].
      by destruct toast, refresh.
    + destruct w as [o busy n ls f1 f2 toast refresh table dn iso rnd fs].
      by destruct toast, refresh.
    + unfold onInterval.
      unfold bind at 1, gets at 1. unfold bind at 1, gets at 1.
      unfold bind at 1, modify at 1.
      assert (∃ tr,
                (if negb (Bool.eqb (isOnline w) (navigatorOnLine w))
                 then doM triggerStatusUpdate then
                      if navigatorOnLine w then handleOnline else handleOffline
                 else ret tt) (setIsOnline (navigatorOnLine w) w)
                = (Ok tt, setIsOnline (navigatorOnLine w) w, tr))
        as [tr Hflip].
      { destruct (negb _); [|by eexists].
        destruct (flip_run (navigatorOnLine w)
                    (setIsOnline (navigatorOnLine w) w)) as [tr ->].
        by exists tr. }
      rewrite (bind_run _ _ _ _ _ _ Hflip).
      unfold bind at 1, gets at 1. unfold bind at 1, gets at 1.
      destruct (_ && _).
      * pose proof (syncIfPending_keepsOnline stringIsPositive
                      (setIsOnline (navigatorOnLine w) w)) as Hk.
        destruct (syncIfPending _ _) as [[r w'] t]. unfold final in *.
        simpl in *. by rewrite Hk.
      * reflexivity.
    + unfold onVisibilityChange. unfold bind at 1, gets at 1.
      destruct (_ && _); [|done].
      pose proof (syncIfPending_keepsOnline stringIsPositive w) as Hk.
      destruct (syncIfPending _ _) as [[r w'] t]. by unfold final in *.
    + unfold onFocus. unfold bind at 1, gets at 1.
      destruct (isOnline w) eqn:Hon; [|done].
      pose proof (syncIfPending_keepsOnline stringIsPositive w) as Hk.
      destruct (syncIfPending _ _) as [[r w'] t]. unfold final in *.
      simpl in *. congruence.
    + destruct w as [o busy n ls f1 f2 toast refresh table dn iso rnd fs].
      by destruct o, n, refresh.
  - destruct w as [o busy n ls f1 f2 toast refresh table dn iso rnd fs].
    by destruct o, n, refresh.
Qed.

(** X23.  Connectivity events are handled without touching storage or the
    network.  The handler of the [online] event makes no storage call and
    no remote call: it only schedules the drain and the consistency check,
    once, two seconds later.  The handler of the [offline] event makes no
    storage call and no remote call and schedules nothing. *)
Theorem connectivity_events_only_schedule (stringIsPositive : string → bool)
    (w : World) :
  List.filter (fun e => storageEffect e || isRemote e || isTimer e)
    (effects (deliver stringIsPositive OnlineEvent w))
  = [Timer 2000 SyncAndReconcile]
  ∧ List.filter (fun e => storageEffect e || isRemote e || isTimer e)
      (effects (deliver stringIsPositive OfflineEvent w))
    = []
  ∧ localStorage (final (deliver stringIsPositive OnlineEvent w))
    = localStorage w
  ∧ localStorage (final (deliver stringIsPositive OfflineEvent w))
    = localStorage w.
Proof.
  destruct w as [o busy n ls f1 f2 toast refresh table dn iso rnd fs].
  by destruct toast, refresh.
Qed.

(** ** [reconcileLocalData] *)

Lemma alreadyQueued_pure (collection : string) (item op : json) :
  item ≠ JNull → op ≠ JNull → dataMissing op = false →
  alreadyQueued collection item op = Ok (queuedFor collection item op).
Proof.
  intros Hi Ho Hd. unfold alreadyQueued, queuedFor, dataMissing in *.
  rewrite !(prop_not_null op), !(prop_not_null item) by done. simpl.
  destruct (negb _); [done|].
  destruct (ownProps op !! "data") as [d|]; [|done].
  assert (d ≠ JNull) as Hdn by (by destruct d).
  simpl. rewrite !(prop_not_null d) by done. simpl.
  destruct (truthy (ownProps item !! "id")); simpl.
  - destruct (truthy (ownProps d !! "id")); simpl; [done|].
    destruct (truthy (ownProps item !! "studentId")); simpl; [|done].
    destruct (truthy (ownProps d !! "studentId")); simpl; [|done].
    by destruct (_ && _).
  - destruct (truthy (ownProps item !! "studentId")); simpl; [|done].
    destruct (truthy (ownProps d !! "studentId")); simpl; [|done].
    by destruct (_ && _).
Qed.

Lemma someR_pure {A : Type} (p : A → result bool) (q : A → bool)
    (l : list A) :
  Forall (fun x => p x = Ok (q x)) l → someR p l = Ok (existsb q l).
Proof.
  induction 1 as [|x l Hx _ IH]; [done|]. simpl. rewrite Hx. simpl.
  by destruct (q x).
Qed.

Lemma guessedType_known (collection : string) :
  collection ∈ ["attendance"; "students"] →
  String.eqb (guessedType collection) "unknown" = false.
Proof. set_unfold. by intros [-> | [-> | []]]. Qed.

(** One item of the loop: nothing for an item the queue covers, one stamped
    operation at the end of the stored queue otherwise. *)
Lemma requeue_run (q cur : list json) (collection : string) (item : json)
    (w : World) :
  scannable q → item ≠ JNull →
  collection ∈ ["attendance"; "students"] →
  cellValue (localStorage w !! pendingSyncKey) = JArr cur →
  ∃ tr,
    requeue (JArr q) collection item w
    = (if existsb (queuedFor collection item) q
       then (Ok 0, w, tr)
       else (Ok 1,
             setLocalStorage
               (<[pendingSyncKey :=
                    Json (JArr (cur ++ [requeueOp w collection item]))]>
                  (localStorage w)) w,
             tr))
    ∧ Forall (fun e => storageEffect e = true) tr.
Proof.
  intros Hq Hi Hc Hcell. unfold requeue.
  unfold bind at 1, liftR at 1. simpl.
  rewrite (someR_pure _ (queuedFor collection item)).
  2: { eapply Forall_impl; [exact Hq|]. intros op [Ho Hd].
       by apply alreadyQueued_pure. }
  simpl. destruct (existsb _ q); simpl.
  { exists []. split; [done|constructor]. }
  rewrite (guessedType_known _ Hc). simpl.
  destruct (addToPendingQueue_run
              {[ "type" := JStr (guessedType collection); "data" := item;
                 "collection" := JStr collection ]} w) as (tr & Hrun & Htr).
  rewrite (bind_run _ _ _ _ _ _ Hrun). simpl. rewrite app_nil_r.
  unfold queuedCells. rewrite Hcell.
  eexists. split; [done|]. constructor; [done|].
  eapply Forall_impl; [exact Htr|]. by intros e [v ->].
Qed.

Lemma sumM_requeue (q : list json) (collection : string) (items : list json) :
  ∀ (cur : list json) (w : World),
    scannable q → nullFree items →
    collection ∈ ["attendance"; "students"] →
    cellValue (localStorage w !! pendingSyncKey) = JArr cur →
    let new :=
      List.filter
        (fun item => negb (existsb (queuedFor collection item) q)) items in
    ∃ s tr,
      sumM (requeue (JArr q) collection) items w
      = (Ok (length new), setLocalStorage s w, tr)
      ∧ cellValue (s !! pendingSyncKey)
        = JArr (cur ++ (requeueOp w collection <$> new))
      ∧ (∀ k, k ≠ pendingSyncKey → s !! k = localStorage w !! k)
      ∧ (new = [] → s = localStorage w)
      ∧ Forall (fun e => storageEffect e = true) tr.
Proof.
  induction items as [|item items IH]; intros cur w Hq Hn Hc Hcell; simpl.
  { exists (localStorage w), []. rewrite setLocalStorage_same, app_nil_r.
    repeat split; [done|constructor]. }
  apply Forall_cons in Hn as [Hi Hn].
  destruct (requeue_run q cur collection item w Hq Hi Hc Hcell)
    as (tr1 & Hrun & Htr1).
  destruct (existsb (queuedFor collection item) q) eqn:Hex; simpl.
  - rewrite (bind_run _ _ _ _ _ _ Hrun).
    destruct (IH cur w Hq Hn Hc Hcell) as (s & tr & Hsum & Hs & Hk & He & Htr).
    rewrite (bind_run _ _ _ _ _ _ Hsum). simpl.
    exists s, (tr1 ++ tr ++ []). split; [done|].
    rewrite app_nil_r. repeat split; try done. by apply Forall_app.
  - rewrite (bind_run _ _ _ _ _ _ Hrun).
    set (w1 := setLocalStorage _ w).
    destruct (IH (cur ++ [requeueOp w collection item]) w1 Hq Hn Hc)
      as (s & tr & Hsum & Hs & Hk & He & Htr).
    { unfold w1. simpl. by rewrite lookup_insert_eq. }
    rewrite (bind_run _ _ _ _ _ _ Hsum). simpl.
    exists s, (tr1 ++ tr ++ []). unfold w1. rewrite setLocalStorage_twice.
    split; [done|]. rewrite app_nil_r.
    split; [by rewrite Hs, <- (assoc_L (++))|].
    split; [|split; [done|by apply Forall_app]].
    intros k Hne. rewrite Hk by done. unfold w1. simpl.
    by rewrite lookup_insert_ne.
Qed.

Lemma effectiveCell_agree (collection : string) (s s0 : gmap string text) :
  (∀ k, k ≠ pendingSyncKey → s !! k = s0 !! k) →
  effectiveCell collection s = effectiveCell collection s0.
Proof.
  intros H. unfold effectiveCell.
  rewrite (H _ (collection_key_not_pending collection)).
  destruct (present _); [done|].
  destruct (legacyKey collection) as [k|] eqn:E; [|done].
  apply H. unfold legacyKey in E. repeat case_match; by simplify_eq.
Qed.

Lemma filterR_flagged (l : list json) :
  nullFree l →
  filterR (fun item => letR s := prop item "_synced" in
                       Ok (strictEq s (Some (JBool false)))) l
  = Ok (List.filter flaggedUnsynced l).
Proof.
  intros Hn. apply filterR_pure. eapply Forall_impl; [exact Hn|].
  intros x Hx. simpl. by rewrite prop_not_null.
Qed.

Lemma nullFree_filter (q : json → bool) (l : list json) :
  nullFree l → nullFree (List.filter q l).
Proof.
  unfold nullFree. induction 1 as [|x l Hx _ IH]; simpl; [constructor|].
  destruct (q x); [by constructor | done].
Qed.

Lemma reconcileCollection_run (q l cur : list json) (collection : string)
    (w : World) :
  scannable q → readItems collection w = JArr l → nullFree l →
  collection ∈ ["attendance"; "students"] →
  cellValue (localStorage w !! pendingSyncKey) = JArr cur →
  ∃ s tr,
    reconcileCollection (JArr q) collection w
    = (Ok (length (orphans q collection l)), setLocalStorage s w, tr)
    ∧ cellValue (s !! pendingSyncKey)
      = JArr (cur ++ (requeueOp w collection <$> orphans q collection l))
    ∧ (∀ k, k ≠ pendingSyncKey → s !! k = localStorage w !! k)
    ∧ (orphans q collection l = [] → s = localStorage w)
    ∧ Forall (fun e => storageEffect e = true) tr.
Proof.
  intros Hq Hread Hn Hc Hcell. unfold reconcileCollection.
  destruct (getFromLocalStorage_run collection w) as (tr0 & Hget & Htr0).
  rewrite (bind_run _ _ _ _ _ _ Hget).
  fold (readItems collection w). rewrite Hread.
  unfold bind at 1, liftR at 1. simpl.
  unfold bind at 1, liftR at 1. rewrite (filterR_flagged l Hn).
  destruct (sumM_requeue q collection (List.filter flaggedUnsynced l) cur w
              Hq (nullFree_filter _ _ Hn) Hc Hcell)
    as (s & tr & -> & Hs & Hk & He & Htr).
  exists s, (tr0 ++ [] ++ [] ++ tr). split; [done|].
  repeat split; try done. apply Forall_app. split; [done|]. done.
Qed.

(** The consistency check up to its last step, on stores it can scan. *)
Lemma reconcileLocalData_requeued (w : World) (q la ls : list json) :
  cellValue (localStorage w !! pendingSyncKey) = JArr q → scannable q →
  readItems "attendance" w = JArr la → nullFree la →
  readItems "students" w = JArr ls → nullFree ls →
  ∃ s tr,
    cellValue (s !! pendingSyncKey)
    = JArr (q ++ (requeueOp w "attendance" <$> orphans q "attendance" la)
              ++ (requeueOp w "students" <$> orphans q "students" ls))
    ∧ (∀ k, k ≠ pendingSyncKey → s !! k = localStorage w !! k)
    ∧ (orphans q "attendance" la = [] → orphans q "students" ls = [] →
       s = localStorage w)
    ∧ Forall (fun e => storageEffect e = true) tr
    ∧ reconcileLocalData w
      = let addedCount :=
          length (orphans q "attendance" la)
          + length (orphans q "students" ls) in
        let '(r, w3, t3) :=
          (if (0 <? addedCount)%nat then
             doM showSyncStatus
                   ("Found " +:+ pretty addedCount
                    +:+ " unsynced items, retrying...")
                   "warning" then
             spawn syncPendingData
           else ret tt) (setLocalStorage s w) in
        (r, w3, tr ++ t3).
Proof.
  intros Hcell Hq Hla Hna Hls Hns. unfold reconcileLocalData.
  unfold bind at 1. rewrite getPendingSyncQueue_run, Hcell.
  cbn [sumM].
  destruct (reconcileCollection_run q la q "attendance" w Hq Hla Hna)
    as (s1 & tr1 & Hr1 & Hs1 & Hk1 & He1 & Htr1);
    [set_solver | done |].
  destruct (reconcileCollection_run q ls
              (q ++ (requeueOp w "attendance" <$> orphans q "attendance" la))
              "students" (setLocalStorage s1 w) Hq)
    as (s2 & tr2 & Hr2 & Hs2 & Hk2 & He2 & Htr2);
    [|done|set_solver|done|].
  { unfold readItems. simpl.
    rewrite (effectiveCell_agree _ _ _ Hk1). exact Hls. }
  rewrite setLocalStorage_twice in Hr2.
  exists s2, (GetItem pendingSyncKey :: tr1 ++ tr2).
  split; [by rewrite Hs2, <- (assoc_L (++))|].
  split.
  { intros k Hk. rewrite Hk2 by done. simpl. by apply Hk1. }
  split.
  { intros HA HS. rewrite (He2 HS). simpl. by apply He1. }
  split.
  { constructor; [done|]. by apply Forall_app. }
  unfold bind at 1. unfold bind at 1. rewrite Hr1.
  unfold bind at 1. unfold bind at 1. rewrite Hr2.
  unfold bind at 1. unfold ret at 1 2. cbv beta iota.
  rewrite Nat.add_0_r, !app_nil_r. unfold ret at 1. cbv beta iota.
  destruct (_ (setLocalStorage s2 w)) as [[r w3] t3].
  rewrite ?app_nil_r. reflexivity.
Qed.

Lemma spawn_run (m : M unit) (w : World) :
  ∃ tr, spawn m w = (Ok tt, final (m w), tr)
        ∧ List.filter isRemote tr = List.filter isRemote (effects (m w)).
Proof.
  unfold spawn, tryCatch, final, effects.
  destruct (m w) as [[[[]|e] w1] t1]; simpl.
  - by exists t1.
  - exists (t1 ++ []). by rewrite app_nil_r.
Qed.

Lemma storage_not_remote (tr : list effect) :
  Forall (fun e => storageEffect e = true) tr → List.filter isRemote tr = [].
Proof.
  induction 1 as [|e tr He _ IH]; [done|]. simpl. rewrite IH. by destruct e.
Qed.

Lemma cellValue_nonempty (cell : option text) (l : list json) :
  cellValue cell = JArr l → l ≠ [] → cell = Some (Json (JArr l)).
Proof.
  destruct cell as [[| |v]|]; simpl; intros H Hne; try congruence.
Qed.

Lemma requeueOp_fields (w : World) (collection : string) (item : json) :
  ownProps (requeueOp w collection item) !! "type"
  = Some (JStr (guessedType collection))
  ∧ ownProps (requeueOp w collection item) !! "data" = Some item
  ∧ ownProps (requeueOp w collection item) !! "collection"
    = Some (JStr collection)
  ∧ unsynced (requeueOp w collection item) = true.
Proof.
  unfold requeueOp. split; [|split; [|split]].
  - unfold stamped. simpl. rewrite !lookup_insert_ne by done.
    by rewrite lookup_insert_eq.
  - unfold stamped. simpl. rewrite !lookup_insert_ne by done.
    by rewrite lookup_insert_eq.
  - unfold stamped. simpl. rewrite !lookup_insert_ne by done.
    by rewrite lookup_singleton_eq.
  - apply stamped_unsynced.
Qed.

Lemma eligible_requeueOp (w : World) (collection : string) (item : json) :
  collection ∈ ["attendance"; "students"] → item ≠ JNull →
  eligible (requeueOp w collection item) = Some (guessedType collection).
Proof.
  intros Hc Hi.
  destruct (requeueOp_fields w collection item) as (Ht & Hd & _ & Hu).
  unfold eligible, attemptable, dataMissing. rewrite Hu, Ht, Hd.
  set_unfold. destruct Hc as [-> | [-> | []]]; by destruct item.
Qed.

Lemma omap_eligible_requeued (w : World) (collection : string)
    (items : list json) :
  collection ∈ ["attendance"; "students"] → nullFree items →
  omap eligible (requeueOp w collection <$> items)
  = (fun _ => guessedType collection) <$> items.
Proof.
  intros Hc. induction 1 as [|item items Hi _ IH]; [done|].
  rewrite !fmap_cons, omap_cons_eq, eligible_requeueOp by done.
  by rewrite IH.
Qed.

Lemma nullFree_orphans (q : list json) (collection : string)
    (l : list json) :
  nullFree l → nullFree (orphans q collection l).
Proof. intros H. unfold orphans. by do 2 apply nullFree_filter. Qed.

Lemma nullFree_requeued (w : World) (collection : string) (items : list json) :
  nullFree (requeueOp w collection <$> items).
Proof. apply Forall_fmap, Forall_forall. by intros x _. Qed.

Lemma scannable_nullFree (q : list json) : scannable q → nullFree q.
Proof. intros H. eapply Forall_impl; [exact H|]. by intros x [? _]. Qed.

(** The remote calls of a consistency check that runs online with the
    flag down. *)
Lemma reconcileLocalData_remote (w : World) (q la ls : list json) :
  cellValue (localStorage w !! pendingSyncKey) = JArr q → scannable q →
  readItems "attendance" w = JArr la → nullFree la →
  readItems "students" w = JArr ls → nullFree ls →
  syncInProgress w = false → isOnline w = true →
  firebaseDB w && firebaseDb w = true →
  orphans q "attendance" la ++ orphans q "students" ls ≠ [] →
  ∃ s,
    cellValue (s !! pendingSyncKey)
    = JArr (q ++ (requeueOp w "attendance" <$> orphans q "attendance" la)
              ++ (requeueOp w "students" <$> orphans q "students" ls))
    ∧ (∀ k, k ≠ pendingSyncKey → s !! k = localStorage w !! k)
    ∧ outcome (reconcileLocalData w) = Ok tt
    ∧ final (reconcileLocalData w)
      = final (syncPendingData (setLocalStorage s w))
    ∧ List.filter isRemote (effects (reconcileLocalData w))
      = Remote <$> (omap eligible q
                    ++ ((fun _ => "addAttendanceRecord")
                          <$> orphans q "attendance" la)
                    ++ ((fun _ => "addStudent") <$> orphans q "students" ls)).
Proof.
  intros Hcell Hq Hla Hna Hls Hns Hbusy Hon Hfb Hne.
  destruct (reconcileLocalData_requeued w q la ls Hcell Hq Hla Hna Hls Hns)
    as (s & tr & Hs & Hk & _ & Htr & Hrun).
  exists s. split; [done|]. split; [done|].
  rewrite Hrun. cbv zeta.
  assert ((0 <? length (orphans q "attendance" la)
                + length (orphans q "students" ls))%nat = true) as ->.
  { apply Nat.ltb_lt. rewrite <- length_app.
    destruct (_ ++ _); [done|simpl; lia]. }
  destruct (spawn_run syncPendingData (setLocalStorage s w))
    as (tr3 & Hsp & Hrem).
  assert (∃ t0, (doM showSyncStatus
                       ("Found "
                        +:+ pretty (length (orphans q "attendance" la)
                                    + length (orphans q "students" ls))
                        +:+ " unsynced items, retrying...") "warning" then
                 spawn syncPendingData) (setLocalStorage s w)
                = (Ok tt, final (syncPendingData (setLocalStorage s w)),
                   t0 ++ tr3)
                ∧ List.filter isRemote t0 = []) as (t0 & -> & Ht0).
  { unfold bind at 1, showSyncStatus, bind at 1, gets at 1.
    destruct (showToast _); unfold emit, ret; rewrite Hsp;
      eexists; (split; [reflexivity|]); done. }
  unfold outcome, final, effects. cbn [fst snd].
  split; [done|]. split; [done|].
  rewrite !List.filter_app, (storage_not_remote tr Htr), Ht0, Hrem.
  cbn [app].
  set (l := q ++ (requeueOp w "attendance" <$> orphans q "attendance" la)
              ++ (requeueOp w "students" <$> orphans q "students" ls)) in *.
  assert (l ≠ []) as Hl.
  { unfold l. intros E. apply app_eq_nil in E as [_ E].
    apply app_eq_nil in E as [E1 E2].
    apply fmap_nil_inv in E1. apply fmap_nil_inv in E2.
    by rewrite E1, E2 in Hne. }
  destruct (syncPendingData_pass (setLocalStorage s w) l)
    as (_ & _ & -> & _); try done.
  { simpl. by apply cellValue_nonempty. }
  { unfold l. apply Forall_app. split; [by apply scannable_nullFree|].
    apply Forall_app. split; apply nullFree_requeued. }
  unfold l. rewrite !omap_app.
  rewrite !omap_eligible_requeued;
    [done | set_solver | by apply nullFree_orphans
    | set_solver | by apply nullFree_orphans].
Qed.

(** X24.  A consistency check that finds nothing to put back is inert.  On
    stores it can scan (a queue without [null] entries whose operations
    have their data, collections that read as lists without [null] items),
    when every item flagged [_synced: false] is matched by a queued
    operation, [reconcileLocalData] returns normally and leaves the world
    as it was: it writes nothing, shows nothing and starts no drain, even
    if the queue is not empty. *)
Theorem reconcile_quiet_when_consistent (w : World) (q la ls : list json) :
  cellValue (localStorage w !! pendingSyncKey) = JArr q → scannable q →
  readItems "attendance" w = JArr la → nullFree la →
  readItems "students" w = JArr ls → nullFree ls →
  orphans q "attendance" la = [] → orphans q "students" ls = [] →
  outcome (reconcileLocalData w) = Ok tt
  ∧ final (reconcileLocalData w) = w
  ∧ Forall (fun e => storageEffect e = true)
      (effects (reconcileLocalData w)).
Proof.
  intros Hcell Hq Hla Hna Hls Hns HA HS.
  destruct (reconcileLocalData_requeued w q la ls Hcell Hq Hla Hna Hls Hns)
    as (s & tr & _ & _ & He & Htr & ->).
  rewrite HA, HS, (He HA HS), setLocalStorage_same. simpl.
  by rewrite app_nil_r.
Qed.

Lemma reconcile_quiet_when_consistent_witness :
  outcome (reconcileLocalData
             (setLocalStorage
                {[ pendingSyncKey := Json (JArr [queuedAna]);
                   "offline_students" := Json (JArr [JObj (newItem anaS1)]) ]}
                onlineWorld)) = Ok tt
  ∧ final (reconcileLocalData
             (setLocalStorage
                {[ pendingSyncKey := Json (JArr [queuedAna]);
                   "offline_students" := Json (JArr [JObj (newItem anaS1)]) ]}
                onlineWorld))
    = setLocalStorage
        {[ pendingSyncKey := Json (JArr [queuedAna]);
           "offline_students" := Json (JArr [JObj (newItem anaS1)]) ]}
        onlineWorld
  ∧ Forall (fun e => storageEffect e = true)
      (effects (reconcileLocalData
                  (setLocalStorage
                     {[ pendingSyncKey := Json (JArr [queuedAna]);
                        "offline_students" :=
                          Json (JArr [JObj (newItem anaS1)]) ]}
                     onlineWorld))).
Proof.
  apply (reconcile_quiet_when_consistent
           (setLocalStorage
              {[ pendingSyncKey := Json (JArr [queuedAna]);
                 "offline_students" := Json (JArr [JObj (newItem anaS1)]) ]}
              onlineWorld)
           [queuedAna] [] [JObj (newItem anaS1)]).
  - reflexivity.
  - constructor; [split; [done|reflexivity]|constructor].
  - reflexivity.
  - constructor.
  - reflexivity.
  - by repeat constructor.
  - reflexivity.
  - reflexivity.
Defined.

(** X25.  What the consistency check puts back.  On stores it can scan,
    while a drain is in flight or the service is offline, so that the drain
    it starts at the end does nothing, [reconcileLocalData] returns
    normally and appends to the stored queue one operation for every item
    of [attendance] and then of [students] that is flagged [_synced: false]
    and that no operation of the queue it read matches; the operation
    carries the item as its data and the type [addAttendanceRecord] or
    [addStudent], whatever operation had produced the item.  No other cell
    changes and no remote call is made. *)
Theorem reconcile_requeues_orphans (w : World) (q la ls : list json) :
  cellValue (localStorage w !! pendingSyncKey) = JArr q → scannable q →
  readItems "attendance" w = JArr la → nullFree la →
  readItems "students" w = JArr ls → nullFree ls →
  syncInProgress w = true ∨ isOnline w = false →
  outcome (reconcileLocalData w) = Ok tt
  ∧ pendingOps (final (reconcileLocalData w))
    = q ++ (requeueOp w "attendance" <$> orphans q "attendance" la)
        ++ (requeueOp w "students" <$> orphans q "students" ls)
  ∧ (∀ k, k ≠ pendingSyncKey →
          localStorage (final (reconcileLocalData w)) !! k
          = localStorage w !! k)
  ∧ List.filter isRemote (effects (reconcileLocalData w)) = [].
Proof.
  intros Hcell Hq Hla Hna Hls Hns Hquiet.
  destruct (reconcileLocalData_requeued w q la ls Hcell Hq Hla Hna Hls Hns)
    as (s & tr & Hs & Hk & _ & Htr & ->).
  cbv zeta.
  assert (syncPendingData (setLocalStorage s w)
          = (Ok tt, setLocalStorage s w, [])) as Hsync.
  { destruct (syncInProgress w) eqn:Hb.
    - by apply syncPendingData_busy.
    - destruct Hquiet as [?|Hoff]; [done|]. by apply syncPendingData_offline. }
  assert (∃ t3,
            (if (0 <? length (orphans q "attendance" la)
                      + length (orphans q "students" ls))%nat then
               doM showSyncStatus
                     ("Found "
                      +:+ pretty (length (orphans q "attendance" la)
                                  + length (orphans q "students" ls))
                      +:+ " unsynced items, retrying...") "warning" then
               spawn syncPendingData
             else ret tt) (setLocalStorage s w)
            = (Ok tt, setLocalStorage s w, t3)
            ∧ List.filter isRemote t3 = []) as (t3 & -> & Ht3).
  { destruct (0 <? _)%nat; [|by exists []].
    unfold bind at 1, showSyncStatus, bind at 1, gets at 1, spawn, tryCatch.
    destruct (showToast _); unfold emit, ret; cbv beta iota; rewrite Hsync;
      eexists; split; done. }
  unfold outcome, final, effects, pendingOps. cbn [fst snd localStorage
    setLocalStorage]. rewrite Hs.
  split; [done|]. split; [done|]. split; [done|].
  by rewrite List.filter_app, (storage_not_remote tr Htr), Ht3.
Qed.

Lemma reconcile_requeues_orphans_witness :
  outcome (reconcileLocalData (setSyncInProgress true unsyncedWorld)) = Ok tt
  ∧ pendingOps (final (reconcileLocalData
                         (setSyncInProgress true unsyncedWorld)))
    = [] ++ (requeueOp (setSyncInProgress true unsyncedWorld) "attendance"
               <$> orphans [] "attendance" [])
         ++ (requeueOp (setSyncInProgress true unsyncedWorld) "students"
               <$> orphans [] "students" [JObj (newItem anaS1)])
  ∧ (∀ k, k ≠ pendingSyncKey →
          localStorage (final (reconcileLocalData
                                 (setSyncInProgress true unsyncedWorld))) !! k
          = localStorage (setSyncInProgress true unsyncedWorld) !! k)
  ∧ List.filter isRemote
      (effects (reconcileLocalData (setSyncInProgress true unsyncedWorld)))
    = [].
Proof.
  apply (reconcile_requeues_orphans (setSyncInProgress true unsyncedWorld)
           [] [] [JObj (newItem anaS1)]).
  - reflexivity.
  - constructor.
  - reflexivity.
  - constructor.
  - reflexivity.
  - by repeat constructor.
  - by left.
Defined.

(** X26.  A consistency check that puts something back drains at once.
    Online, with the flag down and Firebase loaded, on stores it can scan
    and a queue whose operations the drain sends to Firestore itself, when
    at least one flagged item is matched by no queued operation,
    [reconcileLocalData] starts a full pass of the drain over the extended
    queue and does not fail: with that pass run to its end, the remote
    calls are those of the operations that were queued and eligible,
    followed by one [addAttendanceRecord] for each attendance item put back
    and one [addStudent] for each student put back. *)
Theorem reconcile_resends_orphans (w : World) (q la ls : list json) :
  cellValue (localStorage w !! pendingSyncKey) = JArr q → scannable q →
  direct q →
  readItems "attendance" w = JArr la → nullFree la →
  readItems "students" w = JArr ls → nullFree ls →
  syncInProgress w = false → isOnline w = true →
  firebaseDB w && firebaseDb w = true →
  orphans q "attendance" la ++ orphans q "students" ls ≠ [] →
  outcome (reconcileLocalData w) = Ok tt
  ∧ List.filter isRemote (effects (reconcileLocalData w))
    = Remote <$> (omap eligible q
                  ++ ((fun _ => "addAttendanceRecord")
                        <$> orphans q "attendance" la)
                  ++ ((fun _ => "addStudent") <$> orphans q "students" ls)).
Proof.
  intros Hcell Hq _ Hla Hna Hls Hns Hbusy Hon Hfb Hne.
  by destruct (reconcileLocalData_remote w q la ls Hcell Hq Hla Hna Hls Hns
                 Hbusy Hon Hfb Hne) as (s & _ & _ & Ho & _ & Hr).
Qed.

Lemma reconcile_resends_orphans_witness :
  outcome (reconcileLocalData backlogWorld) = Ok tt
  ∧ List.filter isRemote (effects (reconcileLocalData backlogWorld))
    = [Remote "addStudent"; Remote "addStudent"].
Proof.
  destruct (reconcile_resends_orphans backlogWorld [queuedCaro] []
              [JObj (newItem anaS1)]) as (Ho & Hr).
  - reflexivity.
  - by repeat constructor.
  - by repeat constructor.
  - reflexivity.
  - constructor.
  - reflexivity.
  - by repeat constructor.
  - reflexivity.
  - reflexivity.
  - reflexivity.
  - discriminate.
  - split; [exact Ho|]. rewrite Hr. reflexivity.
Defined.

Lemma syncPendingData_pass_world (w : World) (l : list json) :
  syncInProgress w = false → isOnline w = true →
  firebaseDB w && firebaseDb w = true →
  localStorage w !! pendingSyncKey = Some (Json (JArr l)) → l ≠ [] →
  nullFree l →
  ∃ rest,
    final (syncPendingData w)
    = setFirestore rest
        (setLocalStorage
           (<[pendingSyncKey := Json (JArr (remaining (firestore w) l))]>
              (localStorage w)) w).
Proof.
  intros Hbusy Hon Hfb Hcell Hne Hn.
  rewrite syncPendingData_entered by done. cbv zeta. rewrite Hcell. simpl.
  rewrite bool_decide_eq_false_2 by (by destruct l).
  rewrite Hfb. simpl.
  apply andb_true_iff in Hfb as [_ Hdb].
  destruct (drainLoop_spec l (setSyncInProgress true w) Hn Hdb)
    as (drained & s & f & -> & Hrem).
  unfold final. simpl. rewrite Hrem.
  exists (drop (length (omap eligible l)) (firestore w)).
  destruct w. simpl in *. subst. reflexivity.
Qed.

Lemma orphans_nil (collection : string) (l : list json) :
  orphans [] collection l = List.filter flaggedUnsynced l.
Proof. unfold orphans. simpl. apply filter_all, Forall_forall. done. Qed.

Lemma stuck_requeued (w : World) (collection : string) (items : list json) :
  collection ∈ ["attendance"; "students"] → nullFree items →
  List.filter stuck (requeueOp w collection <$> items) = [].
Proof.
  intros Hc. induction 1 as [|item items Hi _ IH]; [done|].
  rewrite fmap_cons. cbn [List.filter].
  pose proof (eligible_requeueOp w collection item Hc Hi) as He.
  unfold eligible in He. unfold stuck at 1.
  destruct (unsynced _); [|done]. rewrite He. simpl. exact IH.
Qed.

(** X27.  The drain and the consistency check never settle a record.  Take
    a service that is online with the flag down, Firebase loaded, an empty
    queue and collections holding items flagged [_synced: false], and let
    every attempt of the drain mark its operation.  A consistency check,
    with the drain it starts run to its end, then sends every flagged item
    and empties the queue again, yet it leaves both collections exactly as
    they were, flags included; so the next check, whatever Firestore
    answers then, sends every one of these items once more. *)
Theorem reconcile_never_settles (w : World) (la ls : list json) :
  cellValue (localStorage w !! pendingSyncKey) = JArr [] →
  readItems "attendance" w = JArr la → nullFree la →
  readItems "students" w = JArr ls → nullFree ls →
  syncInProgress w = false → isOnline w = true →
  firebaseDB w && firebaseDb w = true →
  List.filter flaggedUnsynced la ++ List.filter flaggedUnsynced ls ≠ [] →
  Forall (fun a => marksSynced a = true) (firestore w) →
  length (List.filter flaggedUnsynced la)
  + length (List.filter flaggedUnsynced ls) ≤ length (firestore w) →
  pendingOps (final (reconcileLocalData w)) = []
  ∧ readItems "attendance" (final (reconcileLocalData w)) = JArr la
  ∧ readItems "students" (final (reconcileLocalData w)) = JArr ls
  ∧ List.filter isRemote (effects (reconcileLocalData w))
    = Remote <$> (((fun _ => "addAttendanceRecord")
                     <$> List.filter flaggedUnsynced la)
                  ++ ((fun _ => "addStudent")
                        <$> List.filter flaggedUnsynced ls))
  ∧ ∀ answers,
      List.filter isRemote
        (effects (reconcileLocalData
                    (setFirestore answers (final (reconcileLocalData w)))))
      = Remote <$> (((fun _ => "addAttendanceRecord")
                       <$> List.filter flaggedUnsynced la)
                    ++ ((fun _ => "addStudent")
                          <$> List.filter flaggedUnsynced ls)).
Proof.
  intros Hcell Hla Hna Hls Hns Hbusy Hon Hfb Hne Hack Hlen.
  assert (scannable []) as Hq by constructor.
  destruct (reconcileLocalData_remote w [] la ls Hcell Hq Hla Hna Hls Hns
              Hbusy Hon Hfb) as (s & Hs & Hk & _ & Hfin & Hrem).
  { by rewrite !orphans_nil. }
  rewrite !orphans_nil in *. simpl in Hs, Hrem.
  set (A := List.filter flaggedUnsynced la) in *.
  set (S := List.filter flaggedUnsynced ls) in *.
  set (l := (requeueOp w "attendance" <$> A)
            ++ (requeueOp w "students" <$> S)) in *.
  assert (nullFree A ∧ nullFree S) as [HnA HnS]
    by (split; by apply nullFree_filter).
  assert (l ≠ []) as Hl.
  { unfold l. intros E. apply app_eq_nil in E as [E1 E2].
    apply fmap_nil_inv in E1. apply fmap_nil_inv in E2.
    by rewrite E1, E2 in Hne. }
  destruct (syncPendingData_pass_world (setLocalStorage s w) l)
    as (rest & Hw1); try done.
  { simpl. by apply cellValue_nonempty. }
  { unfold l. apply Forall_app. split; apply nullFree_requeued. }
  assert (remaining (firestore w) l = []) as Hempty.
  { rewrite remaining_all_marked; [|done|].
    - unfold l. rewrite List.filter_app.
      rewrite !stuck_requeued; [done|set_solver|done|set_solver|done].
    - unfold l. rewrite omap_app.
      rewrite !omap_eligible_requeued; [|set_solver|done|set_solver|done].
      by rewrite length_app, !length_fmap. }
  simpl in Hw1. rewrite Hempty, setLocalStorage_twice in Hw1.
  rewrite Hfin, Hw1.
  assert (∀ c answers,
            readItems c
              (setFirestore answers
                 (setLocalStorage (<[pendingSyncKey := Json (JArr [])]> s) w))
            = readItems c w) as Hread.
  { intros c answers. unfold readItems. simpl. f_equal.
    apply effectiveCell_agree. intros k Hne'.
    rewrite lookup_insert_ne by done. by apply Hk. }
  split; [unfold pendingOps; simpl; by rewrite lookup_insert_eq|].
  split; [by rewrite Hread|]. split; [by rewrite Hread|].
  split; [done|].
  intros answers. rewrite setFirestore_twice.
  destruct (reconcileLocalData_remote
              (setFirestore answers
                 (setLocalStorage (<[pendingSyncKey := Json (JArr [])]> s) w))
              [] la ls) as (s' & _ & _ & _ & _ & ->); try done.
  - simpl. by rewrite lookup_insert_eq.
  - by rewrite Hread.
  - by rewrite Hread.
  - by rewrite !orphans_nil.
  - by rewrite !orphans_nil.
Qed.

Lemma reconcile_never_settles_witness :
  pendingOps (final (reconcileLocalData unsyncedWorld)) = []
  ∧ readItems "attendance" (final (reconcileLocalData unsyncedWorld))
    = JArr []
  ∧ readItems "students" (final (reconcileLocalData unsyncedWorld))
    = JArr [JObj (newItem anaS1)]
  ∧ List.filter isRemote (effects (reconcileLocalData unsyncedWorld))
    = Remote <$> (((fun _ => "addAttendanceRecord")
                     <$> List.filter flaggedUnsynced [])
                  ++ ((fun _ => "addStudent")
                        <$> List.filter flaggedUnsynced
                              [JObj (newItem anaS1)]))
  ∧ ∀ answers,
      List.filter isRemote
        (effects (reconcileLocalData
                    (setFirestore answers
                       (final (reconcileLocalData unsyncedWorld)))))
      = Remote <$> (((fun _ => "addAttendanceRecord")
                       <$> List.filter flaggedUnsynced [])
                    ++ ((fun _ => "addStudent")
                          <$> List.filter flaggedUnsynced
                                [JObj (newItem anaS1)])).
Proof.
  apply (reconcile_never_settles unsyncedWorld [] [JObj (newItem anaS1)]).
  - reflexivity.
  - reflexivity.
  - constructor.
  - reflexivity.
  - by repeat constructor.
  - reflexivity.
  - reflexivity.
  - reflexivity.
  - discriminate.
  - by repeat constructor.
  - reflexivity.
Defined.

(** ** The legacy copy of a collection *)

Lemma applyOperation_empty (operation : opKind) (data : Record) :
  applyOperation operation data (JArr [])
  = Ok (JArr match operation with
             | Delete => []
             | _ => [JObj (newItem data)]
             end).
Proof. by destruct operation. Qed.

(** X28.  The first write into a collection whose records live only under
    the legacy key discards them.  [getFromLocalStorage] falls back to the
    legacy key ([attendanceRecords], [barcodeStudents]) when the
    collection's own cell is missing or empty, but [saveToLocalStorage]
    starts from the collection's own cell alone and then overwrites both
    cells: after the call the collection reads as the one record written
    (or as nothing, for a delete), and the legacy records are gone from the
    store. *)
Theorem first_save_replaces_legacy_data (collection k : string)
    (data : Record) (operation : opKind) (w : World) (legacy : list json) :
  legacyKey collection = Some k →
  present (localStorage w !! (localStoragePrefix +:+ collection)) = false →
  localStorage w !! k = Some (Json (JArr legacy)) →
  outcome (getFromLocalStorage collection w) = Ok (JArr legacy)
  ∧ outcome (getFromLocalStorage collection
               (final (saveToLocalStorage collection data operation w)))
    = Ok (JArr match operation with
               | Delete => []
               | _ => [JObj (newItem data)]
               end)
  ∧ localStorage (final (saveToLocalStorage collection data operation w)) !! k
    = Some (Json (JArr match operation with
                       | Delete => []
                       | _ => [JObj (newItem data)]
                       end)).
Proof.
  intros Hleg Habsent Hcell.
  assert (cellValue (localStorage w !! (localStoragePrefix +:+ collection))
          = JArr []) as Hempty.
  { by destruct (localStorage w !! _) as [[| |v]|]. }
  rewrite (cell_after_save _ _ _ _ _ _ Hempty (applyOperation_empty _ _)).
  split; [|split].
  - destruct (getFromLocalStorage_outcome collection w) as [-> _].
    unfold effectiveCell. by rewrite Habsent, Hleg, Hcell.
  - destruct (getFromLocalStorage_outcome collection
                (setLocalStorage
                   (withLegacy collection
                      (JArr match operation with
                            | Delete => []
                            | _ => [JObj (newItem data)]
                            end)
                      (<[localStoragePrefix +:+ collection :=
                           Json (JArr match operation with
                                      | Delete => []
                                      | _ => [JObj (newItem data)]
                                      end)]> (localStorage w))) w))
      as [-> _].
    unfold effectiveCell. simpl.
    by rewrite withLegacy_lookup_key, lookup_insert_eq.
  - simpl. unfold withLegacy. rewrite Hleg. by rewrite lookup_insert_eq.
Qed.

Lemma first_save_replaces_legacy_data_witness :
  outcome (getFromLocalStorage "students"
             (setLocalStorage
                {[ "barcodeStudents" := Json (JArr [JObj benS1; JObj caroS2]) ]}
                blankWorld))
  = Ok (JArr [JObj benS1; JObj caroS2])
  ∧ outcome (getFromLocalStorage "students"
               (final (saveToLocalStorage "students" anaS1 Add
                         (setLocalStorage
                            {[ "barcodeStudents" :=
                                 Json (JArr [JObj benS1; JObj caroS2]) ]}
                            blankWorld))))
    = Ok (JArr [JObj (newItem anaS1)])
  ∧ localStorage
      (final (saveToLocalStorage "students" anaS1 Add
                (setLocalStorage
                   {[ "barcodeStudents" :=
                        Json (JArr [JObj benS1; JObj caroS2]) ]}
                   blankWorld))) !! "barcodeStudents"
    = Some (Json (JArr [JObj (newItem anaS1)])).
Proof.
  apply (first_save_replaces_legacy_data "students" "barcodeStudents" anaS1
           Add
           (setLocalStorage
              {[ "barcodeStudents" := Json (JArr [JObj benS1; JObj caroS2]) ]}
              blankWorld)
           [JObj benS1; JObj caroS2]); reflexivity.
Defined.

(** ** [getStudents] *)

Lemma runQuery_run (query : World → snapshot * World) (w w' : World)
    (docs : list (string * Record)) :
  query w = (Docs docs, w') → runQuery query w = (Ok docs, w', []).
Proof. intros H. unfold runQuery. by rewrite H. Qed.

Lemma getStudents_local (query : World → snapshot * World) (w : World) :
  isOnline w && firebaseDb w = false →
  ∃ tr, getStudents query w = (Ok (readItems "students" w), w, tr)
        ∧ Forall (fun e => storageEffect e = true) tr.
Proof.
  intros Hoff. unfold getStudents, tryCatch.
  destruct (getFromLocalStorage_run "students" w) as (tr & Hget & Htr).
  rewrite (bind_run _ _ _ _ _ _ Hget).
  unfold bind, gets, ret. rewrite Hoff. simpl.
  exists (tr ++ []). split; [done|]. by rewrite app_nil_r.
Qed.

Lemma getStudents_failed (query : World → snapshot * World) (w : World)
    (e : exn) :
  isOnline w && firebaseDb w = true → (query w).1 = QueryFailed e →
  ∃ tr, getStudents query w = (Ok (readItems "students" w), (query w).2, tr)
        ∧ List.filter isRemote tr = [Remote "getStudents"].
Proof.
  intros Hon Hq. unfold getStudents. unfold tryCatch at 1.
  destruct (getFromLocalStorage_run "students" w) as (tr & Hget & Htr).
  rewrite (bind_run _ _ _ _ _ _ Hget).
  unfold bind at 1, gets at 1. unfold bind at 1, gets at 1.
  rewrite Hon. cbv beta iota.
  unfold tryCatch, bind at 1, emit. unfold bind at 1, runQuery.
  destruct (query w) as [s w']. simpl in Hq. subst s. simpl.
  eexists. split; [reflexivity|].
  rewrite List.filter_app, (storage_not_remote tr Htr). done.
Qed.

(** X29.  Without the network [getStudents] is the local roster.  When the
    service is offline or Firestore is not loaded, the call returns what
    [getFromLocalStorage] reads for [students], changes nothing and does
    not run the query at all.  When the query is run and rejected, the call
    still returns the local roster as it read it, never throws, and stores
    nothing. *)
Theorem getStudents_falls_back_to_local (query : World → snapshot * World)
    (w : World) :
  (isOnline w && firebaseDb w = false →
   outcome (getStudents query w) = Ok (readItems "students" w)
   ∧ final (getStudents query w) = w
   ∧ List.filter isRemote (effects (getStudents query w)) = [])
  ∧ (isOnline w && firebaseDb w = true →
     ∀ e, (query w).1 = QueryFailed e →
     outcome (getStudents query w) = Ok (readItems "students" w)
     ∧ final (getStudents query w) = (query w).2).
Proof.
  split.
  - intros Hoff. destruct (getStudents_local query w Hoff) as (tr & -> & Htr).
    repeat split. by apply storage_not_remote.
  - intros Hon e Hq.
    by destruct (getStudents_failed query w e Hon Hq) as (tr & -> & _).
Qed.

Lemma apart_plainDocs (docs : list (string * Record)) :
  plainDocs docs → apart (docRecord <$> docs).
Proof.
  intros [Hnd Hall]. induction docs as [|doc docs IH]; [done|].
  rewrite fmap_cons in Hnd. apply NoDup_cons in Hnd as [Hnew Hnd].
  apply Forall_cons in Hall as [(Hid & Hnone & _) Hall].
  rewrite fmap_cons. split; [|by apply IH].
  apply Forall_fmap, Forall_forall. intros doc' Hin. simpl.
  rewrite Forall_forall in Hall. destruct (Hall doc' Hin) as (Hid' & Hnone' & _).
  assert (docRecord doc' !! "id" = Some (JStr doc'.1)) as Hd'.
  { unfold docRecord. by rewrite lookup_union_r, lookup_singleton_eq. }
  assert (newItem (docRecord doc) !! "id" = Some (JStr doc.1)) as Hd.
  { unfold newItem. rewrite withProp_lookup_ne by done.
    unfold docRecord. by rewrite lookup_union_r, lookup_singleton_eq. }
  unfold matches. cbn [ownProps]. rewrite Hd', Hd. cbn [truthy strictEq].
  apply String.eqb_neq in Hid as ->. apply String.eqb_neq in Hid' as ->.
  cbn [negb andb]. apply String.eqb_neq. intros E. apply Hnew. rewrite E.
  by apply list_elem_of_fmap_2.
Qed.

Lemma flaggedUnsynced_newItem (r : Record) :
  r !! "_synced" = None → flaggedUnsynced (JObj (newItem r)) = true.
Proof.
  intros H. unfold flaggedUnsynced, newItem. simpl.
  by rewrite H, lookup_insert_eq.
Qed.

(** The loop that keeps downloaded students: each record that no stored
    item matches is appended as a new item. *)
Lemma keepLocally_appends (ids : list (option json)) (rs : list Record) :
  ∀ (cur : list json) (w : World),
    cellValue (localStorage w !! (localStoragePrefix +:+ "students"))
    = JArr cur →
    readItems "students" w = JArr cur →
    nullFree cur →
    Forall (fun r => existsb (fun i => strictEq i (r !! "studentId")) ids
                     = false) rs →
    Forall (fun r => Forall (fun x => matches r x = false) cur) rs →
    apart rs →
    ∃ s tr,
      forEachM (keepLocally ids) rs w = (Ok tt, setLocalStorage s w, tr)
      ∧ cellValue (s !! (localStoragePrefix +:+ "students"))
        = JArr (cur ++ ((fun r => JObj (newItem r)) <$> rs))
      ∧ cellValue (effectiveCell "students" s)
        = JArr (cur ++ ((fun r => JObj (newItem r)) <$> rs))
      ∧ Forall (fun e => storageEffect e = true) tr.
Proof.
  induction rs as [|r rs IH]; intros cur w Hcell Hread Hn Hids Hcur Hapart.
  { exists (localStorage w), []. simpl.
    rewrite setLocalStorage_same, app_nil_r.
    repeat split; first [done | constructor]. }
  apply Forall_cons in Hids as [Hid Hids].
  apply Forall_cons in Hcur as [Hr Hcur].
  destruct Hapart as [Hrest Hapart].
  cbn [forEachM]. unfold keepLocally at 1. rewrite Hid. cbn [negb].
  destruct (saveToLocalStorage_run "students" r Add w)
    as (tr1 & Hrun & Htr1 & _).
  rewrite (bind_run _ _ _ _ _ _ Hrun).
  assert (applyOperation Add r (JArr cur)
          = Ok (JArr (cur ++ [JObj (newItem r)]))) as Happ.
  { rewrite applyOperation_add_update, applyOperation_upsert by done.
    by apply firstIndex_None in Hr as ->. }
  assert (savedCells "students" r Add (localStorage w)
          = withLegacy "students" (JArr (cur ++ [JObj (newItem r)]))
              (<[localStoragePrefix +:+ "students" :=
                   Json (JArr (cur ++ [JObj (newItem r)]))]> (localStorage w)))
    as Hsaved.
  { unfold savedCells. by rewrite Hcell, Happ. }
  rewrite Hsaved.
  set (s1 := withLegacy "students" _ _).
  assert (s1 !! (localStoragePrefix +:+ "students")
          = Some (Json (JArr (cur ++ [JObj (newItem r)])))) as Hs1.
  { unfold s1. by rewrite withLegacy_lookup_key, lookup_insert_eq. }
  destruct (IH (cur ++ [JObj (newItem r)]) (setLocalStorage s1 w))
    as (s & tr & Hloop & Hs & Heff & Htr); try done.
  - simpl. by rewrite Hs1.
  - unfold readItems, effectiveCell. simpl. by rewrite Hs1.
  - apply Forall_app. split; [done|]. by repeat constructor.
  - rewrite Forall_forall in Hcur, Hrest |- *. intros r' Hin.
    apply Forall_app. split; [by apply Hcur|].
    constructor; [by apply Hrest|constructor].
  - rewrite Hloop. rewrite setLocalStorage_twice.
    exists s, ((GetItem (localStoragePrefix +:+ "students") :: tr1) ++ tr).
    rewrite fmap_cons.
    split; [done|]. rewrite Hs, Heff, <- !(assoc_L (++)).
    split; [done|]. split; [done|].
    apply Forall_app. split; [|done]. constructor; [done|].
    eapply Forall_impl; [exact Htr1|]. by intros e (k & v & [-> | ->]).
Qed.

(** X30.  Students downloaded by [getStudents] are stored as not synced.
    Online with Firestore loaded, when the query resolves, leaving the page
    as it was, with documents as Firestore hands them out, and the local
    roster (the collection's own cell, which is also what the collection
    reads as) is a list without [null] items none of which has the student
    id of a document or matches one,
    [getStudents] returns the merge of the local roster with the
    documents, and appends one item per document to the stored roster, each
    flagged [_synced: false]: to the consistency check every student that
    came from Firestore looks like a record that still has to be sent
    there. *)
Theorem getStudents_stores_downloads_unsynced
    (query : World → snapshot * World) (w : World) (l : list json)
    (docs : list (string * Record)) :
  isOnline w && firebaseDb w = true →
  query w = (Docs docs, w) →
  cellValue (localStorage w !! (localStoragePrefix +:+ "students")) = JArr l →
  readItems "students" w = JArr l → nullFree l →
  plainDocs docs →
  Forall (fun doc =>
            Forall (fun x =>
                      strictEq (ownProps x !! "studentId")
                        (docRecord doc !! "studentId") = false
                      ∧ matches (docRecord doc) x = false) l) docs →
  outcome (getStudents query w)
  = Ok (JArr (JObj <$> mergeData (ownProps <$> l) (docRecord <$> docs)
                         "studentId"))
  ∧ readItems "students" (final (getStudents query w))
    = JArr (l ++ ((fun doc => JObj (newItem (docRecord doc))) <$> docs))
  ∧ storedItems "students" (final (getStudents query w))
    = l ++ ((fun doc => JObj (newItem (docRecord doc))) <$> docs)
  ∧ Forall (fun doc => flaggedUnsynced (JObj (newItem (docRecord doc))) = true)
      docs.
Proof.
  intros Hon Hq Hcell Hread Hn Hplain Hnew.
  assert (∃ s tr,
            forEachM (keepLocally ((fun x => ownProps x !! "studentId") <$> l))
              (docRecord <$> docs) w
            = (Ok tt, setLocalStorage s w, tr)
            ∧ cellValue (s !! (localStoragePrefix +:+ "students"))
              = JArr (l ++ ((fun doc => JObj (newItem (docRecord doc)))
                              <$> docs))
            ∧ cellValue (effectiveCell "students" s)
              = JArr (l ++ ((fun doc => JObj (newItem (docRecord doc)))
                              <$> docs)))
    as (s & tr & Hloop & Hs & Heff).
  { destruct (keepLocally_appends
                ((fun x => ownProps x !! "studentId") <$> l)
                (docRecord <$> docs) l w Hcell Hread Hn)
      as (s & tr & Hloop & Hs & Heff & _).
    - apply Forall_fmap. eapply Forall_impl; [exact Hnew|].
      intros doc Hl. simpl. clear -Hl.
      induction Hl as [|x l [Hx _] _ IH]; [done|].
      rewrite fmap_cons. simpl. by rewrite Hx, IH.
    - apply Forall_fmap. eapply Forall_impl; [exact Hnew|].
      intros doc Hl. simpl. eapply Forall_impl; [exact Hl|]. by intros x [_ ?].
    - by apply apart_plainDocs.
    - rewrite <- list_fmap_compose in Hs, Heff. by exists s, tr. }
  assert (∃ tr',
            getStudents query w
            = (Ok (JArr (JObj <$> mergeData (ownProps <$> l)
                                    (docRecord <$> docs) "studentId")),
               setLocalStorage s w, tr')) as [tr' Hrun].
  { unfold getStudents. unfold tryCatch at 1.
    destruct (getFromLocalStorage_run "students" w) as (tr0 & Hget & Htr0).
    rewrite (bind_run _ _ _ _ _ _ Hget). fold (readItems "students" w).
    rewrite Hread.
    unfold bind at 1, gets at 1. unfold bind at 1, gets at 1.
    rewrite Hon. cbv beta iota.
    unfold tryCatch, bind at 1, emit.
    unfold bind at 1. rewrite (runQuery_run _ _ _ _ Hq).
    unfold bind at 1, liftR at 1. cbn [asArray].
    unfold bind at 1, liftR at 1.
    rewrite (mapR_pure _ (fun x => ownProps x !! "studentId")).
    2: { eapply Forall_impl; [exact Hn|]. intros x Hx.
         by apply prop_not_null. }
    unfold bind at 1. rewrite Hloop. eexists. reflexivity. }
  rewrite Hrun. unfold outcome, final. cbn [fst snd].
  split; [done|]. split; [done|].
  split; [unfold storedItems; simpl; by rewrite Hs|].
  destruct Hplain as [_ Hall]. eapply Forall_impl; [exact Hall|].
  intros doc (_ & _ & Hsynced). apply flaggedUnsynced_newItem.
  unfold docRecord. by rewrite lookup_union_r, lookup_singleton_ne.
Qed.

Lemma getStudents_falls_back_to_local_witness :
  (outcome (getStudents (fun w => (QueryFailed (RemoteError "unavailable"), w))
              blankWorld)
   = Ok (readItems "students" blankWorld)
   ∧ final (getStudents
              (fun w => (QueryFailed (RemoteError "unavailable"), w))
              blankWorld) = blankWorld
   ∧ List.filter isRemote
       (effects (getStudents
                   (fun w => (QueryFailed (RemoteError "unavailable"), w))
                   blankWorld)) = [])
  ∧ outcome (getStudents
               (fun w => (QueryFailed (RemoteError "unavailable"), w))
               unsyncedWorld)
    = Ok (readItems "students" unsyncedWorld).
Proof.
  split.
  - destruct (getStudents_falls_back_to_local
                (fun w => (QueryFailed (RemoteError "unavailable"), w))
                blankWorld) as [Hoff _].
    apply Hoff. reflexivity.
  - destruct (getStudents_falls_back_to_local
                (fun w => (QueryFailed (RemoteError "unavailable"), w))
                unsyncedWorld) as [_ Hfail].
    by destruct (Hfail eq_refl (RemoteError "unavailable") eq_refl).
Defined.

Lemma getStudents_stores_downloads_unsynced_witness :
  outcome (getStudents (fun w => (Docs [("d1", anaS1); ("d2", caroS2)], w))
             rosterWorld)
  = Ok (JArr (JObj <$> mergeData [dinaS3] [docRecord ("d1", anaS1);
                                            docRecord ("d2", caroS2)]
                         "studentId"))
  ∧ storedItems "students"
      (final (getStudents
                (fun w => (Docs [("d1", anaS1); ("d2", caroS2)], w))
                rosterWorld))
    = [JObj dinaS3; JObj (newItem (docRecord ("d1", anaS1)));
       JObj (newItem (docRecord ("d2", caroS2)))].
Proof.
  destruct (getStudents_stores_downloads_unsynced
              (fun w => (Docs [("d1", anaS1); ("d2", caroS2)], w))
              rosterWorld [JObj dinaS3] [("d1", anaS1); ("d2", caroS2)])
    as (Hout & _ & Hstored & _).
  - reflexivity.
  - reflexivity.
  - reflexivity.
  - reflexivity.
  - by repeat constructor.
  - split.
    + apply NoDup_cons. split; [set_solver|]. apply NoDup_singleton.
    + by repeat constructor.
  - by repeat constructor.
  - split; [exact Hout | exact Hstored].
Defined.
